(** * House prediction market: pricing kernel, trading engine and resolver

    A shallow embedding of the market-maker and settlement code of the
    repository, and the properties of its specification that were checked
    against it.

    Sources.
    - [AmmEngine]: prediction/backend/src/services/ammEngine.ts.
    - [Db]: the tables of schema.sql (unnamed/part_001) and the prepared
      statements of the services.
    - [TradingService]:
      prediction_cursor/backend/src/services/tradingService.ts.
    - [DataSourceService]: dataSourceService.ts (unnamed/part_004).
    - [ResolutionService]: the resolutionService.ts listed after
      ammEngine.ts in the same file.
    - [ResolutionServiceNoFallback]: the resolutionService.ts in
      unnamed/part_003.
    - [ResolutionsRoute] and [ResolutionProofRoute]:
      prediction_cursor/backend/src/routes/resolutions.ts.
    - [MarketsRoute]: GET /:id/stats of
      prediction_cursor/backend/src/routes/markets.ts.
    - [ResolverJob]: checkAndResolveMarkets of both resolutionService.ts and
      prediction_cursor/backend/src/jobs/resolver.ts.

    Conventions of the embedding.
    - A JavaScript [number] is read as a real number: arithmetic is exact,
      [Math.exp], [Math.log], [Math.max] and [Math.abs] are [exp], [ln],
      [Rmax] and [Rabs].  Rounding, infinities and NaN are outside the model.
      Doubles saturate where reals do not: far from balance a price is
      exactly 0 or 1 and the cost is exactly the larger inventory.  The
      general properties of prices and costs are therefore stated with bounds
      that include their ends, which both readings satisfy.
    - A table of the SQLite store is the list of its rows, in insertion
      order; a prepared statement is a function on those lists.  Columns that
      none of the embedded functions reads or writes (titles, descriptions,
      password hashes, creation stamps) are left out of the rows.
    - Identifiers produced by [uuidv4()] and the store clock
      ([CURRENT_TIMESTAMP], [new Date().toISOString()]) are inputs of the
      operation that uses them.
    - A function that can [throw] runs in the monad [M]: it maps a store to a
      store and either the thrown message or a value; [transaction] restores
      the store it started from when its body throws, as [db.transaction]
      does. *)

From Stdlib Require Import Reals Lra List String Bool Arith Lia.
Import ListNotations.
Open Scope R_scope.
Set Warnings "-register-all".

(** ** ammEngine.ts: the LMSR pricing kernel *)

Module AmmEngine.

Inductive PositionType : Type := YES | NO.

Definition PositionType_eqb (a b : PositionType) : bool :=
  match a, b with
  | YES, YES | NO, NO => true
  | _, _ => false
  end.

Record MarketState : Type := mkMarketState {
  total_yes_shares : R;
  total_no_shares : R;
  liquidity_pool : R
}.

Record QuoteResult : Type := mkQuoteResult {
  q_shares : R;
  q_avgPricePerShare : R;
  q_totalCost : R;
  q_priceImpact : R;
  q_newYesPrice : R;
  q_newNoPrice : R
}.

Record TradeResult : Type := mkTradeResult {
  t_shares : R;
  t_avgPricePerShare : R;
  t_totalCost : R;
  t_newYesShares : R;
  t_newNoShares : R
}.

(** [lmsrCost]: b * ln(exp(qYes/b) + exp(qNo/b)), by log-sum-exp. *)
Definition lmsrCost (qYes qNo b : R) : R :=
  let maxQ := Rmax (qYes / b) (qNo / b) in
  let expSum := exp (qYes / b - maxQ) + exp (qNo / b - maxQ) in
  b * (maxQ + ln expSum).

Definition getYesPrice (state : MarketState) : R :=
  let qYes := total_yes_shares state in
  let qNo := total_no_shares state in
  let b := liquidity_pool state in
  if Req_dec_T b 0 then 0.5
  else
    let maxQ := Rmax (qYes / b) (qNo / b) in
    let expYes := exp (qYes / b - maxQ) in
    let expNo := exp (qNo / b - maxQ) in
    expYes / (expYes + expNo).

Definition getNoPrice (state : MarketState) : R := 1 - getYesPrice state.

Definition tolerance : R := 0.0001.

(** The cost of the inventory after [mid] more shares of one side: the
    [newCost] of the loop body of [calculateSharesForAmount]. *)
Definition newCostAt (state : MarketState) (positionType : PositionType)
    (mid : R) : R :=
  let qYes := total_yes_shares state in
  let qNo := total_no_shares state in
  let b := liquidity_pool state in
  match positionType with
  | YES => lmsrCost (qYes + mid) qNo b
  | NO => lmsrCost qYes (qNo + mid) b
  end.

(** The [for] loop of [calculateSharesForAmount] with [i] iterations left;
    after the last one the function returns [(low + high) / 2]. *)
Fixpoint bisect (newCost : R -> R) (targetCost : R) (i : nat)
    (low high : R) : R :=
  match i with
  | O => (low + high) / 2
  | S i' =>
      let mid := (low + high) / 2 in
      if Rlt_dec (Rabs (newCost mid - targetCost)) tolerance then mid
      else if Rlt_dec (newCost mid) targetCost
           then bisect newCost targetCost i' mid high
           else bisect newCost targetCost i' low mid
  end.

Definition calculateSharesForAmount (state : MarketState)
    (positionType : PositionType) (amount : R) : R :=
  let qYes := total_yes_shares state in
  let qNo := total_no_shares state in
  let b := liquidity_pool state in
  let currentCost := lmsrCost qYes qNo b in
  let targetCost := currentCost + amount in
  bisect (newCostAt state positionType) targetCost 100 0 (amount * 10).

Definition calculateAmountForShares (state : MarketState)
    (positionType : PositionType) (shares : R) : R :=
  let qYes := total_yes_shares state in
  let qNo := total_no_shares state in
  let b := liquidity_pool state in
  let currentCost := lmsrCost qYes qNo b in
  let newCost :=
    match positionType with
    | YES => lmsrCost (qYes - shares) qNo b
    | NO => lmsrCost qYes (qNo - shares) b
    end in
  Rmax 0 (currentCost - newCost).

Definition getBuyQuote (state : MarketState) (positionType : PositionType)
    (amount : R) : QuoteResult :=
  let qYes := total_yes_shares state in
  let qNo := total_no_shares state in
  let b := liquidity_pool state in
  let currentYesPrice := getYesPrice state in
  let currentNoPrice := getNoPrice state in
  let currentPrice :=
    match positionType with YES => currentYesPrice | NO => currentNoPrice end in
  let sharesReceived := calculateSharesForAmount state positionType amount in
  let avgPricePerShare :=
    if Rlt_dec 0 sharesReceived then amount / sharesReceived else 0 in
  let newQYes :=
    match positionType with YES => qYes + sharesReceived | NO => qYes end in
  let newQNo :=
    match positionType with YES => qNo | NO => qNo + sharesReceived end in
  let newState := mkMarketState newQYes newQNo b in
  let newYesPrice := getYesPrice newState in
  let newNoPrice := getNoPrice newState in
  let priceImpact :=
    if Rlt_dec 0 currentPrice
    then (avgPricePerShare - currentPrice) / currentPrice else 0 in
  mkQuoteResult sharesReceived avgPricePerShare amount priceImpact
    newYesPrice newNoPrice.

Definition getSellQuote (state : MarketState) (positionType : PositionType)
    (shares : R) : QuoteResult :=
  let qYes := total_yes_shares state in
  let qNo := total_no_shares state in
  let b := liquidity_pool state in
  let currentYesPrice := getYesPrice state in
  let currentNoPrice := getNoPrice state in
  let currentPrice :=
    match positionType with YES => currentYesPrice | NO => currentNoPrice end in
  let amountReceived := calculateAmountForShares state positionType shares in
  let avgPricePerShare :=
    if Rlt_dec 0 shares then amountReceived / shares else 0 in
  let newQYes :=
    match positionType with YES => qYes - shares | NO => qYes end in
  let newQNo :=
    match positionType with YES => qNo | NO => qNo - shares end in
  let newState := mkMarketState newQYes newQNo b in
  let newYesPrice := getYesPrice newState in
  let newNoPrice := getNoPrice newState in
  let priceImpact :=
    if Rlt_dec 0 currentPrice
    then (currentPrice - avgPricePerShare) / currentPrice else 0 in
  mkQuoteResult shares avgPricePerShare amountReceived priceImpact
    newYesPrice newNoPrice.

Definition executeBuy (state : MarketState) (positionType : PositionType)
    (amount : R) : TradeResult :=
  let quote := getBuyQuote state positionType amount in
  let newQYes :=
    match positionType with
    | YES => total_yes_shares state + q_shares quote
    | NO => total_yes_shares state
    end in
  let newQNo :=
    match positionType with
    | YES => total_no_shares state
    | NO => total_no_shares state + q_shares quote
    end in
  mkTradeResult (q_shares quote) (q_avgPricePerShare quote) amount
    newQYes newQNo.

Definition executeSell (state : MarketState) (positionType : PositionType)
    (shares : R) : TradeResult :=
  let quote := getSellQuote state positionType shares in
  let newQYes :=
    match positionType with
    | YES => total_yes_shares state - shares
    | NO => total_yes_shares state
    end in
  let newQNo :=
    match positionType with
    | YES => total_no_shares state
    | NO => total_no_shares state - shares
    end in
  mkTradeResult shares (q_avgPricePerShare quote) (q_totalCost quote)
    newQYes newQNo.



Definition initializeMarketState (liquidity : R) : MarketState :=
  mkMarketState 0 0 liquidity.

Definition initializeMarketStateWithProbability (liquidity yesProbability : R)
    : MarketState :=
  let p := Rmax 0.01 (Rmin 0.99 yesProbability) in
  let qYes := liquidity * ln (p / (1 - p)) in
  mkMarketState qYes 0 liquidity.

End AmmEngine.

(** ** The store: schema.sql through better-sqlite3 *)

Module Db.
Import AmmEngine.

Inductive MarketStatus : Type := open | closed | resolved.

Definition MarketStatus_eqb (a b : MarketStatus) : bool :=
  match a, b with
  | open, open | closed, closed | resolved, resolved => true
  | _, _ => false
  end.

(** A parsed JSON document ([JSON.parse] of a TEXT column, a response body). *)
Inductive json : Type :=
  | JNull
  | JBool (b : bool)
  | JNum (r : R)
  | JStr (s : string)
  | JArr (l : list json)
  | JObj (l : list (string * json)).

(** A member [key: v] of an object literal. *)
Definition member (key : string) (v : json) : string * json := (key, v).

(** The pieces of a template literal, kept apart from their rendering. *)
Inductive frag : Type :=
  | Lit (s : string)
  | ToFixed (r : R) (digits : nat)
  | StringOf (j : json)
  | StringifyPrefix (j : json) (n : nat).

Definition text : Type := list frag.

Record ResolutionCriteria : Type := mkCriteria {
  path : string;
  operator : string;
  value : json
}.

Record CalculationStep : Type := mkStep {
  step : nat;
  description : text;
  input : option text;
  output : option text
}.

Record UserRow : Type := mkUser {
  u_id : string;
  balance : R
}.

(** [resolution_criteria] is the column after [JSON.parse]: routes/markets.ts
    and the seed data write it with [JSON.stringify], so the parse in
    [resolveMarket] does not throw. *)
Record MarketRow : Type := mkMarket {
  m_id : string;
  resolution_source : string;
  resolution_criteria : ResolutionCriteria;
  closes_at : string;
  resolved_at : option string;
  outcome : option PositionType;
  m_total_yes_shares : R;
  m_total_no_shares : R;
  m_liquidity_pool : R;
  status : MarketStatus
}.

Record PositionRow : Type := mkPosition {
  p_id : string;
  p_user_id : string;
  p_market_id : string;
  p_position_type : PositionType;
  shares : R;
  avg_price : R
}.

Inductive TradeType : Type := BUY | SELL.

Record TransactionRow : Type := mkTransaction {
  x_id : string;
  x_user_id : string;
  x_market_id : string;
  x_type : TradeType;
  x_position_type : PositionType;
  x_shares : R;
  price_per_share : R;
  total_cost : R
}.

Record PriceHistoryRow : Type := mkPricePoint {
  h_id : string;
  h_market_id : string;
  yes_price : R;
  no_price : R
}.

Record ResolutionRow : Type := mkResolution {
  r_id : string;
  r_market_id : string;
  r_outcome : PositionType;
  source_url : string;
  source_response : json;
  calculation_steps : list CalculationStep;
  final_value : text;
  resolved_by : string
}.

Record Store : Type := mkStore {
  users : list UserRow;
  markets : list MarketRow;
  positions : list PositionRow;
  transactions : list TransactionRow;
  price_history : list PriceHistoryRow;
  resolutions : list ResolutionRow
}.

(** The market row read as the [MarketState] of the pricing kernel. *)
Definition marketState (m : MarketRow) : MarketState :=
  mkMarketState (m_total_yes_shares m) (m_total_no_shares m)
    (m_liquidity_pool m).

(** *** Throwing, store-passing computations *)

Inductive Result (A : Type) : Type :=
  | Threw (message : string)
  | Returned (a : A).
Arguments Threw {A} message.
Arguments Returned {A} a.

Definition M (A : Type) : Type := Store -> Store * Result A.

Definition ret {A} (a : A) : M A := fun s => (s, Returned a).

Definition throw {A} (message : string) : M A := fun s => (s, Threw message).

Definition bind {A B} (m : M A) (k : A -> M B) : M B :=
  fun s =>
    match m s with
    | (s', Returned a) => k a s'
    | (s', Threw e) => (s', Threw e)
    end.

Definition gets {A} (f : Store -> A) : M A := fun s => (s, Returned (f s)).

Definition modify (f : Store -> Store) : M unit :=
  fun s => (f s, Returned tt).

(** [db.transaction(body)()]: commit when [body] returns, roll back to the
    store at entry and rethrow when it throws. *)
Definition transaction {A} (body : M A) : M A :=
  fun s =>
    match body s with
    | (s', Returned a) => (s', Returned a)
    | (_, Threw e) => (s, Threw e)
    end.

Declare Scope db_scope.
Delimit Scope db_scope with db.
Notation "x <- m ;; k" := (bind m (fun x => k))
  (at level 61, m at next level, right associativity) : db_scope.
Notation "m ;; k" := (bind m (fun _ => k))
  (at level 61, right associativity) : db_scope.
Open Scope db_scope.

(** *** Prepared statements *)

(** SELECT ... FROM users WHERE id = ?  (.get) *)
Definition selectUser (id : string) (s : Store) : option UserRow :=
  find (fun u => String.eqb (u_id u) id) (users s).

(** SELECT * FROM markets WHERE id = ?  (.get) *)
Definition selectMarket (id : string) (s : Store) : option MarketRow :=
  find (fun m => String.eqb (m_id m) id) (markets s).

(** SELECT id, shares, avg_price FROM positions
    WHERE user_id = ? AND market_id = ? AND position_type = ?  (.get) *)
Definition getPosition (userId marketId : string) (positionType : PositionType)
    (s : Store) : option PositionRow :=
  find (fun p => String.eqb (p_user_id p) userId
                 && String.eqb (p_market_id p) marketId
                 && PositionType_eqb (p_position_type p) positionType)
       (positions s).

(** UPDATE markets SET total_yes_shares = ?, total_no_shares = ? WHERE id = ? *)
Definition updateMarketShares (yesShares noShares : R) (id : string) : M unit :=
  modify (fun s =>
    mkStore (users s)
      (map (fun m =>
              if String.eqb (m_id m) id
              then mkMarket (m_id m) (resolution_source m)
                     (resolution_criteria m) (closes_at m) (resolved_at m)
                     (outcome m) yesShares noShares (m_liquidity_pool m)
                     (status m)
              else m) (markets s))
      (positions s) (transactions s) (price_history s) (resolutions s)).

(** UPDATE users SET balance = balance + ? WHERE id = ? *)
Definition creditBalance (amount : R) (id : string) : M unit :=
  modify (fun s =>
    mkStore
      (map (fun u =>
              if String.eqb (u_id u) id
              then mkUser (u_id u) (balance u + amount) else u) (users s))
      (markets s) (positions s) (transactions s) (price_history s)
      (resolutions s)).

(** UPDATE users SET balance = balance - ? WHERE id = ? *)
Definition debitBalance (amount : R) (id : string) : M unit :=
  modify (fun s =>
    mkStore
      (map (fun u =>
              if String.eqb (u_id u) id
              then mkUser (u_id u) (balance u - amount) else u) (users s))
      (markets s) (positions s) (transactions s) (price_history s)
      (resolutions s)).

(** INSERT INTO positions (id, user_id, market_id, position_type, shares,
    avg_price) VALUES (?, ?, ?, ?, ?, ?) *)
Definition insertPosition (row : PositionRow) : M unit :=
  modify (fun s =>
    mkStore (users s) (markets s) (positions s ++ [row]) (transactions s)
      (price_history s) (resolutions s)).

(** UPDATE positions SET shares = ?, avg_price = ? WHERE id = ? *)
Definition updatePositionSharesAvg (newShares newAvgPrice : R) (id : string)
    : M unit :=
  modify (fun s =>
    mkStore (users s) (markets s)
      (map (fun p =>
              if String.eqb (p_id p) id
              then mkPosition (p_id p) (p_user_id p) (p_market_id p)
                     (p_position_type p) newShares newAvgPrice
              else p) (positions s))
      (transactions s) (price_history s) (resolutions s)).

(** UPDATE positions SET shares = ? WHERE id = ? *)
Definition updatePositionShares (newShares : R) (id : string) : M unit :=
  modify (fun s =>
    mkStore (users s) (markets s)
      (map (fun p =>
              if String.eqb (p_id p) id
              then mkPosition (p_id p) (p_user_id p) (p_market_id p)
                     (p_position_type p) newShares (avg_price p)
              else p) (positions s))
      (transactions s) (price_history s) (resolutions s)).

(** DELETE FROM positions WHERE id = ? *)
Definition deletePosition (id : string) : M unit :=
  modify (fun s =>
    mkStore (users s) (markets s)
      (filter (fun p => negb (String.eqb (p_id p) id)) (positions s))
      (transactions s) (price_history s) (resolutions s)).

(** INSERT INTO transactions (...) VALUES (...) *)
Definition insertTransaction (row : TransactionRow) : M unit :=
  modify (fun s =>
    mkStore (users s) (markets s) (positions s) (transactions s ++ [row])
      (price_history s) (resolutions s)).

(** INSERT INTO price_history (id, market_id, yes_price, no_price)
    VALUES (?, ?, ?, ?) *)
Definition insertPriceHistory (row : PriceHistoryRow) : M unit :=
  modify (fun s =>
    mkStore (users s) (markets s) (positions s) (transactions s)
      (price_history s ++ [row]) (resolutions s)).

(** INSERT INTO resolutions (...) VALUES (...).  schema.sql declares
    [market_id ... UNIQUE] on this table: a second row for the same market is
    refused and the statement throws. *)
Definition insertResolution (row : ResolutionRow) : M unit :=
  fun s =>
    if existsb (fun r => String.eqb (r_market_id r) (r_market_id row))
         (resolutions s)
    then (s, Threw "UNIQUE constraint failed: resolutions.market_id")
    else (mkStore (users s) (markets s) (positions s) (transactions s)
            (price_history s) (resolutions s ++ [row]), Returned tt).

(** UPDATE markets SET status = 'resolved', outcome = ?,
    resolved_at = CURRENT_TIMESTAMP WHERE id = ? *)
Definition markResolved (o : PositionType) (id now : string) : M unit :=
  modify (fun s =>
    mkStore (users s)
      (map (fun m =>
              if String.eqb (m_id m) id
              then mkMarket (m_id m) (resolution_source m)
                     (resolution_criteria m) (closes_at m) (Some now)
                     (Some o) (m_total_yes_shares m) (m_total_no_shares m)
                     (m_liquidity_pool m) resolved
              else m) (markets s))
      (positions s) (transactions s) (price_history s) (resolutions s)).

(** SELECT * FROM positions WHERE market_id = ? AND position_type = ?  (.all) *)
Definition getWinningPositions (marketId : string) (o : PositionType)
    (s : Store) : list PositionRow :=
  filter (fun p => String.eqb (p_market_id p) marketId
                   && PositionType_eqb (p_position_type p) o)
         (positions s).

(** SELECT * FROM resolutions WHERE id = ?  (.get) *)
Definition selectResolution (id : string) (s : Store) : option ResolutionRow :=
  find (fun r => String.eqb (r_id r) id) (resolutions s).

(** UPDATE markets SET status = 'closed' WHERE id = ? *)
Definition markClosed (id : string) : M unit :=
  modify (fun s =>
    mkStore (users s)
      (map (fun m =>
              if String.eqb (m_id m) id
              then mkMarket (m_id m) (resolution_source m)
                     (resolution_criteria m) (closes_at m) (resolved_at m)
                     (outcome m) (m_total_yes_shares m) (m_total_no_shares m)
                     (m_liquidity_pool m) closed
              else m) (markets s))
      (positions s) (transactions s) (price_history s) (resolutions s)).

(** SELECT COALESCE(SUM(total_cost), 0) FROM transactions WHERE market_id = ? *)
Definition selectVolume (marketId : string) (s : Store) : R :=
  fold_left (fun total t => total + total_cost t)
    (filter (fun t => String.eqb (x_market_id t) marketId) (transactions s))
    0.

(** SELECT COUNT( * ) FROM transactions WHERE market_id = ? *)
Definition countTransactions (marketId : string) (s : Store) : nat :=
  List.length
    (filter (fun t => String.eqb (x_market_id t) marketId) (transactions s)).

(** SELECT COUNT(DISTINCT user_id) FROM transactions WHERE market_id = ? *)
Definition countTraders (marketId : string) (s : Store) : nat :=
  List.length
    (nodup string_dec
       (map x_user_id
          (filter (fun t => String.eqb (x_market_id t) marketId)
             (transactions s)))).

(** SELECT COUNT(DISTINCT user_id) FROM positions
    WHERE market_id = ? AND shares > 0 *)
Definition countPositionHolders (marketId : string) (s : Store) : nat :=
  List.length
    (nodup string_dec
       (map p_user_id
          (filter (fun p => String.eqb (p_market_id p) marketId
                            && if Rgt_dec (shares p) 0 then true else false)
             (positions s)))).

End Db.

(** ** tradingService.ts: the trading engine *)

Module TradingService.
Import AmmEngine Db.

Record TradeRequest : Type := mkTradeRequest {
  marketId : string;
  positionType : PositionType;
  amount : R;
  action : TradeType;
  userId : string
}.

Record PositionSummary : Type := mkPositionSummary {
  ps_shares : R;
  ps_avgPrice : R
}.

Record TradeResponse : Type := mkTradeResponse {
  success : bool;
  transactionId : string;
  tr_shares : R;
  pricePerShare : R;
  totalCost : R;
  newBalance : R;
  position : PositionSummary
}.

(** Reading a field of [undefined]. *)
Definition TypeError_balance : string :=
  "Cannot read properties of undefined (reading 'balance')".

(** [getMarketState]: the three inventory columns and the status. *)
Definition getMarketState (marketId : string)
    : M (MarketState * MarketStatus) :=
  market <- gets (selectMarket marketId) ;;
  match market with
  | None => throw "Market not found"
  | Some m => ret (marketState m, status m)
  end.

(** [executeBuyTrade(req)]; [transactionId], [positionId] and
    [priceHistoryId] are the results of its three [uuidv4()] calls. *)
Definition executeBuyTrade (req : TradeRequest)
    (transactionId positionId priceHistoryId : string) : M TradeResponse :=
  market <- getMarketState (marketId req) ;;
  if negb (MarketStatus_eqb (snd market) open)
  then throw "Market is not open for trading"
  else
  user <- gets (selectUser (userId req)) ;;
  match user with
  | None => throw "User not found"
  | Some user =>
  if Rlt_dec (balance user) (amount req)
  then throw "Insufficient balance"
  else
  let result := executeBuy (fst market) (positionType req) (amount req) in
  positionResult <- transaction (
    updateMarketShares (t_newYesShares result) (t_newNoShares result)
      (marketId req) ;;
    debitBalance (amount req) (userId req) ;;
    existingPosition <-
      gets (getPosition (userId req) (marketId req) (positionType req)) ;;
    newPosition <-
      match existingPosition with
      | Some existingPosition =>
          let totalCost :=
            shares existingPosition * avg_price existingPosition
            + amount req in
          let newShares := shares existingPosition + t_shares result in
          let newAvgPrice := totalCost / newShares in
          updatePositionSharesAvg newShares newAvgPrice
            (p_id existingPosition) ;;
          ret (mkPositionSummary newShares newAvgPrice)
      | None =>
          let newShares := t_shares result in
          let newAvgPrice := t_avgPricePerShare result in
          insertPosition
            (mkPosition positionId (userId req) (marketId req)
               (positionType req) newShares newAvgPrice) ;;
          ret (mkPositionSummary newShares newAvgPrice)
      end ;;
    insertTransaction
      (mkTransaction transactionId (userId req) (marketId req) BUY
         (positionType req) (t_shares result) (t_avgPricePerShare result)
         (amount req)) ;;
    let newState :=
      mkMarketState (t_newYesShares result) (t_newNoShares result)
        (liquidity_pool (fst market)) in
    insertPriceHistory
      (mkPricePoint priceHistoryId (marketId req) (getYesPrice newState)
         (getNoPrice newState)) ;;
    ret newPosition) ;;
  updatedUser <- gets (selectUser (userId req)) ;;
  match updatedUser with
  | None => throw TypeError_balance
  | Some updatedUser =>
      ret (mkTradeResponse true transactionId (t_shares result)
             (t_avgPricePerShare result) (amount req) (balance updatedUser)
             positionResult)
  end
  end.

(** [executeSellTrade(req)]; [req.amount] is the number of shares to sell. *)
Definition executeSellTrade (req : TradeRequest)
    (transactionId priceHistoryId : string) : M TradeResponse :=
  market <- getMarketState (marketId req) ;;
  if negb (MarketStatus_eqb (snd market) open)
  then throw "Market is not open for trading"
  else
  position <-
    gets (getPosition (userId req) (marketId req) (positionType req)) ;;
  match position with
  | None => throw "Insufficient shares to sell"
  | Some position =>
  if Rlt_dec (shares position) (amount req)
  then throw "Insufficient shares to sell"
  else
  let result := executeSell (fst market) (positionType req) (amount req) in
  newShares <- transaction (
    updateMarketShares (t_newYesShares result) (t_newNoShares result)
      (marketId req) ;;
    creditBalance (t_totalCost result) (userId req) ;;
    let newShares := shares position - amount req in
    (if Rle_dec newShares 0.0001
     then deletePosition (p_id position)
     else updatePositionShares newShares (p_id position)) ;;
    insertTransaction
      (mkTransaction transactionId (userId req) (marketId req) SELL
         (positionType req) (amount req) (t_avgPricePerShare result)
         (t_totalCost result)) ;;
    let newState :=
      mkMarketState (t_newYesShares result) (t_newNoShares result)
        (liquidity_pool (fst market)) in
    insertPriceHistory
      (mkPricePoint priceHistoryId (marketId req) (getYesPrice newState)
         (getNoPrice newState)) ;;
    ret newShares) ;;
  updatedUser <- gets (selectUser (userId req)) ;;
  match updatedUser with
  | None => throw TypeError_balance
  | Some updatedUser =>
      ret (mkTradeResponse true transactionId (amount req)
             (t_avgPricePerShare result) (t_totalCost result)
             (balance updatedUser)
             (mkPositionSummary (Rmax 0 newShares) (avg_price position)))
  end
  end.

Record TradeQuoteRequest : Type := mkTradeQuoteRequest {
  qr_marketId : string;
  qr_positionType : PositionType;
  qr_amount : R;
  qr_action : TradeType
}.

Record TradeQuoteResponse : Type := mkTradeQuoteResponse {
  qs_shares : R;
  qs_pricePerShare : R;
  qs_totalCost : R;
  qs_priceImpact : R;
  qs_newYesPrice : R;
  qs_newNoPrice : R;
  qs_currentYesPrice : R;
  qs_currentNoPrice : R
}.

(** [getQuote(req)]: a quote without a trade. *)
Definition getQuote (req : TradeQuoteRequest) : M TradeQuoteResponse :=
  market <- getMarketState (qr_marketId req) ;;
  if negb (MarketStatus_eqb (snd market) open)
  then throw "Market is not open for trading"
  else
    let currentYesPrice := getYesPrice (fst market) in
    let currentNoPrice := getNoPrice (fst market) in
    let quote :=
      match qr_action req with
      | BUY => getBuyQuote (fst market) (qr_positionType req) (qr_amount req)
      | SELL => getSellQuote (fst market) (qr_positionType req) (qr_amount req)
      end in
    ret (mkTradeQuoteResponse (q_shares quote) (q_avgPricePerShare quote)
           (q_totalCost quote) (q_priceImpact quote) (q_newYesPrice quote)
           (q_newNoPrice quote) currentYesPrice currentNoPrice).




End TradingService.

(** ** dataSourceService.ts: the data-fetch capability *)

Module DataSourceService.
Import AmmEngine Db.

Record DataSourceResult : Type := mkDataSourceResult {
  ds_success : bool;
  data : json;
  ds_source_url : string;
  fetched_at : string;
  error : option string
}.

(** The three operations the resolver imports.  [fetchFromSource] answers
    for the network; [extractValue] is [None] where the JavaScript function
    returns [undefined]; [evaluateCondition] throws on an unknown operator.
    The resolver uses nothing of them but their results, so they are kept as
    an interface. *)
Class DataFetcher : Type := {
  fetchFromSource : string -> DataSourceResult;
  extractValue : json -> string -> option json;
  evaluateCondition : json -> string -> json -> Result bool
}.

Definition string_of_PositionType (o : PositionType) : string :=
  match o with YES => "YES" | NO => "NO" end.

(** The one-character string holding a double quote. *)
Definition dquote : string :=
  String (Ascii.Ascii false true false false false true false false)
    EmptyString.

Definition generateCalculationSteps (sourceUrl : string) (sourceData : json)
    (path operator : string) (expectedValue actualValue : json)
    (outcome : PositionType) : list CalculationStep :=
  [ mkStep 1 [Lit "Fetched data from authoritative source"]
      (Some [Lit sourceUrl]) (Some [Lit "Data retrieved successfully"]);
    mkStep 2
      [Lit ("Extracted value at path " ++ dquote ++ path ++ dquote)%string]
      (Some [StringifyPrefix sourceData 200; Lit "..."])
      (Some [StringOf actualValue]);
    mkStep 3
      [Lit "Evaluated condition: "; StringOf actualValue;
       Lit (" " ++ operator ++ " ")%string; StringOf expectedValue]
      (Some [Lit "Actual: "; StringOf actualValue; Lit ", Expected: ";
             StringOf expectedValue])
      (Some [Lit match outcome with
                 | YES => "Condition TRUE"
                 | NO => "Condition FALSE"
                 end]);
    mkStep 4 [Lit "Market resolved based on condition result"] None
      (Some [Lit ("Outcome: " ++ string_of_PositionType outcome)%string]) ].

End DataSourceService.

(** ** resolutionService.ts: the resolver

    The repository holds two copies of this file.  They share the checks at
    entry, the manual-override branch, the body of the [try] block (here
    [consultSource]) and the settlement transaction (the newer copy only
    adds logging to it).  They differ in what follows a failed source and in
    [getMarketsForResolution]. *)

Module ResolutionCommon.
Import AmmEngine Db DataSourceService.

Record Payout : Type := mkPayout {
  po_userId : string;
  po_amount : R;
  po_positionType : PositionType;
  po_shares : R
}.

Record ResolutionResult : Type := mkResolutionResult {
  rr_marketId : string;
  rr_outcome : PositionType;
  rr_resolution : ResolutionRow;
  rr_payouts : list Payout
}.

(** What the first half of [resolveMarket] determines. *)
Record Determination : Type := mkDetermination {
  d_outcome : PositionType;
  d_sourceResponse : json;
  d_calculationSteps : list CalculationStep;
  d_finalValue : text
}.

Definition TypeError_source_response : string :=
  "Cannot read properties of undefined (reading 'source_response')".

(** The branch [if (manualOutcome)]. *)
Definition manualDetermination (manualOutcome : PositionType) : Determination :=
  mkDetermination manualOutcome
    (JObj [member "manual" (JBool true);
           member "outcome" (JStr (string_of_PositionType manualOutcome))])
    [ mkStep 1 [Lit "Market resolved manually"] None
        (Some [Lit ("Manual outcome: "
                    ++ string_of_PositionType manualOutcome)%string]) ]
    [Lit (string_of_PositionType manualOutcome)].

(** Fetch, extract, evaluate: the statements from [fetchFromSource] to
    [generateCalculationSteps], with the message of the error they throw. *)
Definition consultSource `{DataFetcher} (market : MarketRow)
    : Result Determination :=
  let criteria := resolution_criteria market in
  let sourceResult := fetchFromSource (resolution_source market) in
  if negb (ds_success sourceResult)
  then Threw ("Failed to fetch data: "
              ++ match error sourceResult with
                 | Some e => e
                 | None => "undefined"
                 end)%string
  else
    let sourceResponse := data sourceResult in
    match extractValue sourceResponse (path criteria) with
    | None =>
        Threw ("Could not extract value at path: " ++ path criteria)%string
    | Some actualValue =>
        match evaluateCondition actualValue (operator criteria)
                (value criteria) with
        | Threw e => Threw e
        | Returned conditionMet =>
            let outcome := if conditionMet then YES else NO in
            Returned
              (mkDetermination outcome sourceResponse
                 (generateCalculationSteps (resolution_source market)
                    sourceResponse (path criteria) (operator criteria)
                    (value criteria) actualValue outcome)
                 [StringOf actualValue])
        end
    end.

(** The [for (const position of winningPositions)] loop: credit each owner
    and collect the payout. *)
Fixpoint payWinners (winningPositions : list PositionRow) : M (list Payout) :=
  match winningPositions with
  | [] => ret []
  | position :: rest =>
      let payout := shares position * 1.0 in
      creditBalance payout (p_user_id position) ;;
      payouts <- payWinners rest ;;
      ret (mkPayout (p_user_id position) payout (p_position_type position)
             (shares position) :: payouts)
  end.

(** The body of [executeResolution]. *)
Definition executeResolution (market : MarketRow) (marketId : string)
    (d : Determination) (resolvedBy resolutionId now : string)
    : M (list Payout) :=
  insertResolution
    (mkResolution resolutionId marketId (d_outcome d)
       (resolution_source market) (d_sourceResponse d)
       (d_calculationSteps d) (d_finalValue d) resolvedBy) ;;
  markResolved (d_outcome d) marketId now ;;
  winningPositions <- gets (getWinningPositions marketId (d_outcome d)) ;;
  payWinners winningPositions.

(** From the transaction to the returned record. *)
Definition settle (market : MarketRow) (marketId : string)
    (d : Determination) (resolvedBy resolutionId now : string)
    : M ResolutionResult :=
  payouts <-
    transaction (executeResolution market marketId d resolvedBy resolutionId
                   now) ;;
  resolution <- gets (selectResolution resolutionId) ;;
  match resolution with
  | None => throw TypeError_source_response
  | Some resolution =>
      ret (mkResolutionResult marketId (d_outcome d) resolution payouts)
  end.

(** The default of the parameter [resolvedBy: string = 'auto']. *)
Definition resolvedByOrAuto (resolvedBy : option string) : string :=
  match resolvedBy with Some r => r | None => "auto" end.

End ResolutionCommon.

(** The copy printed after ammEngine.ts: a manual-source market and a
    failed source are both resolved by the current probability. *)
Module ResolutionService.
Import AmmEngine Db DataSourceService ResolutionCommon.

(** The branch [market.resolution_source === 'manual']. *)
Definition probabilityDetermination (market : MarketRow) : Determination :=
  let yesPrice := getYesPrice (marketState market) in
  let outcome := if Rgt_dec yesPrice 0.5 then YES else NO in
  mkDetermination outcome
    (JObj [member "manual" (JBool true);
           member "probability_based" (JBool true);
           member "yes_price" (JNum yesPrice);
           member "outcome" (JStr (string_of_PositionType outcome))])
    [ mkStep 1 [Lit "Market resolved using probability"]
        (Some [Lit "Current YES price: "; ToFixed (yesPrice * 100) 2;
               Lit "%"])
        (Some [Lit ("Outcome: " ++ string_of_PositionType outcome
                    ++ " (")%string;
               Lit (if Rgt_dec yesPrice 0.5
                    then "YES probability > 50%"
                    else "NO probability >= 50%");
               Lit ")"]) ]
    [Lit (string_of_PositionType outcome)].

(** The [catch (error)] block. *)
Definition fallbackDetermination (market : MarketRow) (message : string)
    : Determination :=
  let yesPrice := getYesPrice (marketState market) in
  let outcome := if Rgt_dec yesPrice 0.5 then YES else NO in
  mkDetermination outcome
    (JObj [member "fallback" (JBool true);
           member "error" (JStr message);
           member "probability_based" (JBool true);
           member "yes_price" (JNum yesPrice);
           member "outcome" (JStr (string_of_PositionType outcome))])
    [ mkStep 1
        [Lit "Source fetch failed, using probability-based resolution"]
        (Some [Lit ("Error: " ++ message)%string])
        (Some [Lit "Current YES price: "; ToFixed (yesPrice * 100) 2;
               Lit ("% -> Outcome: "
                    ++ string_of_PositionType outcome)%string]) ]
    [Lit (string_of_PositionType outcome)].

Definition determine `{DataFetcher} (market : MarketRow)
    (manualOutcome : option PositionType) : Determination :=
  match manualOutcome with
  | Some manualOutcome => manualDetermination manualOutcome
  | None =>
      if String.eqb (resolution_source market) "manual"
      then probabilityDetermination market
      else
        match consultSource market with
        | Returned d => d
        | Threw message => fallbackDetermination market message
        end
  end.

Definition resolveMarket `{DataFetcher} (marketId : string)
    (manualOutcome : option PositionType) (resolvedBy : option string)
    (resolutionId now : string) : M ResolutionResult :=
  market <- gets (selectMarket marketId) ;;
  match market with
  | None => throw "Market not found"
  | Some market =>
      if MarketStatus_eqb (status market) resolved
      then throw "Market is already resolved"
      else
        settle market marketId (determine market manualOutcome)
          (resolvedByOrAuto resolvedBy) resolutionId now
  end.

(** SELECT * FROM markets WHERE status = 'open' AND closes_at <= ?
    The column is TEXT, so the comparison is that of the stored strings. *)
Definition getMarketsForResolution (now : string) (s : Store)
    : list MarketRow :=
  filter (fun m => MarketStatus_eqb (status m) open
                   && String.leb (closes_at m) now)
         (markets s).

End ResolutionService.

(** The other copy (src/unnamed/part_003): a failed source makes
    [resolveMarket] throw, and manual-source markets are never due. *)
Module ResolutionServiceNoFallback.
Import AmmEngine Db DataSourceService ResolutionCommon.

Definition resolveMarket `{DataFetcher} (marketId : string)
    (manualOutcome : option PositionType) (resolvedBy : option string)
    (resolutionId now : string) : M ResolutionResult :=
  market <- gets (selectMarket marketId) ;;
  match market with
  | None => throw "Market not found"
  | Some market =>
      if MarketStatus_eqb (status market) resolved
      then throw "Market is already resolved"
      else
        match manualOutcome with
        | Some manualOutcome =>
            settle market marketId (manualDetermination manualOutcome)
              (resolvedByOrAuto resolvedBy) resolutionId now
        | None =>
            match consultSource market with
            | Threw message => throw message
            | Returned d =>
                settle market marketId d (resolvedByOrAuto resolvedBy)
                  resolutionId now
            end
        end
  end.

(** SELECT * FROM markets WHERE status = 'open' AND closes_at <= ?
    AND resolution_source != 'manual' *)
Definition getMarketsForResolution (now : string) (s : Store)
    : list MarketRow :=
  filter (fun m => MarketStatus_eqb (status m) open
                   && String.leb (closes_at m) now
                   && negb (String.eqb (resolution_source m) "manual"))
         (markets s).

End ResolutionServiceNoFallback.

(** ** routes/resolutions.ts: POST /:marketId/resolve *)

Module ResolutionsRoute.
Import AmmEngine Db DataSourceService ResolutionCommon.

Record ResolveBody : Type := mkResolveBody {
  body_outcome : string;
  body_resolved_by : option string
}.

Inductive Response : Type :=
  | Json (result : ResolutionResult)
  | StatusJson (code : nat) (error message : string).

(** The type of the imported [resolveMarket]. *)
Definition Resolver : Type :=
  string -> option PositionType -> option string -> string -> string ->
  M ResolutionResult.

(** [resolved_by || 'manual']: an absent or empty value is falsy. *)
Definition resolvedByOrManual (resolved_by : option string) : string :=
  match resolved_by with
  | Some EmptyString | None => "manual"
  | Some r => r
  end.

Definition postResolve (resolveMarket : Resolver) (marketId : string)
    (body : ResolveBody) (resolutionId now : string) (s : Store)
    : Store * Response :=
  let outcome :=
    if String.eqb (body_outcome body) "YES" then Some YES
    else if String.eqb (body_outcome body) "NO" then Some NO
    else None in
  match outcome with
  | None => (s, StatusJson 400 "ValidationError" "outcome must be YES or NO")
  | Some outcome =>
      match selectMarket marketId s with
      | None => (s, StatusJson 404 "NotFound" "Market not found")
      | Some market =>
          if MarketStatus_eqb (status market) resolved
          then (s, StatusJson 400 "ValidationError"
                     "Market is already resolved")
          else
            match resolveMarket marketId (Some outcome)
                    (Some (resolvedByOrManual (body_resolved_by body)))
                    resolutionId now s with
            | (s', Returned result) => (s', Json result)
            | (s', Threw message) =>
                (s', StatusJson 500 "ResolutionError" message)
            end
      end
  end.

End ResolutionsRoute.

(** ** Store invariants and the operations that commit

    The constraints of schema.sql that the properties rely on, the sign
    invariants of the data model, and the three kinds of operation that
    change balances. *)

Module Invariants.
Import AmmEngine Db TradingService DataSourceService ResolutionCommon.

(** The balance column of the user with this id, if there is one. *)
Definition balanceOf (id : string) (s : Store) : option R :=
  option_map balance (selectUser id s).

(** The users table after the payout loop over [ws]: what
    [payWinners] leaves in it. *)
Definition creditUser (amount : R) (id : string) (u : UserRow) : UserRow :=
  if String.eqb (u_id u) id then mkUser (u_id u) (balance u + amount) else u.

Fixpoint creditAll (ws : list PositionRow) (us : list UserRow) : list UserRow :=
  match ws with
  | [] => us
  | p :: ws' => creditAll ws' (map (creditUser (shares p * 1.0) (p_user_id p)) us)
  end.

(** The payout entry pushed for a winning position. *)
Definition payoutOf (p : PositionRow) : Payout :=
  mkPayout (p_user_id p) (shares p * 1.0) (p_position_type p) (shares p).

(** The balance of the first row with this id in a users table. *)
Definition findBalance (id : string) (us : list UserRow) : option R :=
  option_map balance (find (fun u => String.eqb (u_id u) id) us).

(** The row [executeResolution] inserts and the store it commits. *)
Definition resolutionRowOf (market : MarketRow) (marketId : string)
    (d : Determination) (resolvedBy resolutionId : string) : ResolutionRow :=
  mkResolution resolutionId marketId (d_outcome d) (resolution_source market)
    (d_sourceResponse d) (d_calculationSteps d) (d_finalValue d) resolvedBy.

Definition resolvedMarket (o : PositionType) (id now : string) (m : MarketRow)
    : MarketRow :=
  if String.eqb (m_id m) id
  then mkMarket (m_id m) (resolution_source m) (resolution_criteria m)
         (closes_at m) (Some now) (Some o) (m_total_yes_shares m)
         (m_total_no_shares m) (m_liquidity_pool m) resolved
  else m.

Definition settledStore (s : Store) (market : MarketRow) (marketId : string)
    (d : Determination) (resolvedBy resolutionId now : string) : Store :=
  mkStore
    (creditAll (getWinningPositions marketId (d_outcome d) s) (users s))
    (map (resolvedMarket (d_outcome d) marketId now) (markets s))
    (positions s) (transactions s) (price_history s)
    (resolutions s
     ++ [resolutionRowOf market marketId d resolvedBy resolutionId]).

(** The stores [executeBuyTrade] and [executeSellTrade] commit. *)
Definition debitUser (amount : R) (id : string) (u : UserRow) : UserRow :=
  if String.eqb (u_id u) id then mkUser (u_id u) (balance u - amount) else u.

Definition withShares (yesShares noShares : R) (id : string) (m : MarketRow)
    : MarketRow :=
  if String.eqb (m_id m) id
  then mkMarket (m_id m) (resolution_source m) (resolution_criteria m)
         (closes_at m) (resolved_at m) (outcome m) yesShares noShares
         (m_liquidity_pool m) (status m)
  else m.

Definition boughtPositions (req : TradeRequest) (positionId : string)
    (result : TradeResult) (s : Store) : list PositionRow :=
  match getPosition (userId req) (marketId req) (positionType req) s with
  | Some existing =>
      map (fun p =>
             if String.eqb (p_id p) (p_id existing)
             then mkPosition (p_id p) (p_user_id p) (p_market_id p)
                    (p_position_type p) (shares existing + t_shares result)
                    ((shares existing * avg_price existing + amount req)
                     / (shares existing + t_shares result))
             else p) (positions s)
  | None =>
      positions s
      ++ [mkPosition positionId (userId req) (marketId req)
            (positionType req) (t_shares result) (t_avgPricePerShare result)]
  end.

Definition boughtStore (req : TradeRequest)
    (transactionId positionId priceHistoryId : string) (market : MarketRow)
    (s : Store) : Store :=
  let result := executeBuy (marketState market) (positionType req)
                  (amount req) in
  mkStore
    (map (debitUser (amount req) (userId req)) (users s))
    (map (withShares (t_newYesShares result) (t_newNoShares result)
            (marketId req)) (markets s))
    (boughtPositions req positionId result s)
    (transactions s
     ++ [mkTransaction transactionId (userId req) (marketId req) BUY
           (positionType req) (t_shares result) (t_avgPricePerShare result)
           (amount req)])
    (price_history s
     ++ [mkPricePoint priceHistoryId (marketId req)
           (getYesPrice (mkMarketState (t_newYesShares result)
                           (t_newNoShares result) (m_liquidity_pool market)))
           (getNoPrice (mkMarketState (t_newYesShares result)
                          (t_newNoShares result) (m_liquidity_pool market)))])
    (resolutions s).

Definition soldPositions (req : TradeRequest) (position : PositionRow)
    (s : Store) : list PositionRow :=
  if Rle_dec (shares position - amount req) 0.0001
  then filter (fun p => negb (String.eqb (p_id p) (p_id position)))
         (positions s)
  else map (fun p =>
              if String.eqb (p_id p) (p_id position)
              then mkPosition (p_id p) (p_user_id p) (p_market_id p)
                     (p_position_type p) (shares position - amount req)
                     (avg_price p)
              else p) (positions s).

Definition soldStore (req : TradeRequest)
    (transactionId priceHistoryId : string) (market : MarketRow)
    (position : PositionRow) (s : Store) : Store :=
  let result := executeSell (marketState market) (positionType req)
                  (amount req) in
  mkStore
    (map (creditUser (t_totalCost result) (userId req)) (users s))
    (map (withShares (t_newYesShares result) (t_newNoShares result)
            (marketId req)) (markets s))
    (soldPositions req position s)
    (transactions s
     ++ [mkTransaction transactionId (userId req) (marketId req) SELL
           (positionType req) (amount req) (t_avgPricePerShare result)
           (t_totalCost result)])
    (price_history s
     ++ [mkPricePoint priceHistoryId (marketId req)
           (getYesPrice (mkMarketState (t_newYesShares result)
                           (t_newNoShares result) (m_liquidity_pool market)))
           (getNoPrice (mkMarketState (t_newYesShares result)
                          (t_newNoShares result) (m_liquidity_pool market)))])
    (resolutions s).

(** users.id is the PRIMARY KEY. *)
Definition users_unique (s : Store) : Prop := NoDup (map u_id (users s)).

(** positions: UNIQUE(user_id, market_id, position_type). *)
Definition positionKey (p : PositionRow) : string * string * PositionType :=
  (p_user_id p, p_market_id p, p_position_type p).

Definition positions_unique (s : Store) : Prop :=
  NoDup (map positionKey (positions s)).

(** No user owes money. *)
Definition balances_ok (s : Store) : Prop :=
  users_unique s /\ forall u, In u (users s) -> 0 <= balance u.

(** No position is short. *)
Definition positions_ok (s : Store) : Prop :=
  forall p, In p (positions s) -> 0 <= shares p.

Definition store_ok (s : Store) : Prop := balances_ok s /\ positions_ok s.

(** A resolution row exists only for a market that is marked resolved. *)
Definition resolutions_consistent (s : Store) : Prop :=
  forall r, In r (resolutions s) ->
  exists m, selectMarket (r_market_id r) s = Some m /\ status m = resolved.

(** The two copies of the resolver. *)
Inductive ResolverCopy : Type := WithFallback | WithoutFallback.

Definition resolveMarketOf `{DataFetcher} (copy : ResolverCopy)
    : ResolutionsRoute.Resolver :=
  match copy with
  | WithFallback => ResolutionService.resolveMarket
  | WithoutFallback => ResolutionServiceNoFallback.resolveMarket
  end.

(** A call that can change a balance, with the identifiers and the clock
    reading it consumes. *)
Inductive Operation : Type :=
  | Buy (req : TradeRequest) (transactionId positionId priceHistoryId : string)
  | Sell (req : TradeRequest) (transactionId priceHistoryId : string)
  | Resolve (copy : ResolverCopy) (marketId : string)
      (manualOutcome : option PositionType) (resolvedBy : option string)
      (resolutionId now : string).

(** The store an operation leaves behind, whether it returned or threw. *)
Definition runOperation `{DataFetcher} (op : Operation) (s : Store) : Store :=
  match op with
  | Buy req transactionId positionId priceHistoryId =>
      fst (executeBuyTrade req transactionId positionId priceHistoryId s)
  | Sell req transactionId priceHistoryId =>
      fst (executeSellTrade req transactionId priceHistoryId s)
  | Resolve copy marketId manualOutcome resolvedBy resolutionId now =>
      fst (resolveMarketOf copy marketId manualOutcome resolvedBy
             resolutionId now s)
  end.

Definition runOperations `{DataFetcher} (ops : list Operation) (s : Store)
    : Store :=
  fold_left (fun s op => runOperation op s) ops s.

(** The one condition on the arguments that the sign invariant needs: a buy
    is for an amount that is not negative.  Sells and resolutions are
    unrestricted.  The code does not enforce the condition: the trading
    routes answer ValidationError to [amount <= 0], but they test the value
    of the body before [parseFloat] reads it, and [executeBuyTrade] tests
    nothing; see [buyNegative]. *)
Definition validated (op : Operation) : Prop :=
  match op with
  | Buy req _ _ _ => 0 <= amount req
  | Sell _ _ _ => True
  | Resolve _ _ _ _ _ _ => True
  end.

(** The two failures of the data fetch: the source answers with an error,
    or the response has no value at [criteria.path].  [message] is the
    message of the error thrown inside the [try] block. *)
Definition sourceFailed `{DataFetcher} (market : MarketRow) (message : string)
    : Prop :=
  let sourceResult := fetchFromSource (resolution_source market) in
  (ds_success sourceResult = false /\
   message = ("Failed to fetch data: "
              ++ match error sourceResult with
                 | Some e => e
                 | None => "undefined"
                 end)%string)
  \/
  (ds_success sourceResult = true /\
   extractValue (data sourceResult) (path (resolution_criteria market)) = None /\
   message = ("Could not extract value at path: "
              ++ path (resolution_criteria market))%string).

(** The proof blob of the [catch] block. *)
Definition fallbackBlob (yesPrice : R) (o : PositionType) (message : string)
    : json :=
  JObj [member "fallback" (JBool true);
        member "error" (JStr message);
        member "probability_based" (JBool true);
        member "yes_price" (JNum yesPrice);
        member "outcome" (JStr (string_of_PositionType o))].

End Invariants.

(** ** Scenarios

    Concrete inventories, stores and requests at which the properties below
    are exercised. *)

Module Scenarios.
Import AmmEngine Db.


(** A market with 1000 NO shares outstanding and b = 100: YES trades at
    1 / (1 + exp 10). *)
Definition lopsidedMarket : MarketState := mkMarketState 0 1000 100.


(** Scenario 5 of the specification: one market with b = 100, user A with
    30 YES at 0.45, user B with 20 NO at 0.55; the market is open and closes
    in 2099. *)
Definition priceCriteria : ResolutionCriteria :=
  mkCriteria "bitcoin.usd" ">" (JNum 100000).

Definition marketM1 : MarketRow :=
  mkMarket "m1" "https://api.coingecko.com/api/v3/simple/price" priceCriteria
    "2099-01-01T00:00:00.000Z" None None 0 0 100 open.

Definition positionA : PositionRow := mkPosition "pA" "A" "m1" YES 30 0.45.
Definition positionB : PositionRow := mkPosition "pB" "B" "m1" NO 20 0.55.

Definition payoutStore : Store :=
  mkStore [mkUser "A" 1000; mkUser "B" 1000] [marketM1]
    [positionA; positionB] [] [] [].

(** A clock reading long before the market closes. *)
Definition today : string := "2026-01-15T12:00:00.000Z".

(** [payoutStore] after market m1 has been resolved manually as YES. *)
Definition resolvedStore : Store :=
  Invariants.settledStore payoutStore marketM1 "m1"
    (ResolutionCommon.manualDetermination YES) "auto" "r1" today.

(** A source that answers every request with HTTP 500. *)
Definition failingFetcher : DataSourceService.DataFetcher :=
  {| DataSourceService.fetchFromSource := fun url =>
       DataSourceService.mkDataSourceResult false JNull url today
         (Some "Request failed with status code 500"%string);
     DataSourceService.extractValue := fun _ _ => None;
     DataSourceService.evaluateCondition := fun _ operator _ =>
       Threw ("Unknown operator: " ++ operator)%string |}.

(** A manual-source market that closed in 2025 and is still open. *)
Definition manualMarket : MarketRow :=
  mkMarket "m2" "manual" (mkCriteria "manual" "equals" (JBool true))
    "2025-12-31T00:00:00.000Z" None None 0 0 100 open.

Definition manualStore : Store :=
  mkStore [mkUser "A" 1000] [manualMarket] [] [] [] [].

(** A buy of YES on m1 by user B for the amount 0.  POST /buy hands this
    request to [executeBuyTrade] for a body whose amount is the text 0x10:
    the route's test [amount <= 0] reads it as the number 16, and
    [parseFloat] then reads it as 0. *)
Definition buyNothing : TradingService.TradeRequest :=
  TradingService.mkTradeRequest "m1" YES 0 BUY "B".

(** Requests of user A on market m1. *)
Definition buyTen : TradingService.TradeRequest :=
  TradingService.mkTradeRequest "m1" YES 10 BUY "A".

Definition sellTen : TradingService.TradeRequest :=
  TradingService.mkTradeRequest "m1" YES 10 SELL "A".

Definition sellAll : TradingService.TradeRequest :=
  TradingService.mkTradeRequest "m1" YES 30 SELL "A".

End Scenarios.

(** ** routes/markets.ts: GET /:id/stats *)

Module MarketsRoute.
Import AmmEngine Db.

Record MarketStats : Type := mkMarketStats {
  traders : nat;
  volume : R;
  stat_transactions : nat;
  position_holders : nat
}.

Inductive StatsResponse : Type :=
  | StatsJson (stats : MarketStats)
  | StatsStatus (code : nat) (error message : string).

Definition getStats (id : string) (s : Store) : StatsResponse :=
  match selectMarket id s with
  | None => StatsStatus 404 "NotFound" "Market not found"
  | Some _ =>
      StatsJson
        (mkMarketStats (countTraders id s) (selectVolume id s)
           (countTransactions id s) (countPositionHolders id s))
  end.

End MarketsRoute.

(** ** routes/resolutions.ts: GET /:marketId *)

Module ResolutionProofRoute.
Import AmmEngine Db.

(** The joined row: r.* with the criteria and closing time of the market. *)
Record ResolutionProof : Type := mkResolutionProof {
  proof_row : ResolutionRow;
  proof_resolution_criteria : ResolutionCriteria;
  proof_closes_at : string
}.

Inductive ProofResponse : Type :=
  | ProofJson (proof : ResolutionProof)
  | ProofStatus (code : nat) (error message : string).

(** SELECT r.*, ... FROM resolutions r JOIN markets m ON r.market_id = m.id
    WHERE r.market_id = ?  (.get) *)
Definition selectProof (marketId : string) (s : Store)
    : option ResolutionProof :=
  match find (fun r => String.eqb (r_market_id r) marketId) (resolutions s),
        selectMarket marketId s with
  | Some r, Some m =>
      Some (mkResolutionProof r (resolution_criteria m) (closes_at m))
  | _, _ => None
  end.

Definition getResolution (marketId : string) (s : Store) : ProofResponse :=
  match selectProof marketId s with
  | None => ProofStatus 404 "NotFound" "Resolution not found for this market"
  | Some resolution => ProofJson resolution
  end.

End ResolutionProofRoute.

(** ** checkAndResolveMarkets and jobs/resolver.ts: the scheduler tick

    Both copies of resolutionService.ts have the same loop; each uses its own
    [getMarketsForResolution] and [resolveMarket]. *)

Module ResolverJob.
Import AmmEngine Db DataSourceService ResolutionCommon Invariants.

Definition getMarketsForResolutionOf (copy : ResolverCopy)
    : string -> Store -> list MarketRow :=
  match copy with
  | WithFallback => ResolutionService.getMarketsForResolution
  | WithoutFallback => ResolutionServiceNoFallback.getMarketsForResolution
  end.

(** The [for (const market of dueMarkets)] loop.  [draw k] is the
    identifier and the clock reading that the k-th call of [resolveMarket]
    consumes. *)
Fixpoint resolveEach `{DataFetcher} (copy : ResolverCopy)
    (dueMarkets : list MarketRow) (k : nat) (draw : nat -> string * string)
    : M unit :=
  match dueMarkets with
  | [] => ret tt
  | market :: rest =>
      fun s =>
        match resolveMarketOf copy (m_id market) None None (fst (draw k))
                (snd (draw k)) s with
        | (s', Returned _) => resolveEach copy rest (S k) draw s'
        | (s', Threw _) =>
            (markClosed (m_id market) ;; resolveEach copy rest (S k) draw) s'
        end
  end.

Definition checkAndResolveMarkets `{DataFetcher} (copy : ResolverCopy)
    (now : string) (draw : nat -> string * string) : M unit :=
  dueMarkets <- gets (getMarketsForResolutionOf copy now) ;;
  resolveEach copy dueMarkets 0 draw.

(** jobs/resolver.ts *)
Definition triggerResolutionCheck `{DataFetcher} (copy : ResolverCopy)
    (now : string) (draw : nat -> string * string) : M unit :=
  checkAndResolveMarkets copy now draw.

End ResolverJob.

(** ** Further invariants and scenarios *)

Module MoreInvariants.
Import AmmEngine Db TradingService DataSourceService ResolutionCommon Invariants.

(** markets.id is the PRIMARY KEY. *)
Definition markets_unique (s : Store) : Prop := NoDup (map m_id (markets s)).

(** positions.user_id REFERENCES users(id). *)
Definition owners_exist (s : Store) : Prop :=
  forall p, In p (positions s) -> selectUser (p_user_id p) s <> None.

(** The cash held by all users together. *)
Definition totalBalance (s : Store) : R :=
  fold_right (fun u total => balance u + total) 0 (users s).

(** The payout owed to a list of positions. *)
Definition totalShares (ps : list PositionRow) : R :=
  fold_right (fun p total => shares p * 1.0 + total) 0 ps.

(** The shares of one side of a market held in positions. *)
Definition sharesHeld (marketId : string) (side : PositionType) (s : Store)
    : R :=
  fold_right (fun p total => shares p + total) 0
    (getWinningPositions marketId side s).

(** The inventory column of one side of a market row. *)
Definition inventoryOf (side : PositionType) (m : MarketRow) : R :=
  match side with
  | YES => m_total_yes_shares m
  | NO => m_total_no_shares m
  end.

Definition otherSide (side : PositionType) : PositionType :=
  match side with YES => NO | NO => YES end.

(** The shares of a position that may be absent. *)
Definition sharesOf (p : option PositionRow) : R :=
  match p with Some p => shares p | None => 0 end.

(** The cost basis of a position that may be absent. *)
Definition costBasisOf (p : option PositionRow) : R :=
  match p with Some p => shares p * avg_price p | None => 0 end.



(** A trade request read as the quote request it extends. *)
Definition quoteOf (req : TradeRequest) : TradeQuoteRequest :=
  mkTradeQuoteRequest (marketId req) (positionType req) (amount req)
    (action req).

(** The sum of the amounts of a list of payouts. *)
Definition totalPayout (ps : list Payout) : R :=
  fold_right (fun p total => po_amount p + total) 0 ps.

(** A row-wise change of the markets table that keeps the ids, opens no
    market, touches a row only to take it out of the open state, and leaves
    no market with one of the ids [ids] open. *)
Definition settles (ids : list string) (f : MarketRow -> MarketRow) : Prop :=
  (forall m, m_id (f m) = m_id m) /\
  (forall m, f m = m \/ status (f m) <> open) /\
  (forall m, status m <> open -> status (f m) <> open) /\
  (forall m, In (m_id m) ids -> status (f m) <> open).

(** The row [markClosed] writes. *)
Definition closedMarket (id : string) (m : MarketRow) : MarketRow :=
  if String.eqb (m_id m) id
  then mkMarket (m_id m) (resolution_source m) (resolution_criteria m)
         (closes_at m) (resolved_at m) (outcome m) (m_total_yes_shares m)
         (m_total_no_shares m) (m_liquidity_pool m) closed
  else m.

(** A user C with a balance of 10, and market m1 with nothing traded. *)
Definition thinStore : Store :=
  mkStore [mkUser "C" 10] [Scenarios.marketM1] [] [] [] [].

(** A buy of YES on m1 by user C for the amount -5.  POST /buy hands this
    request to [executeBuyTrade] for a body whose amount is the text -5abc:
    the route's test [amount <= 0] reads it as NaN, for which the test is
    false, and [parseFloat] then reads it as -5. *)
Definition buyNegative : TradeRequest :=
  mkTradeRequest "m1" YES (-5) BUY "C".

End MoreInvariants.

(** * Properties of the pricing kernel *)

Section PricingFacts.
Import AmmEngine.

Lemma ln_le_sub1 (x : R) : 0 < x -> ln x <= x - 1.
Proof.
  intros Hx.
  destruct (Rle_or_lt (ln x) (x - 1)) as [H | H]; [exact H | exfalso].
  apply exp_increasing in H.
  rewrite exp_ln in H by exact Hx.
  pose proof (exp_ineq1_le (x - 1)). lra.
Qed.

Lemma ln_le_mono (x y : R) : 0 < x -> x <= y -> ln x <= ln y.
Proof.
  intros Hx [Hlt | ->]; [left; now apply ln_increasing | right; reflexivity].
Qed.


(** The log-sum-exp form computes b * ln (exp (qYes/b) + exp (qNo/b)). *)
Lemma lmsrCost_closed_form (qYes qNo b : R) :
  lmsrCost qYes qNo b = b * ln (exp (qYes / b) + exp (qNo / b)).
Proof.
  unfold lmsrCost.
  set (m := Rmax (qYes / b) (qNo / b)).
  assert (Hs : exp (qYes / b - m) + exp (qNo / b - m)
               = (exp (qYes / b) + exp (qNo / b)) * exp (- m)).
  { unfold Rminus. rewrite !exp_plus. ring. }
  cbv zeta. rewrite Hs, ln_mult, ln_exp.
  - ring.
  - pose proof (exp_pos (qYes / b)); pose proof (exp_pos (qNo / b)); lra.
  - apply exp_pos.
Qed.

Lemma lmsrCost_sym (qYes qNo b : R) : lmsrCost qYes qNo b = lmsrCost qNo qYes b.
Proof. rewrite !lmsrCost_closed_form. f_equal. f_equal. ring. Qed.

Lemma lmsrCost_mono_yes (y1 y2 n b : R) :
  0 < b -> y1 <= y2 -> lmsrCost y1 n b <= lmsrCost y2 n b.
Proof.
  intros Hb Hy. rewrite !lmsrCost_closed_form.
  apply Rmult_le_compat_l; [lra |].
  pose proof (exp_pos (y1 / b)); pose proof (exp_pos (n / b)).
  apply ln_le_mono; [lra |].
  apply Rplus_le_compat_r.
  destruct Hy as [Hlt | ->]; [left | right; reflexivity].
  apply exp_increasing. unfold Rdiv.
  apply Rmult_lt_compat_r; [now apply Rinv_0_lt_compat | exact Hlt].
Qed.

Lemma lmsrCost_lipschitz_yes (y1 y2 n b : R) :
  0 < b -> y1 <= y2 -> lmsrCost y2 n b - lmsrCost y1 n b <= y2 - y1.
Proof.
  intros Hb Hy. rewrite !lmsrCost_closed_form.
  pose proof (exp_pos (y1 / b)) as P1; pose proof (exp_pos (n / b)) as Pn.
  pose proof (exp_pos (y2 / b)) as P2.
  set (d := (y2 - y1) / b).
  assert (Hd : 0 <= d).
  { unfold d, Rdiv. apply Rmult_le_pos; [lra |].
    left; now apply Rinv_0_lt_compat. }
  assert (He : 1 <= exp d) by (pose proof (exp_ineq1_le d); lra).
  assert (Hy2 : exp (y2 / b) = exp d * exp (y1 / b)).
  { rewrite <- exp_plus. f_equal. unfold d. field. lra. }
  assert (Hle : ln (exp (y2 / b) + exp (n / b))
                <= d + ln (exp (y1 / b) + exp (n / b))).
  { rewrite <- (ln_exp d) at 1. rewrite <- ln_mult; [| apply exp_pos | lra].
    apply ln_le_mono; [lra |]. rewrite Hy2. nra. }
  assert (Hbd : b * d = y2 - y1) by (unfold d; field; lra).
  nra.
Qed.

Lemma newCostAt_zero (st : MarketState) (side : PositionType) :
  newCostAt st side 0
  = lmsrCost (total_yes_shares st) (total_no_shares st) (liquidity_pool st).
Proof.
  unfold newCostAt. destruct side; f_equal; ring.
Qed.

Lemma newCostAt_mono (st : MarketState) (side : PositionType) (x y : R) :
  0 < liquidity_pool st -> x <= y -> newCostAt st side x <= newCostAt st side y.
Proof.
  intros Hb Hxy. unfold newCostAt. destruct side.
  - apply lmsrCost_mono_yes; lra.
  - rewrite (lmsrCost_sym _ (_ + x)), (lmsrCost_sym _ (_ + y)).
    apply lmsrCost_mono_yes; lra.
Qed.

Lemma newCostAt_lipschitz (st : MarketState) (side : PositionType) (x y : R) :
  0 < liquidity_pool st -> x <= y ->
  newCostAt st side y - newCostAt st side x <= y - x.
Proof.
  intros Hb Hxy. unfold newCostAt. destruct side.
  - pose proof (lmsrCost_lipschitz_yes (total_yes_shares st + x)
                  (total_yes_shares st + y) (total_no_shares st) _ Hb). lra.
  - rewrite (lmsrCost_sym _ (_ + x)), (lmsrCost_sym _ (_ + y)).
    pose proof (lmsrCost_lipschitz_yes (total_no_shares st + x)
                  (total_no_shares st + y) (total_yes_shares st) _ Hb). lra.
Qed.

(** *** The bisection loop *)

Lemma bisect_first (f : R -> R) (t : R) (i : nat) (low high : R) :
  Rabs (f ((low + high) / 2) - t) < tolerance ->
  bisect f t (S i) low high = (low + high) / 2.
Proof.
  intros H. simpl. destruct (Rlt_dec _ _) as [_ | n]; [reflexivity | contradiction].
Qed.

Lemma bisect_strictly_inside (f : R -> R) (t : R) (i : nat) :
  forall low high, low < high ->
  low < bisect f t i low high < high.
Proof.
  induction i as [| i IH]; intros low high Hlh; simpl.
  - lra.
  - destruct (Rlt_dec _ _); [lra |].
    destruct (Rlt_dec _ _).
    + specialize (IH ((low + high) / 2) high). lra.
    + specialize (IH low ((low + high) / 2)). lra.
Qed.

Lemma bisect_range (f : R -> R) (t : R) (i : nat) :
  forall low high, low <= high ->
  low <= bisect f t i low high <= high.
Proof.
  induction i as [| i IH]; intros low high Hlh; simpl.
  - lra.
  - destruct (Rlt_dec _ _); [lra |].
    destruct (Rlt_dec _ _).
    + specialize (IH ((low + high) / 2) high). lra.
    + specialize (IH low ((low + high) / 2)). lra.
Qed.


(** Below the target likewise, when the interval brackets it. *)
Lemma bisect_lower (f : R -> R) (t : R)
    (Hlip : forall x y, x <= y -> f y - f x <= y - x) (i : nat) :
  forall low high, low <= high -> t <= f high ->
  t - f (bisect f t i low high) < tolerance \/
  t - f (bisect f t i low high) <= (high - low) / 2 ^ S i.
Proof.
  induction i as [| i IH]; intros low high Hlh Hhigh.
  - right. simpl. specialize (Hlip ((low + high) / 2) high). lra.
  - cbn [bisect]. cbv zeta.
    destruct (Rlt_dec _ _) as [Htol | _].
    + left. apply Rabs_def2 in Htol. lra.
    + assert (H2 : 0 < 2 ^ S i) by (apply pow_lt; lra).
      destruct (Rlt_dec _ _) as [Hlt | Hge].
      * destruct (IH ((low + high) / 2) high) as [H | H]; [lra | lra | now left |].
        right. replace ((high - low) / 2 ^ S (S i))
          with ((high - (low + high) / 2) / 2 ^ S i); [exact H |].
        simpl. field. simpl in H2. lra.
      * destruct (IH low ((low + high) / 2)) as [H | H]; [lra | lra | now left |].
        right. replace ((high - low) / 2 ^ S (S i))
          with (((low + high) / 2 - low) / 2 ^ S i); [exact H |].
        simpl. field. simpl in H2. lra.
Qed.

End PricingFacts.

(** ** Buy quotes and the round trip *)

Section QuoteFacts.
Import AmmEngine Scenarios.

Lemma pow2_101 : 10 ^ 30 < 2 ^ 101.
Proof.
  replace (2 ^ 101) with (2 * (2 ^ 10) ^ 10)
    by (rewrite <- pow_mult; change (10 * 10)%nat with 100%nat;
        change 101%nat with (S 100); simpl; ring).
  replace (10 ^ 30) with ((10 ^ 3) ^ 10)
    by (rewrite <- pow_mult; reflexivity).
  assert (H : (10 ^ 3) ^ 10 <= (2 ^ 10) ^ 10).
  { apply pow_incr. simpl. lra. }
  assert (0 < (10 ^ 3) ^ 10) by (apply pow_lt; simpl; lra).
  lra.
Qed.

Lemma remaining_interval_small (a : R) :
  0 < a -> a <= 10 ^ 25 -> (a * 10 - 0) / 2 ^ 101 < tolerance.
Proof.
  intros Ha Hle. pose proof pow2_101 as Hp.
  assert (H30 : 10 ^ 30 = 10 ^ 25 * 100000) by (simpl; ring).
  assert (Hpos : 0 < 2 ^ 101) by (apply pow_lt; lra).
  unfold tolerance.
  apply Rmult_lt_reg_r with (2 ^ 101); [exact Hpos |].
  unfold Rdiv. rewrite Rmult_assoc, Rinv_l by lra.
  lra.
Qed.

(** With a positive amount the quote is a positive number of shares, below
    the initial upper bound. *)
Lemma calculateSharesForAmount_pos (st : MarketState) (side : PositionType)
    (a : R) :
  0 < a -> 0 < calculateSharesForAmount st side a < a * 10.
Proof.
  intros Ha. unfold calculateSharesForAmount.
  apply bisect_strictly_inside. lra.
Qed.

Lemma calculateSharesForAmount_nonneg (st : MarketState)
    (side : PositionType) (a : R) :
  0 <= a -> 0 <= calculateSharesForAmount st side a.
Proof.
  intros Ha. unfold calculateSharesForAmount.
  apply bisect_range. lra.
Qed.

(** With amount 0 the first midpoint is 0 and meets the tolerance. *)
Lemma calculateSharesForAmount_zero (st : MarketState) (side : PositionType) :
  calculateSharesForAmount st side 0 = 0.
Proof.
  unfold calculateSharesForAmount. rewrite bisect_first.
  - lra.
  - replace ((0 + 0 * 10) / 2) with 0 by lra.
    rewrite newCostAt_zero.
    replace (_ - _) with 0 by lra.
    rewrite Rabs_R0. unfold tolerance. lra.
Qed.


Lemma quote_cost_lower (st : MarketState) (side : PositionType) (a : R) :
  0 < liquidity_pool st -> 0 < a -> a <= 10 ^ 25 ->
  a <= newCostAt st side (a * 10)
       - lmsrCost (total_yes_shares st) (total_no_shares st)
           (liquidity_pool st) ->
  a - tolerance
  < newCostAt st side (calculateSharesForAmount st side a)
    - lmsrCost (total_yes_shares st) (total_no_shares st) (liquidity_pool st).
Proof.
  intros Hb Ha Hle Hbr. unfold calculateSharesForAmount.
  set (t := lmsrCost _ _ _ + a).
  pose proof (remaining_interval_small a Ha Hle) as Hsmall.
  destruct (bisect_lower (newCostAt st side) t
              (fun x y => newCostAt_lipschitz st side x y Hb) 100 0 (a * 10))
    as [H | H].
  - lra.
  - unfold t. lra.
  - unfold t in *. lra.
  - unfold t in *. lra.
Qed.


End QuoteFacts.

Section QuoteClaims.
Import AmmEngine Scenarios.

Lemma exp_0_over (b : R) : exp (0 / b) = 1.
Proof. replace (0 / b) with 0 by (unfold Rdiv; ring). apply exp_0. Qed.






Lemma exp_10_ge : 100 <= exp 10.
Proof.
  replace 10 with (5 / 2 + 5 / 2 + (5 / 2 + 5 / 2)) by lra.
  rewrite !exp_plus.
  pose proof (exp_ineq1_le (5 / 2)) as H.
  assert (H2 : 49 / 4 <= exp (5 / 2) * exp (5 / 2)) by nra.
  nra.
Qed.

(** On the lopsided market no number of YES shares up to 100 costs 2. *)
Lemma lopsidedMarket_cost_upper (s : R) :
  0 <= s <= 100 ->
  newCostAt lopsidedMarket YES s - lmsrCost 0 1000 100 < 2.
Proof.
  intros Hs.
  assert (Hb : 0 < liquidity_pool lopsidedMarket) by (simpl; lra).
  pose proof (newCostAt_mono lopsidedMarket YES s 100 Hb ltac:(lra)) as Hm.
  enough (newCostAt lopsidedMarket YES 100 - lmsrCost 0 1000 100 < 2) by lra.
  unfold newCostAt, lopsidedMarket; simpl.
  rewrite !lmsrCost_closed_form, exp_0_over.
  replace ((0 + 100) / 100) with 1 by lra.
  replace (1000 / 100) with 10 by lra.
  pose proof exp_10_ge as HE. pose proof exp_le_3 as H3.
  pose proof (exp_pos 1) as H1.
  set (E := exp 10) in *. set (e := exp 1) in *.
  assert (Hq : 0 < (e + E) / (1 + E)).
  { apply Rdiv_lt_0_compat; lra. }
  pose proof (ln_le_sub1 _ Hq) as Hln.
  assert (Hsplit : ln ((e + E) / (1 + E)) = ln (e + E) - ln (1 + E)).
  { unfold Rdiv. rewrite ln_mult, ln_Rinv; try lra.
    apply Rinv_0_lt_compat; lra. }
  assert (Hfrac : (e + E) / (1 + E) - 1 = (e - 1) / (1 + E)) by (field; lra).
  assert (Hsmall : (e - 1) / (1 + E) <= 2 / 101).
  { apply Rmult_le_reg_r with (1 + E); [lra |].
    replace ((e - 1) / (1 + E) * (1 + E)) with (e - 1) by (field; lra).
    nra. }
  lra.
Qed.

Lemma q_shares_getBuyQuote (st : MarketState) (side : PositionType) (a : R) :
  q_shares (getBuyQuote st side a) = calculateSharesForAmount st side a.
Proof. reflexivity. Qed.

Lemma q_totalCost_getBuyQuote (st : MarketState) (side : PositionType)
    (a : R) :
  q_totalCost (getBuyQuote st side a) = a.
Proof.
  unfold getBuyQuote. cbv zeta.
  generalize (calculateSharesForAmount st side a). intros sharesReceived.
  reflexivity.
Qed.

(** C3, the code at the failing input.  On the market with 1000 NO shares
    outstanding and b = 100 the buy quote of YES for the amount 10 charges
    10 for at most 10 * 10 shares, and that many shares cost less than 2:
    the upper end of the search is never raised, no share count below it
    costs 10, and the cost of the shares returned is not within 0.0001 of
    the amount. *)
Theorem buy_quote_misses_the_amount :
  let q := getBuyQuote lopsidedMarket YES 10 in
  q_totalCost q = 10 /\
  0 <= q_shares q <= 10 * 10 /\
  newCostAt lopsidedMarket YES (q_shares q) - lmsrCost 0 1000 100 < 2 /\
  ~ Rabs (newCostAt lopsidedMarket YES (q_shares q) - lmsrCost 0 1000 100
          - 10) < 0.0001.
Proof.
  cbv zeta. rewrite q_totalCost_getBuyQuote, q_shares_getBuyQuote.
  assert (Hr : 0 <= calculateSharesForAmount lopsidedMarket YES 10 <= 100).
  { unfold calculateSharesForAmount.
    pose proof (bisect_range (newCostAt lopsidedMarket YES)
                  (lmsrCost (total_yes_shares lopsidedMarket)
                     (total_no_shares lopsidedMarket)
                     (liquidity_pool lopsidedMarket) + 10) 100 0 (10 * 10)
                  ltac:(lra)) as H.
    lra. }
  pose proof (lopsidedMarket_cost_upper _ Hr) as Hc.
  split; [reflexivity |]. split; [lra |]. split; [exact Hc |].
  intros Habs. apply Rabs_def2 in Habs. lra.
Qed.

End QuoteClaims.

(** * Properties of the store operations *)

Section StoreFacts.
Import AmmEngine Db TradingService DataSourceService ResolutionCommon Invariants.

(** *** Row lookups under row updates *)

Lemma find_user_map (f : UserRow -> UserRow) (id : string) (us : list UserRow) :
  (forall u, u_id (f u) = u_id u) ->
  find (fun u => String.eqb (u_id u) id) (map f us)
  = option_map f (find (fun u => String.eqb (u_id u) id) us).
Proof.
  intros Hf. induction us as [| u us IH]; simpl; [reflexivity |].
  rewrite Hf. destruct (String.eqb (u_id u) id); [reflexivity | exact IH].
Qed.

Lemma find_market_map (f : MarketRow -> MarketRow) (id : string)
    (ms : list MarketRow) :
  (forall m, m_id (f m) = m_id m) ->
  find (fun m => String.eqb (m_id m) id) (map f ms)
  = option_map f (find (fun m => String.eqb (m_id m) id) ms).
Proof.
  intros Hf. induction ms as [| m ms IH]; simpl; [reflexivity |].
  rewrite Hf. destruct (String.eqb (m_id m) id); [reflexivity | exact IH].
Qed.

Lemma map_ids_update (f : UserRow -> UserRow) (us : list UserRow) :
  (forall u, u_id (f u) = u_id u) -> map u_id (map f us) = map u_id us.
Proof.
  intros Hf. rewrite map_map. apply map_ext. exact Hf.
Qed.

Lemma find_unique_user (id : string) (us : list UserRow) (u0 u : UserRow) :
  NoDup (map u_id us) ->
  find (fun u => String.eqb (u_id u) id) us = Some u0 ->
  In u us -> u_id u = id -> u = u0.
Proof.
  induction us as [| v us IH]; simpl; intros Hnd Hfind Hin Hid; [contradiction |].
  inversion Hnd as [| ? ? Hnotin Hnd']; subst.
  destruct (String.eqb (u_id v) (u_id u)) eqn:E.
  - injection Hfind as <-. destruct Hin as [-> | Hin]; [reflexivity |].
    apply String.eqb_eq in E. exfalso. apply Hnotin. rewrite E.
    now apply in_map.
  - destruct Hin as [-> | Hin].
    + rewrite String.eqb_refl in E. discriminate.
    + now apply IH.
Qed.

(** *** Crediting a list of winning positions *)

Lemma creditUser_id (a : R) (id : string) (u : UserRow) :
  u_id (creditUser a id u) = u_id u.
Proof. unfold creditUser. destruct (String.eqb _ _); reflexivity. Qed.

Lemma payWinners_spec (ws : list PositionRow) :
  forall s,
  payWinners ws s
  = (mkStore (creditAll ws (users s)) (markets s) (positions s)
       (transactions s) (price_history s) (resolutions s),
     Returned (map payoutOf ws)).
Proof.
  induction ws as [| p ws IH]; intros s.
  - destruct s; reflexivity.
  - simpl. unfold bind at 1. unfold creditBalance, modify.
    unfold bind at 1. rewrite IH. reflexivity.
Qed.





Lemma creditAll_ids (ws : list PositionRow) :
  forall us, map u_id (creditAll ws us) = map u_id us.
Proof.
  induction ws as [| p ws IH]; intros us; simpl; [reflexivity |].
  rewrite IH. apply map_ids_update, creditUser_id.
Qed.

Lemma creditAll_nonneg (ws : list PositionRow) :
  forall us,
  (forall p, In p ws -> 0 <= shares p) ->
  (forall u, In u us -> 0 <= balance u) ->
  forall u, In u (creditAll ws us) -> 0 <= balance u.
Proof.
  induction ws as [| p ws IH]; intros us Hws Hus u Hu; simpl in Hu.
  - now apply Hus.
  - apply (IH (map (creditUser (shares p * 1.0) (p_user_id p)) us)); trivial.
    + intros q Hq. apply Hws. now right.
    + intros v Hv. apply in_map_iff in Hv. destruct Hv as (w & <- & Hw).
      specialize (Hus w Hw). specialize (Hws p (or_introl eq_refl)).
      unfold creditUser. destruct (String.eqb _ _); simpl; lra.
Qed.


End StoreFacts.

(** ** The settlement transaction *)

Section SettlementFacts.
Import AmmEngine Db TradingService DataSourceService ResolutionCommon Invariants.

Lemma find_resolution_appended (rid : string) (rs : list ResolutionRow)
    (row : ResolutionRow) :
  r_id row = rid ->
  exists r0, find (fun r => String.eqb (r_id r) rid) (rs ++ [row]) = Some r0.
Proof.
  intros Hid. induction rs as [| r rs IH]; simpl.
  - rewrite Hid, String.eqb_refl. now exists row.
  - destruct (String.eqb (r_id r) rid); [now exists r | exact IH].
Qed.

(** [settle] either meets the UNIQUE constraint and leaves the store as it
    was, or commits [settledStore] and returns. *)
Lemma settle_spec (market : MarketRow) (marketId : string) (d : Determination)
    (resolvedBy resolutionId now : string) (s : Store) :
  (existsb (fun r => String.eqb (r_market_id r) marketId) (resolutions s) = true
   /\ settle market marketId d resolvedBy resolutionId now s
      = (s, Threw "UNIQUE constraint failed: resolutions.market_id"))
  \/
  (existsb (fun r => String.eqb (r_market_id r) marketId) (resolutions s) = false
   /\ exists r0,
      selectResolution resolutionId
        (settledStore s market marketId d resolvedBy resolutionId now)
      = Some r0
      /\ settle market marketId d resolvedBy resolutionId now s
         = (settledStore s market marketId d resolvedBy resolutionId now,
            Returned
              (mkResolutionResult marketId (d_outcome d) r0
                 (map payoutOf
                    (getWinningPositions marketId (d_outcome d) s))))).
Proof.
  destruct (existsb (fun r => String.eqb (r_market_id r) marketId)
              (resolutions s)) eqn:E; [left | right]; split; trivial.
  - unfold settle, bind, transaction, executeResolution, bind,
      insertResolution. simpl. rewrite E. reflexivity.
  - destruct (find_resolution_appended resolutionId (resolutions s)
                (resolutionRowOf market marketId d resolvedBy resolutionId)
                eq_refl) as [r0 Hr0].
    exists r0. split; [exact Hr0 |].
    unfold settle, bind, transaction, executeResolution, bind,
      insertResolution. simpl. rewrite E.
    unfold markResolved, modify, gets. rewrite payWinners_spec. simpl.
    unfold selectResolution, settledStore in Hr0. simpl in Hr0.
    unfold resolutionRowOf in Hr0.
    unfold selectResolution at 1. simpl. rewrite Hr0. reflexivity.
Qed.

Lemma selectMarket_settled (s : Store) (market m : MarketRow)
    (marketId : string) (d : Determination) (by_ rid now : string) :
  selectMarket marketId s = Some m ->
  selectMarket marketId (settledStore s market marketId d by_ rid now)
  = Some (mkMarket (m_id m) (resolution_source m) (resolution_criteria m)
            (closes_at m) (Some now) (Some (d_outcome d))
            (m_total_yes_shares m) (m_total_no_shares m)
            (m_liquidity_pool m) resolved).
Proof.
  unfold selectMarket, settledStore. simpl. intros Hm.
  rewrite find_market_map.
  - rewrite Hm. simpl. apply find_some in Hm. destruct Hm as [_ Hm].
    unfold resolvedMarket. rewrite Hm. reflexivity.
  - intros m0. unfold resolvedMarket. destruct (String.eqb _ _); reflexivity.
Qed.

Lemma selectMarket_settled_other (s : Store) (market : MarketRow)
    (marketId other : string) (d : Determination) (by_ rid now : string) :
  other <> marketId ->
  selectMarket other (settledStore s market marketId d by_ rid now)
  = selectMarket other s.
Proof.
  unfold selectMarket, settledStore. simpl. intros Hne.
  rewrite find_market_map.
  - destruct (find _ (markets s)) as [m |] eqn:Hm; simpl; [| reflexivity].
    apply find_some in Hm. destruct Hm as [_ Hm]. apply String.eqb_eq in Hm.
    unfold resolvedMarket.
    destruct (String.eqb (m_id m) marketId) eqn:E; [| reflexivity].
    apply String.eqb_eq in E. congruence.
  - intros m0. unfold resolvedMarket. destruct (String.eqb _ _); reflexivity.
Qed.

(** What a call of either copy of [resolveMarket] amounts to. *)
Lemma resolveMarket_cases `{DataFetcher} (copy : ResolverCopy)
    (marketId : string) (manualOutcome : option PositionType)
    (resolvedBy : option string) (rid now : string) (s : Store) :
  (selectMarket marketId s = None /\
   resolveMarketOf copy marketId manualOutcome resolvedBy rid now s
   = (s, Threw "Market not found"))
  \/
  (exists market, selectMarket marketId s = Some market /\
   status market = resolved /\
   resolveMarketOf copy marketId manualOutcome resolvedBy rid now s
   = (s, Threw "Market is already resolved"))
  \/
  (exists market message, selectMarket marketId s = Some market /\
   status market <> resolved /\ copy = WithoutFallback /\
   manualOutcome = None /\ consultSource market = Threw message /\
   resolveMarketOf copy marketId manualOutcome resolvedBy rid now s
   = (s, Threw message))
  \/
  (exists market d, selectMarket marketId s = Some market /\
   status market <> resolved /\
   (forall o, manualOutcome = Some o -> d = manualDetermination o) /\
   (copy = WithFallback -> d = ResolutionService.determine market manualOutcome) /\
   (copy = WithoutFallback -> manualOutcome = None ->
    consultSource market = Returned d) /\
   resolveMarketOf copy marketId manualOutcome resolvedBy rid now s
   = settle market marketId d (resolvedByOrAuto resolvedBy) rid now s).
Proof.
  destruct (selectMarket marketId s) as [market |] eqn:Hm.
  2:{ left. split; [reflexivity |].
      destruct copy; unfold resolveMarketOf, ResolutionService.resolveMarket,
        ResolutionServiceNoFallback.resolveMarket, bind, gets;
        rewrite Hm; reflexivity. }
  right.
  destruct (MarketStatus_eqb (status market) resolved) eqn:Hres.
  { left. exists market. split; [reflexivity |].
    split; [destruct (status market); (reflexivity || discriminate) |].
    destruct copy; unfold resolveMarketOf, ResolutionService.resolveMarket,
      ResolutionServiceNoFallback.resolveMarket, bind, gets;
      rewrite Hm, Hres; reflexivity. }
  assert (Hnr : status market <> resolved).
  { intros E. rewrite E in Hres. discriminate. }
  right.
  destruct copy.
  - right. exists market, (ResolutionService.determine market manualOutcome).
    split; [reflexivity |]. split; [exact Hnr |].
    split; [intros o ->; reflexivity |].
    split; [reflexivity |]. split; [discriminate |].
    unfold resolveMarketOf, ResolutionService.resolveMarket, bind, gets.
    rewrite Hm, Hres. reflexivity.
  - destruct manualOutcome as [o |].
    + right. exists market, (manualDetermination o).
      split; [reflexivity |]. split; [exact Hnr |].
      split; [intros o' [= ->]; reflexivity |].
      split; [discriminate |]. split; [discriminate |].
      unfold resolveMarketOf, ResolutionServiceNoFallback.resolveMarket, bind,
        gets.
      rewrite Hm, Hres. reflexivity.
    + destruct (consultSource market) as [message | d] eqn:Hc.
      * left. exists market, message.
        split; [reflexivity |]. split; [exact Hnr |].
        split; [reflexivity |]. split; [reflexivity |].
        split; [exact Hc |].
        unfold resolveMarketOf, ResolutionServiceNoFallback.resolveMarket,
          bind, gets.
        rewrite Hm, Hres, Hc. reflexivity.
      * right. exists market, d.
        split; [reflexivity |]. split; [exact Hnr |].
        split; [discriminate |]. split; [discriminate |].
        split; [intros _ _; exact Hc |].
        unfold resolveMarketOf, ResolutionServiceNoFallback.resolveMarket,
          bind, gets.
        rewrite Hm, Hres, Hc. reflexivity.
Qed.

End SettlementFacts.

(** ** Resolution *)

Section ResolutionClaims.
Import AmmEngine Db TradingService DataSourceService ResolutionCommon Invariants
  Scenarios.

Lemma balanceOf_settled (s : Store) (market : MarketRow) (marketId : string)
    (d : Determination) (by_ rid now id : string) :
  balanceOf id (settledStore s market marketId d by_ rid now)
  = findBalance id
      (creditAll (getWinningPositions marketId (d_outcome d) s) (users s)).
Proof. reflexivity. Qed.


Lemma payoutStore_positions_unique : positions_unique payoutStore.
Proof.
  unfold positions_unique. simpl.
  constructor; [| constructor; [| constructor]]; simpl.
  - intros [E | []]. discriminate.
  - intros [].
Qed.


(** C4.  On a market whose status is resolved, both copies of
    [resolveMarket] throw 'Market is already resolved' whatever the other
    arguments are, and the store (balances and resolution rows included) is
    the one the call started from. *)
Theorem resolved_market_is_refused `{DataFetcher} (copy : ResolverCopy)
    (marketId : string) (manualOutcome : option PositionType)
    (resolvedBy : option string) (rid now : string) (s : Store)
    (market : MarketRow) :
  selectMarket marketId s = Some market ->
  status market = resolved ->
  resolveMarketOf copy marketId manualOutcome resolvedBy rid now s
  = (s, Threw "Market is already resolved").
Proof.
  intros Hm Hst.
  destruct copy; unfold resolveMarketOf, ResolutionService.resolveMarket,
    ResolutionServiceNoFallback.resolveMarket, bind, gets;
    rewrite Hm, Hst; reflexivity.
Qed.

(** A market that either copy has settled is marked resolved. *)
Lemma settled_market_is_resolved `{DataFetcher} (copy : ResolverCopy)
    (marketId : string) (manualOutcome : option PositionType)
    (resolvedBy : option string) (rid now : string) (s s' : Store)
    (res : ResolutionResult) :
  resolveMarketOf copy marketId manualOutcome resolvedBy rid now s
  = (s', Returned res) ->
  exists m, selectMarket marketId s' = Some m /\ status m = resolved.
Proof.
  intros Hrun.
  destruct (resolveMarket_cases copy marketId manualOutcome resolvedBy rid now s)
    as [[_ E] | [(m & _ & _ & E) | [(m & msg & _ & _ & _ & _ & _ & E)
       | (market & d & Hm & _ & _ & _ & _ & E)]]];
    rewrite E in Hrun; try discriminate.
  destruct (settle_spec market marketId d (resolvedByOrAuto resolvedBy) rid
              now s) as [[_ E'] | [_ (r0 & _ & E')]];
    rewrite E' in Hrun; [discriminate |].
  injection Hrun as <- _.
  eexists. split; [apply selectMarket_settled; exact Hm | reflexivity].
Qed.

(** After m1 has been resolved as YES, a second call (here asking for NO)
    is refused and pays nobody. *)
Lemma resolved_market_is_refused_witness :
  ResolutionService.resolveMarket (H := failingFetcher) "m1" (Some YES)
    None "r1" today payoutStore
  = (resolvedStore,
     Returned (ResolutionCommon.mkResolutionResult "m1" YES
                 (resolutionRowOf marketM1 "m1" (manualDetermination YES)
                    "auto" "r1")
                 [payoutOf positionA])) /\
  ResolutionService.resolveMarket (H := failingFetcher) "m1" (Some NO)
    None "r2" today resolvedStore
  = (resolvedStore, Threw "Market is already resolved").
Proof.
  split; [reflexivity |].
  apply (resolved_market_is_refused (H := failingFetcher) WithFallback "m1"
           (Some NO) None "r2" today resolvedStore
           (resolvedMarket YES "m1" today marketM1)); reflexivity.
Defined.

Lemma no_resolution_row (s : Store) (marketId : string) (market : MarketRow) :
  resolutions_consistent s ->
  selectMarket marketId s = Some market ->
  status market <> resolved ->
  existsb (fun r => String.eqb (r_market_id r) marketId) (resolutions s)
  = false.
Proof.
  intros Hc Hm Hst.
  destruct (existsb _ _) eqn:E; [exfalso | reflexivity].
  apply existsb_exists in E. destruct E as (r & Hin & Heq).
  apply String.eqb_eq in Heq.
  destruct (Hc r Hin) as (m & Hm' & Hres).
  rewrite Heq, Hm in Hm'. injection Hm' as <-. contradiction.
Qed.





Lemma sourceFailed_throws `{DataFetcher} (market : MarketRow)
    (message : string) :
  sourceFailed market message -> consultSource market = Threw message.
Proof.
  unfold sourceFailed, consultSource.
  intros [[Hs ->] | (Hs & He & ->)]; rewrite Hs; simpl; [reflexivity |].
  rewrite He. reflexivity.
Qed.

(** C7, counterexample.  With a source that answers HTTP 500, the copy of
    the resolver in part_003 does not fall back: the call throws the fetch
    error and no resolution row is written. *)
Lemma source_failure_counterexample :
  ResolutionServiceNoFallback.resolveMarket (H := failingFetcher) "m1" None
    None "r1" today payoutStore
  = (payoutStore,
     Threw "Failed to fetch data: Request failed with status code 500") /\
  resolutions payoutStore = [].
Proof. split; reflexivity. Qed.

(** C7, as amended.  For a market that exists, is not resolved, has a source
    other than 'manual' and no resolution row, and whose fetch fails (the
    source reports an error, or no value is found at criteria.path), called
    without a manual outcome:
    - the copy of the resolver with the [catch] block returns; the outcome
      is YES exactly when getYesPrice(market) > 0.5; the appended resolution
      row carries that outcome and the blob
      {fallback: true, error: message, probability_based: true, yes_price,
       outcome};
    - the other copy throws the message and leaves the store as it was. *)
Theorem source_failure_falls_back_or_throws `{DataFetcher}
    (marketId : string) (resolvedBy : option string) (rid now : string)
    (s : Store) (market : MarketRow) (message : string) :
  selectMarket marketId s = Some market ->
  status market <> resolved ->
  resolution_source market <> "manual"%string ->
  existsb (fun r => String.eqb (r_market_id r) marketId) (resolutions s)
  = false ->
  sourceFailed market message ->
  (exists s' res row,
     ResolutionService.resolveMarket marketId None resolvedBy rid now s
     = (s', Returned res) /\
     (rr_outcome res = YES <-> getYesPrice (marketState market) > 0.5) /\
     resolutions s' = resolutions s ++ [row] /\
     r_market_id row = marketId /\
     r_outcome row = rr_outcome res /\
     source_response row
     = fallbackBlob (getYesPrice (marketState market)) (rr_outcome res)
         message) /\
  ResolutionServiceNoFallback.resolveMarket marketId None resolvedBy rid now s
  = (s, Threw message).
Proof.
  intros Hm Hst Hsrc Hnone Hfail.
  pose proof (sourceFailed_throws market message Hfail) as Hc.
  assert (Hres : MarketStatus_eqb (status market) resolved = false).
  { destruct (status market); try reflexivity. contradiction. }
  assert (Hman : String.eqb (resolution_source market) "manual" = false).
  { apply String.eqb_neq. exact Hsrc. }
  split.
  - destruct (settle_spec market marketId
                (ResolutionService.fallbackDetermination market message)
                (resolvedByOrAuto resolvedBy) rid now s)
      as [[E' _] | [_ (r0 & _ & E')]]; [congruence |].
    eexists; eexists; eexists.
    split.
    { unfold ResolutionService.resolveMarket, bind, gets.
      rewrite Hm, Hres. unfold ResolutionService.determine.
      rewrite Hman, Hc. exact E'. }
    cbn [rr_outcome].
    split.
    { unfold ResolutionService.fallbackDetermination. cbn [d_outcome].
      destruct (Rgt_dec _ _) as [Hgt | Hle]; split; trivial;
        [discriminate | contradiction]. }
    split; [reflexivity |].
    split; [reflexivity |].
    split; reflexivity.
  - unfold ResolutionServiceNoFallback.resolveMarket, bind, gets.
    rewrite Hm, Hres, Hc. reflexivity.
Qed.

Lemma source_failure_falls_back_or_throws_witness :
  exists s' res row,
    ResolutionService.resolveMarket (H := failingFetcher) "m1" None None
      "r1" today payoutStore = (s', Returned res) /\
    resolutions s' = [row] /\
    source_response row
    = fallbackBlob (getYesPrice (marketState marketM1)) (rr_outcome res)
        "Failed to fetch data: Request failed with status code 500".
Proof.
  destruct (source_failure_falls_back_or_throws (H := failingFetcher) "m1"
              None "r1" today payoutStore marketM1
              "Failed to fetch data: Request failed with status code 500"
              eq_refl ltac:(discriminate) ltac:(discriminate) eq_refl
              (or_introl (conj eq_refl eq_refl)))
    as [(s' & res & row & E & _ & Hrows & _ & _ & Hblob) _].
  exists s', res, row. repeat split; assumption.
Defined.

(** *** Markets due for resolution *)



End ResolutionClaims.

(** ** Trading *)

Section TradingFacts.
Import AmmEngine Db TradingService DataSourceService ResolutionCommon Invariants
  Scenarios.

Lemma MarketStatus_eqb_open (st : MarketStatus) :
  MarketStatus_eqb st open = true <-> st = open.
Proof. destruct st; simpl; split; (reflexivity || discriminate). Qed.

Lemma debitUser_id (a : R) (id : string) (u : UserRow) :
  u_id (debitUser a id u) = u_id u.
Proof. unfold debitUser. destruct (String.eqb _ _); reflexivity. Qed.

Lemma selectUser_debited (a : R) (id : string) (us : list UserRow)
    (u : UserRow) :
  find (fun u => String.eqb (u_id u) id) us = Some u ->
  find (fun u => String.eqb (u_id u) id) (map (debitUser a id) us)
  = Some (mkUser (u_id u) (balance u - a)).
Proof.
  intros Hu. rewrite find_user_map by apply debitUser_id. rewrite Hu. simpl.
  apply find_some in Hu. destruct Hu as [_ Hu].
  unfold debitUser. rewrite Hu. reflexivity.
Qed.

(** What a call of [executeBuyTrade] amounts to. *)
Lemma executeBuyTrade_cases (req : TradeRequest)
    (transactionId positionId priceHistoryId : string) (s : Store) :
  (selectMarket (marketId req) s = None /\
   executeBuyTrade req transactionId positionId priceHistoryId s
   = (s, Threw "Market not found"))
  \/
  (exists market, selectMarket (marketId req) s = Some market /\
   status market <> open /\
   executeBuyTrade req transactionId positionId priceHistoryId s
   = (s, Threw "Market is not open for trading"))
  \/
  (exists market, selectMarket (marketId req) s = Some market /\
   status market = open /\ selectUser (userId req) s = None /\
   executeBuyTrade req transactionId positionId priceHistoryId s
   = (s, Threw "User not found"))
  \/
  (exists market user, selectMarket (marketId req) s = Some market /\
   status market = open /\ selectUser (userId req) s = Some user /\
   balance user < amount req /\
   executeBuyTrade req transactionId positionId priceHistoryId s
   = (s, Threw "Insufficient balance"))
  \/
  (exists market user position, selectMarket (marketId req) s = Some market /\
   status market = open /\ selectUser (userId req) s = Some user /\
   amount req <= balance user /\
   executeBuyTrade req transactionId positionId priceHistoryId s
   = (boughtStore req transactionId positionId priceHistoryId market s,
      Returned
        (mkTradeResponse true transactionId
           (t_shares (executeBuy (marketState market) (positionType req)
                        (amount req)))
           (t_avgPricePerShare (executeBuy (marketState market)
                                  (positionType req) (amount req)))
           (amount req) (balance user - amount req) position))).
Proof.
  unfold executeBuyTrade, getMarketState, bind, gets.
  destruct (selectMarket (marketId req) s) as [market |] eqn:Hm;
    [right | left; split; reflexivity].
  unfold ret. cbn [fst snd].
  destruct (MarketStatus_eqb (status market) open) eqn:Hst; cbn [negb].
  2:{ left. exists market. split; [reflexivity |]. split; [| reflexivity].
      intros E. rewrite E in Hst. discriminate. }
  apply MarketStatus_eqb_open in Hst. right.
  destruct (selectUser (userId req) s) as [user |] eqn:Hu.
  2:{ left. exists market. repeat split; trivial. }
  right.
  destruct (Rlt_dec (balance user) (amount req)) as [Hlt | Hge].
  { left. exists market, user. repeat split; trivial. }
  right. exists market, user.
  unfold boughtStore, boughtPositions.
  change (liquidity_pool (marketState market)) with (m_liquidity_pool market).
  remember (executeBuy (marketState market) (positionType req) (amount req))
    as result eqn:Hresult. clear Hresult.
  unfold transaction, bind, updateMarketShares, debitBalance, modify, gets.
  cbn [positions users markets transactions price_history resolutions].
  unfold getPosition.
  cbn [positions users markets transactions price_history resolutions].
  pose proof (selectUser_debited (amount req) (userId req) (users s) user Hu)
    as Hdeb.
  unfold debitUser in Hdeb.
  destruct (find _ (positions s)) as [existing |] eqn:Hpos.
  - eexists. split; [reflexivity |]. split; [exact Hst |].
    split; [reflexivity |]. split; [lra |].
    unfold updatePositionSharesAvg, insertTransaction, insertPriceHistory,
      modify, bind, ret.
    cbn [positions users markets transactions price_history resolutions].
    unfold selectUser.
    cbn [positions users markets transactions price_history resolutions].
    rewrite Hdeb. reflexivity.
  - eexists. split; [reflexivity |]. split; [exact Hst |].
    split; [reflexivity |]. split; [lra |].
    unfold insertPosition, insertTransaction, insertPriceHistory,
      modify, bind, ret.
    cbn [positions users markets transactions price_history resolutions].
    unfold selectUser.
    cbn [positions users markets transactions price_history resolutions].
    rewrite Hdeb. reflexivity.
Qed.

(** What a call of [executeSellTrade] amounts to.  In the last case the
    transaction has committed [soldStore]; the call returns unless the
    seller has no row in the users table. *)
Lemma executeSellTrade_cases (req : TradeRequest)
    (transactionId priceHistoryId : string) (s : Store) :
  (selectMarket (marketId req) s = None /\
   executeSellTrade req transactionId priceHistoryId s
   = (s, Threw "Market not found"))
  \/
  (exists market, selectMarket (marketId req) s = Some market /\
   status market <> open /\
   executeSellTrade req transactionId priceHistoryId s
   = (s, Threw "Market is not open for trading"))
  \/
  (exists market, selectMarket (marketId req) s = Some market /\
   status market = open /\
   (getPosition (userId req) (marketId req) (positionType req) s = None \/
    exists position,
      getPosition (userId req) (marketId req) (positionType req) s
      = Some position /\ shares position < amount req) /\
   executeSellTrade req transactionId priceHistoryId s
   = (s, Threw "Insufficient shares to sell"))
  \/
  (exists market position,
   selectMarket (marketId req) s = Some market /\
   status market = open /\
   getPosition (userId req) (marketId req) (positionType req) s
   = Some position /\
   amount req <= shares position /\
   let result := executeSell (marketState market) (positionType req)
                   (amount req) in
   let s' := soldStore req transactionId priceHistoryId market position s in
   executeSellTrade req transactionId priceHistoryId s
   = (s',
      match selectUser (userId req) s with
      | None => Threw TypeError_balance
      | Some user =>
          Returned
            (mkTradeResponse true transactionId (amount req)
               (t_avgPricePerShare result) (t_totalCost result)
               (balance user + t_totalCost result)
               (mkPositionSummary
                  (Rmax 0 (shares position - amount req))
                  (avg_price position)))
      end)).
Proof.
  unfold executeSellTrade, getMarketState, bind, gets.
  destruct (selectMarket (marketId req) s) as [market |] eqn:Hm;
    [right | left; split; reflexivity].
  unfold ret. cbn [fst snd].
  destruct (MarketStatus_eqb (status market) open) eqn:Hst; cbn [negb].
  2:{ left. exists market. split; [reflexivity |]. split; [| reflexivity].
      intros E. rewrite E in Hst. discriminate. }
  apply MarketStatus_eqb_open in Hst. right.
  destruct (getPosition (userId req) (marketId req) (positionType req) s)
    as [position |] eqn:Hp.
  2:{ left. exists market. repeat split; trivial. now left. }
  destruct (Rlt_dec (shares position) (amount req)) as [Hlt | Hge].
  { left. exists market. repeat split; trivial. right. now exists position. }
  right. exists market, position.
  split; [reflexivity |]. split; [exact Hst |]. split; [reflexivity |].
  split; [lra |].
  cbv zeta. unfold soldStore, soldPositions.
  change (liquidity_pool (marketState market)) with (m_liquidity_pool market).
  remember (executeSell (marketState market) (positionType req) (amount req))
    as result eqn:Hresult. clear Hresult.
  unfold transaction, bind, updateMarketShares, creditBalance, modify, gets.
  cbn [positions users markets transactions price_history resolutions].
  assert (Hsel : forall ps ms ts hs,
    selectUser (userId req)
      (mkStore (map (fun u => if String.eqb (u_id u) (userId req)
                              then mkUser (u_id u)
                                     (balance u + t_totalCost result)
                              else u) (users s)) ms ps ts hs (resolutions s))
    = option_map (fun u => mkUser (u_id u) (balance u + t_totalCost result))
        (selectUser (userId req) s)).
  { intros. unfold selectUser. cbn [users].
    rewrite find_user_map.
    - destruct (find _ (users s)) as [u |] eqn:Hu; simpl; [| reflexivity].
      apply find_some in Hu. destruct Hu as [_ Hu]. rewrite Hu. reflexivity.
    - intros u. destruct (String.eqb _ _); reflexivity. }
  destruct (Rle_dec (shares position - amount req) 0.0001) as [Hdust | Hkeep].
  - unfold deletePosition, insertTransaction, insertPriceHistory, modify,
      bind, ret.
    cbn [positions users markets transactions price_history resolutions].
    rewrite Hsel. unfold creditUser.
    destruct (selectUser (userId req) s); reflexivity.
  - unfold updatePositionShares, insertTransaction, insertPriceHistory,
      modify, bind, ret.
    cbn [positions users markets transactions price_history resolutions].
    rewrite Hsel. unfold creditUser.
    destruct (selectUser (userId req) s); reflexivity.
Qed.

Lemma t_shares_executeBuy (st : MarketState) (side : PositionType) (a : R) :
  t_shares (executeBuy st side a) = calculateSharesForAmount st side a.
Proof. reflexivity. Qed.

Lemma t_totalCost_executeSell_nonneg (st : MarketState) (side : PositionType)
    (n : R) :
  0 <= t_totalCost (executeSell st side n).
Proof.
  change (t_totalCost (executeSell st side n))
    with (calculateAmountForShares st side n).
  unfold calculateAmountForShares. apply Rmax_l.
Qed.

(** *** The sign invariants *)

Lemma boughtStore_balances (req : TradeRequest) (tid pid hid : string)
    (market : MarketRow) (user : UserRow) (s : Store) :
  balances_ok s ->
  selectUser (userId req) s = Some user -> amount req <= balance user ->
  balances_ok (boughtStore req tid pid hid market s).
Proof.
  intros (Huniq & Hbal) Hu Hle.
  unfold balances_ok, users_unique, boughtStore. cbn [users].
  split.
  - rewrite map_ids_update by apply debitUser_id. exact Huniq.
  - intros u' Hin. apply in_map_iff in Hin. destruct Hin as (u & <- & Hin).
    unfold debitUser. destruct (String.eqb (u_id u) (userId req)) eqn:E.
    + apply String.eqb_eq in E.
      rewrite (find_unique_user _ _ user u Huniq Hu Hin E). simpl. lra.
    + now apply Hbal.
Qed.

Lemma boughtStore_positions (req : TradeRequest) (tid pid hid : string)
    (market : MarketRow) (s : Store) :
  positions_ok s -> 0 <= amount req ->
  positions_ok (boughtStore req tid pid hid market s).
Proof.
  intros Hpos Ha. unfold positions_ok, boughtStore. cbn [positions].
  pose proof (calculateSharesForAmount_nonneg (marketState market)
                (positionType req) (amount req) Ha) as Hs.
  rewrite <- t_shares_executeBuy in Hs.
  remember (executeBuy (marketState market) (positionType req) (amount req))
    as result eqn:Hresult. clear Hresult.
  unfold boughtPositions.
  destruct (getPosition _ _ _ s) as [existing |] eqn:Hp.
  - apply find_some in Hp. destruct Hp as [Hex _].
    pose proof (Hpos existing Hex).
    intros p' Hin. apply in_map_iff in Hin. destruct Hin as (p & <- & Hin).
    destruct (String.eqb _ _); [simpl; lra | now apply Hpos].
  - intros p' Hin. apply in_app_or in Hin.
    destruct Hin as [Hin | [<- | []]]; [now apply Hpos | simpl; lra].
Qed.

Lemma soldStore_balances (req : TradeRequest) (tid hid : string)
    (market : MarketRow) (position : PositionRow) (s : Store) :
  balances_ok s -> balances_ok (soldStore req tid hid market position s).
Proof.
  intros (Huniq & Hbal).
  unfold balances_ok, users_unique, soldStore. cbn [users].
  pose proof (t_totalCost_executeSell_nonneg (marketState market)
                (positionType req) (amount req)) as Hc.
  remember (executeSell (marketState market) (positionType req) (amount req))
    as result eqn:Hresult. clear Hresult.
  split.
  - rewrite map_ids_update by apply creditUser_id. exact Huniq.
  - intros u' Hin. apply in_map_iff in Hin. destruct Hin as (u & <- & Hin).
    specialize (Hbal u Hin).
    unfold creditUser. destruct (String.eqb _ _); simpl; lra.
Qed.

Lemma soldStore_positions (req : TradeRequest) (tid hid : string)
    (market : MarketRow) (position : PositionRow) (s : Store) :
  positions_ok s -> positions_ok (soldStore req tid hid market position s).
Proof.
  intros Hpos. unfold positions_ok, soldStore. cbn [positions].
  unfold soldPositions.
  destruct (Rle_dec _ _) as [Hdust | Hkeep]; intros p' Hin.
  - apply filter_In in Hin. now apply Hpos.
  - apply in_map_iff in Hin. destruct Hin as (p & <- & Hin).
    destruct (String.eqb _ _); [simpl; lra | now apply Hpos].
Qed.

(** The payout needs the winning positions of the market not to be short. *)
Lemma settledStore_balances (s : Store) (market : MarketRow)
    (marketId : string) (d : Determination) (by_ rid now : string) :
  balances_ok s ->
  (forall p, In p (getWinningPositions marketId (d_outcome d) s) ->
     0 <= shares p) ->
  balances_ok (settledStore s market marketId d by_ rid now).
Proof.
  intros (Huniq & Hbal) Hwin.
  unfold balances_ok, users_unique, settledStore. cbn [users].
  split.
  - rewrite creditAll_ids. exact Huniq.
  - apply creditAll_nonneg; assumption.
Qed.

(** The balances after one operation. *)
Lemma runOperation_balances `{DataFetcher} (op : Operation) (s : Store) :
  balances_ok s ->
  (forall copy marketId manualOutcome resolvedBy rid now,
     op = Resolve copy marketId manualOutcome resolvedBy rid now ->
     forall p, In p (positions s) -> p_market_id p = marketId ->
     0 <= shares p) ->
  balances_ok (runOperation op s).
Proof.
  intros Hok Hres. destruct op as [req tid pid hid | req tid hid
                                  | copy marketId manual by_ rid now];
    cbn [runOperation].
  - destruct (executeBuyTrade_cases req tid pid hid s)
      as [[_ E] | [(m & _ & _ & E) | [(m & _ & _ & _ & E)
         | [(m & u & _ & _ & _ & _ & E)
           | (m & u & pos & _ & _ & Hu & Hle & E)]]]];
      rewrite E; cbn [fst]; trivial.
    now apply (boughtStore_balances req tid pid hid m u s).
  - destruct (executeSellTrade_cases req tid hid s)
      as [[_ E] | [(m & _ & _ & E) | [(m & _ & _ & _ & E)
         | (m & pos & _ & _ & _ & _ & E)]]];
      cbv zeta in E; rewrite E; cbn [fst]; trivial.
    now apply soldStore_balances.
  - destruct (resolveMarket_cases copy marketId manual by_ rid now s)
      as [[_ E] | [(m & _ & _ & E) | [(m & msg & _ & _ & _ & _ & _ & E)
         | (market & d & _ & _ & _ & _ & _ & E)]]];
      rewrite E; cbn [fst]; trivial.
    destruct (settle_spec market marketId d (resolvedByOrAuto by_) rid now s)
      as [[_ E'] | [_ (r0 & _ & E')]]; rewrite E'; cbn [fst]; trivial.
    apply settledStore_balances; [exact Hok |].
    intros p Hp. apply filter_In in Hp. destruct Hp as [Hin Hk].
    apply andb_true_iff in Hk. destruct Hk as [Hk _].
    apply String.eqb_eq in Hk.
    exact (Hres copy marketId manual by_ rid now eq_refl p Hin Hk).
Qed.

Lemma runOperation_positions `{DataFetcher} (op : Operation) (s : Store) :
  positions_ok s -> validated op -> positions_ok (runOperation op s).
Proof.
  intros Hok Hv. destruct op as [req tid pid hid | req tid hid
                                | copy marketId manual by_ rid now];
    cbn [runOperation].
  - simpl in Hv.
    destruct (executeBuyTrade_cases req tid pid hid s)
      as [[_ E] | [(m & _ & _ & E) | [(m & _ & _ & _ & E)
         | [(m & u & _ & _ & _ & _ & E)
           | (m & u & pos & _ & _ & _ & _ & E)]]]];
      rewrite E; cbn [fst]; trivial.
    now apply boughtStore_positions.
  - destruct (executeSellTrade_cases req tid hid s)
      as [[_ E] | [(m & _ & _ & E) | [(m & _ & _ & _ & E)
         | (m & pos & _ & _ & _ & _ & E)]]];
      cbv zeta in E; rewrite E; cbn [fst]; trivial.
    now apply soldStore_positions.
  - destruct (resolveMarket_cases copy marketId manual by_ rid now s)
      as [[_ E] | [(m & _ & _ & E) | [(m & msg & _ & _ & _ & _ & _ & E)
         | (market & d & _ & _ & _ & _ & _ & E)]]];
      rewrite E; cbn [fst]; trivial.
    destruct (settle_spec market marketId d (resolvedByOrAuto by_) rid now s)
      as [[_ E'] | [_ (r0 & _ & E')]]; rewrite E'; cbn [fst]; trivial.
Qed.

Lemma runOperation_ok `{DataFetcher} (op : Operation) (s : Store) :
  store_ok s -> validated op -> store_ok (runOperation op s).
Proof.
  intros [Hb Hp] Hv. split.
  - apply runOperation_balances; [exact Hb |].
    intros; now apply Hp.
  - now apply runOperation_positions.
Qed.

Lemma runOperations_ok `{DataFetcher} (ops : list Operation) :
  forall s, store_ok s -> Forall validated ops ->
  store_ok (runOperations ops s).
Proof.
  induction ops as [| op ops IH]; intros s Hok Hv; [exact Hok |].
  inversion Hv as [| ? ? Hop Hrest]; subst.
  apply IH; [| exact Hrest]. now apply runOperation_ok.
Qed.

(** The sign invariant, under the conditions it needs.  In a store with
    unique user ids and no negative balance:
    - a buy or a sell leaves no balance negative, and so does a resolution,
      by either copy of the resolver, of a market none of whose positions is
      short;
    - if moreover no position at all is short, every sequence of buys (for
      amounts that are not negative), sells and resolutions leads to a store
      with no negative balance and no short position;
    - a buy on an open market by a user whose balance is below the amount
      throws 'Insufficient balance' and changes nothing;
    - a buy that returns has debited the buyer by exactly the amount and
      nobody else;
    - a sell that returns has credited the seller with proceeds that are not
      negative. *)
Theorem balances_stay_nonnegative `{DataFetcher} (s : Store) :
  balances_ok s ->
  (forall op,
     (forall copy marketId manualOutcome resolvedBy rid now,
        op = Resolve copy marketId manualOutcome resolvedBy rid now ->
        forall p, In p (positions s) -> p_market_id p = marketId ->
        0 <= shares p) ->
     forall u, In u (users (runOperation op s)) -> 0 <= balance u) /\
  (positions_ok s ->
   forall ops, Forall validated ops -> store_ok (runOperations ops s)) /\
  (forall req tid pid hid market user,
     selectMarket (marketId req) s = Some market -> status market = open ->
     selectUser (userId req) s = Some user -> balance user < amount req ->
     executeBuyTrade req tid pid hid s = (s, Threw "Insufficient balance")) /\
  (forall req tid pid hid s' resp user,
     executeBuyTrade req tid pid hid s = (s', Returned resp) ->
     selectUser (userId req) s = Some user ->
     amount req <= balance user /\
     balanceOf (userId req) s' = Some (balance user - amount req) /\
     newBalance resp = balance user - amount req /\
     forall id, id <> userId req -> balanceOf id s' = balanceOf id s) /\
  (forall req tid hid s' resp user,
     executeSellTrade req tid hid s = (s', Returned resp) ->
     selectUser (userId req) s = Some user ->
     exists proceeds, 0 <= proceeds /\
       balanceOf (userId req) s' = Some (balance user + proceeds) /\
       newBalance resp = balance user + proceeds).
Proof.
  intros Hok. split; [| split; [| split; [| split]]].
  - intros op Hres. apply (runOperation_balances op s Hok Hres).
  - intros Hpos ops Hv.
    exact (runOperations_ok ops s (conj Hok Hpos) Hv).
  - intros req tid pid hid market user Hm Hst Hu Hlt.
    destruct (executeBuyTrade_cases req tid pid hid s)
      as [[E _] | [(m & E & Hn & _) | [(m & _ & _ & E & _)
         | [(m & u & _ & _ & _ & _ & E)
           | (m & u & pos & _ & _ & Hu' & Hle & _)]]]];
      try congruence.
    rewrite Hu in Hu'. injection Hu' as <-. lra.
  - intros req tid pid hid s' resp user Hrun Hu.
    destruct (executeBuyTrade_cases req tid pid hid s)
      as [[_ E] | [(m & _ & _ & E) | [(m & _ & _ & _ & E)
         | [(m & u & _ & _ & _ & _ & E)
           | (m & u & pos & _ & _ & Hu' & Hle & E)]]]];
      try (rewrite E in Hrun; discriminate).
    rewrite Hu in Hu'. injection Hu' as <-.
    unfold boughtStore in E.
    remember (executeBuy (marketState m) (positionType req) (amount req))
      as result eqn:Hresult in E. clear Hresult.
    remember (boughtPositions req pid result s) as ps eqn:Hps in E.
    clear Hps. cbv zeta in E.
    rewrite E in Hrun.
    apply pair_equal_spec in Hrun. destruct Hrun as [<- Hresp].
    assert (Hnb : newBalance resp = balance user - amount req).
    { injection Hresp as <-. reflexivity. }
    split; [exact Hle |].
    split; [| split; [exact Hnb |]].
    + unfold balanceOf, selectUser. cbn [users].
      unfold selectUser in Hu.
      rewrite (selectUser_debited _ _ _ _ Hu). reflexivity.
    + intros id Hne. unfold balanceOf, selectUser. cbn [users].
      rewrite find_user_map by apply debitUser_id.
      destruct (find _ (users s)) as [v |] eqn:Hv; simpl; [| reflexivity].
      apply find_some in Hv. destruct Hv as [_ Hv]. apply String.eqb_eq in Hv.
      unfold debitUser.
      destruct (String.eqb (u_id v) (userId req)) eqn:E'; [| reflexivity].
      apply String.eqb_eq in E'. congruence.
  - intros req tid hid s' resp user Hrun Hu.
    destruct (executeSellTrade_cases req tid hid s)
      as [[_ E] | [(m & _ & _ & E) | [(m & _ & _ & _ & E)
         | (m & pos & _ & _ & _ & _ & E)]]];
      cbv zeta in E; try (rewrite E in Hrun; discriminate).
    pose proof (t_totalCost_executeSell_nonneg (marketState m)
                  (positionType req) (amount req)) as Hc.
    unfold soldStore in E.
    remember (executeSell (marketState m) (positionType req) (amount req))
      as result eqn:Hresult in E, Hc. clear Hresult.
    remember (soldPositions req pos s) as ps eqn:Hps in E.
    clear Hps. cbv zeta in E.
    rewrite E, Hu in Hrun.
    apply pair_equal_spec in Hrun. destruct Hrun as [<- Hresp].
    exists (t_totalCost result).
    split; [exact Hc |].
    split; [| injection Hresp as <-; reflexivity].
    unfold balanceOf, selectUser. cbn [users].
    rewrite find_user_map by apply creditUser_id.
    unfold selectUser in Hu. rewrite Hu. simpl.
    apply find_some in Hu. destruct Hu as [_ Hu].
    unfold creditUser. rewrite Hu. reflexivity.
Qed.

Lemma payoutStore_ok : store_ok payoutStore.
Proof.
  unfold store_ok, balances_ok, positions_ok, users_unique. simpl.
  split; [split |].
  - constructor; [| constructor; [| constructor]]; simpl.
    + intros [E | []]. discriminate.
    + intros [].
  - intros u [<- | [<- | []]]; simpl; lra.
  - intros p [<- | [<- | []]]; simpl; lra.
Qed.

(** A buys YES for 10, sells 10 shares, and the market is resolved as YES:
    nobody ends below zero. *)
Lemma balances_stay_nonnegative_witness :
  balances_ok payoutStore /\
  positions_ok payoutStore /\
  store_ok (runOperations (H := failingFetcher)
              [Buy buyTen "t1" "p1" "h1"; Sell sellTen "t2" "h2";
               Resolve WithFallback "m1" (Some YES) None "r1" today]
              payoutStore).
Proof.
  destruct payoutStore_ok as [Hb Hp].
  split; [exact Hb |]. split; [exact Hp |].
  assert (Hv : Forall validated
                 [Buy buyTen "t1" "p1" "h1"; Sell sellTen "t2" "h2";
                  Resolve WithFallback "m1" (Some YES) None "r1" today]).
  { constructor; [unfold validated, buyTen; cbn [amount]; lra |].
    constructor; [exact I |].
    constructor; [exact I | constructor]. }
  destruct (balances_stay_nonnegative (H := failingFetcher) payoutStore Hb)
    as (_ & Hseq & _).
  exact (Hseq Hp _ Hv).
Defined.

(** C8.  A sell that returns found a position holding at least the shares
    sold.  With newShares = position.shares - shares sold: if
    newShares <= 0.0001 the rows with the position's id are deleted and
    every other row is kept as it was; otherwise the rows with that id get
    shares = newShares and keep every other column, avg_price included, and
    every other row is kept as it was.  The response reports max(0,
    newShares) and the position's avg_price. *)
Theorem sell_updates_position (req : TradeRequest) (tid hid : string)
    (s s' : Store) (resp : TradeResponse) :
  executeSellTrade req tid hid s = (s', Returned resp) ->
  exists position_,
    getPosition (userId req) (marketId req) (positionType req) s
    = Some position_ /\
    amount req <= shares position_ /\
    let newShares := shares position_ - amount req in
    (newShares <= 0.0001 ->
     positions s'
     = filter (fun p => negb (String.eqb (p_id p) (p_id position_)))
         (positions s)) /\
    (0.0001 < newShares ->
     positions s'
     = map (fun p =>
              if String.eqb (p_id p) (p_id position_)
              then mkPosition (p_id p) (p_user_id p) (p_market_id p)
                     (p_position_type p) newShares (avg_price p)
              else p) (positions s)
     /\ map avg_price (positions s') = map avg_price (positions s)) /\
    ps_shares (position resp) = Rmax 0 newShares /\
    ps_avgPrice (position resp) = avg_price position_.
Proof.
  intros Hrun.
  destruct (executeSellTrade_cases req tid hid s)
    as [[_ E] | [(m & _ & _ & E) | [(m & _ & _ & _ & E)
       | (m & pos & _ & _ & Hp & Hle & E)]]];
    cbv zeta in E; try (rewrite E in Hrun; discriminate).
  exists pos. split; [exact Hp |]. split; [exact Hle |].
  unfold soldStore in E.
  remember (executeSell (marketState m) (positionType req) (amount req))
    as result eqn:Hresult in E. clear Hresult.
  cbv zeta in E. rewrite E in Hrun.
  apply pair_equal_spec in Hrun. destruct Hrun as [<- Hresp].
  cbn [positions]. unfold soldPositions. cbv zeta.
  assert (Hresp' : ps_shares (position resp)
                   = Rmax 0 (shares pos - amount req) /\
                   ps_avgPrice (position resp) = avg_price pos).
  { destruct (selectUser (userId req) s); [| discriminate].
    injection Hresp as <-. split; reflexivity. }
  destruct (Rle_dec (shares pos - amount req) 0.0001) as [Hdust | Hkeep].
  - split; [reflexivity |]. split; [intros; lra | exact Hresp'].
  - split; [intros; lra |]. split; [| exact Hresp'].
    intros _. split; [reflexivity |].
    rewrite map_map. apply map_ext. intros p.
    destruct (String.eqb _ _); reflexivity.
Qed.

Lemma sell_returns_at_payoutStore (req : TradeRequest) (tid hid : string) :
  marketId req = "m1"%string -> userId req = "A"%string ->
  positionType req = YES -> amount req <= 30 ->
  exists s' resp,
    executeSellTrade req tid hid payoutStore = (s', Returned resp).
Proof.
  intros Hm Hu Hty Hle.
  destruct (executeSellTrade_cases req tid hid payoutStore)
    as [[E _] | [(m & E & Hn & _) | [(m & _ & _ & [E | (pos & E & Hlt)] & _)
       | (m & pos & _ & _ & _ & _ & E)]]];
    rewrite ?Hm, ?Hu, ?Hty in *.
  - discriminate.
  - injection E as <-. now contradiction Hn.
  - discriminate.
  - injection E as <-. simpl in Hlt. lra.
  - cbv zeta in E.
    change (selectUser "A" payoutStore) with (Some (mkUser "A" 1000)) in E.
    eexists; eexists. exact E.
Qed.

(** Selling 10 of A's 30 YES shares leaves 30 - 10 at the old avg_price
    0.45; selling all 30 deletes the row.  B's row is untouched. *)
Lemma sell_updates_position_witness :
  (exists s' resp,
     executeSellTrade sellTen "t1" "h1" payoutStore = (s', Returned resp) /\
     positions s' = [mkPosition "pA" "A" "m1" YES (30 - 10) 0.45; positionB])
  /\
  (exists s' resp,
     executeSellTrade sellAll "t1" "h1" payoutStore = (s', Returned resp) /\
     positions s' = [positionB]).
Proof.
  split.
  - destruct (sell_returns_at_payoutStore sellTen "t1" "h1" eq_refl eq_refl
                eq_refl) as (s' & resp & E); [simpl; lra |].
    exists s', resp. split; [exact E |].
    destruct (sell_updates_position sellTen "t1" "h1" payoutStore s' resp E)
      as (pos & Hp & _ & _ & Hkeep & _).
    injection Hp as <-.
    destruct Hkeep as [-> _]; [simpl; lra | reflexivity].
  - destruct (sell_returns_at_payoutStore sellAll "t1" "h1" eq_refl eq_refl
                eq_refl) as (s' & resp & E); [simpl; lra |].
    exists s', resp. split; [exact E |].
    destruct (sell_updates_position sellAll "t1" "h1" payoutStore s' resp E)
      as (pos & Hp & _ & Hdust & _).
    injection Hp as <-.
    rewrite Hdust; [reflexivity | simpl; lra].
Defined.

(** C6, the code at the failing input.  A buy for the amount 0 is quoted 0
    shares; [executeBuyTrade] has no check on the quote, returns, and has
    committed a position of 0 shares, a transaction row and a price point. *)
Theorem degenerate_buy_commits :
  exists s' resp,
    executeBuyTrade buyNothing "t1" "p1" "h1" payoutStore
    = (s', Returned resp) /\
    tr_shares resp = 0 /\
    positions s'
    = positions payoutStore ++ [mkPosition "p1" "B" "m1" YES 0 0] /\
    List.length (transactions s')
    = S (List.length (transactions payoutStore)) /\
    List.length (price_history s')
    = S (List.length (price_history payoutStore)).
Proof.
  assert (Hs : t_shares (executeBuy (marketState marketM1) YES 0) = 0).
  { rewrite t_shares_executeBuy. apply calculateSharesForAmount_zero. }
  assert (Hp : t_avgPricePerShare (executeBuy (marketState marketM1) YES 0)
               = 0).
  { change (t_avgPricePerShare (executeBuy (marketState marketM1) YES 0))
      with (if Rlt_dec 0 (calculateSharesForAmount (marketState marketM1)
                            YES 0)
            then 0 / calculateSharesForAmount (marketState marketM1) YES 0
            else 0).
    rewrite calculateSharesForAmount_zero.
    destruct (Rlt_dec 0 0); [lra | reflexivity]. }
  destruct (executeBuyTrade_cases buyNothing "t1" "p1" "h1" payoutStore)
    as [[E _] | [(m & E & Hn & _) | [(m & _ & _ & E & _)
       | [(m & u & _ & _ & E & Hlt & _)
         | (m & u & pos & Hm & _ & _ & _ & E)]]]].
  - discriminate.
  - injection E as <-. now contradiction Hn.
  - discriminate.
  - injection E as <-. simpl in Hlt. lra.
  - injection Hm as <-.
    eexists; eexists. split; [exact E |].
    cbn [tr_shares]. split; [exact Hs |].
    unfold boughtStore.
    cbn [positions transactions price_history positionType amount buyNothing].
    unfold boughtPositions.
    change (getPosition (userId buyNothing) (marketId buyNothing)
              (positionType buyNothing) payoutStore) with (@None PositionRow).
    cbn [positionType amount buyNothing userId marketId].
    rewrite Hs, Hp. rewrite !length_app. simpl.
    repeat split; f_equal; lia.
Qed.

(** For a positive amount the quote is never degenerate. *)
Lemma buy_quote_positive (st : MarketState) (side : PositionType) (a : R) :
  0 < a -> 0 < t_shares (executeBuy st side a).
Proof.
  intros Ha. rewrite t_shares_executeBuy.
  apply calculateSharesForAmount_pos. exact Ha.
Qed.

(** *** Resolution rows and market status *)

Lemma withShares_id (y n : R) (id : string) (m : MarketRow) :
  m_id (withShares y n id m) = m_id m.
Proof. unfold withShares. destruct (String.eqb _ _); reflexivity. Qed.

Lemma withShares_status (y n : R) (id : string) (m : MarketRow) :
  status (withShares y n id m) = status m.
Proof. unfold withShares. destruct (String.eqb _ _); reflexivity. Qed.

Lemma consistent_after_trade (s : Store) (us : list UserRow)
    (ps : list PositionRow) (ts : list TransactionRow)
    (hs : list PriceHistoryRow) (y n : R) (id : string) :
  resolutions_consistent s ->
  resolutions_consistent
    (mkStore us (map (withShares y n id) (markets s)) ps ts hs
       (resolutions s)).
Proof.
  intros Hc r Hr. destruct (Hc r Hr) as (m & Hm & Hst).
  exists (withShares y n id m). split; [| now rewrite withShares_status].
  unfold selectMarket in *. cbn [markets].
  rewrite find_market_map by apply withShares_id. now rewrite Hm.
Qed.

Lemma settledStore_consistent (s : Store) (market m0 : MarketRow)
    (marketId : string) (d : Determination) (by_ rid now : string) :
  selectMarket marketId s = Some m0 ->
  resolutions_consistent s ->
  resolutions_consistent (settledStore s market marketId d by_ rid now).
Proof.
  intros Hm0 Hc r Hr.
  assert (Hcase : r_market_id r = marketId \/
                  (r_market_id r <> marketId /\ In r (resolutions s))).
  { unfold settledStore in Hr. cbn [resolutions] in Hr.
    apply in_app_or in Hr. destruct Hr as [Hr | [<- | []]].
    - destruct (string_dec (r_market_id r) marketId); [now left | now right].
    - now left. }
  destruct Hcase as [-> | [Hne Hin]].
  - eexists. split; [apply selectMarket_settled; exact Hm0 | reflexivity].
  - destruct (Hc r Hin) as (m & Hm & Hst).
    exists m. split; [| exact Hst].
    rewrite selectMarket_settled_other; assumption.
Qed.

(** Buys, sells and resolutions keep resolution rows on resolved markets. *)
Lemma runOperation_consistent `{DataFetcher} (op : Operation) (s : Store) :
  resolutions_consistent s -> resolutions_consistent (runOperation op s).
Proof.
  intros Hc. destruct op as [req tid pid hid | req tid hid
                            | copy marketId manual by_ rid now];
    cbn [runOperation].
  - destruct (executeBuyTrade_cases req tid pid hid s)
      as [[_ E] | [(m & _ & _ & E) | [(m & _ & _ & _ & E)
         | [(m & u & _ & _ & _ & _ & E)
           | (m & u & pos & _ & _ & _ & _ & E)]]]];
      rewrite E; cbn [fst]; trivial.
    now apply consistent_after_trade.
  - destruct (executeSellTrade_cases req tid hid s)
      as [[_ E] | [(m & _ & _ & E) | [(m & _ & _ & _ & E)
         | (m & pos & _ & _ & _ & _ & E)]]];
      cbv zeta in E; rewrite E; cbn [fst]; trivial.
    now apply consistent_after_trade.
  - destruct (resolveMarket_cases copy marketId manual by_ rid now s)
      as [[_ E] | [(m & _ & _ & E) | [(m & msg & _ & _ & _ & _ & _ & E)
         | (market & d & Hm & _ & _ & _ & _ & E)]]];
      rewrite E; cbn [fst]; trivial.
    destruct (settle_spec market marketId d (resolvedByOrAuto by_) rid now s)
      as [[_ E'] | [_ (r0 & _ & E')]]; rewrite E'; cbn [fst]; trivial.
    now apply (settledStore_consistent s market market).
Qed.

End TradingFacts.

(** * Further properties of the pricing kernel *)

Section PriceFacts.
Import AmmEngine Scenarios.

(** The softmax with the maximum factored out is the plain ratio. *)
Lemma getYesPrice_closed_form (st : MarketState) :
  liquidity_pool st <> 0 ->
  getYesPrice st
  = exp (total_yes_shares st / liquidity_pool st)
    / (exp (total_yes_shares st / liquidity_pool st)
       + exp (total_no_shares st / liquidity_pool st)).
Proof.
  intros Hb. unfold getYesPrice.
  destruct (Req_dec_T (liquidity_pool st) 0) as [E | _]; [contradiction |].
  cbv zeta.
  set (y := total_yes_shares st / liquidity_pool st).
  set (n := total_no_shares st / liquidity_pool st).
  set (m := Rmax y n).
  pose proof (exp_pos y); pose proof (exp_pos n); pose proof (exp_pos (- m)).
  replace (exp (y - m)) with (exp y * exp (- m))
    by (rewrite <- exp_plus; reflexivity).
  replace (exp (n - m)) with (exp n * exp (- m))
    by (rewrite <- exp_plus; reflexivity).
  field. split; nra.
Qed.



Lemma ratio_lt (x x' E : R) :
  0 < x -> 0 < E -> x < x' -> x / (x + E) < x' / (x' + E).
Proof.
  intros Hx HE Hlt.
  apply Rmult_lt_reg_r with ((x + E) * (x' + E)); [nra |].
  replace (x / (x + E) * ((x + E) * (x' + E))) with (x * (x' + E))
    by (field; lra).
  replace (x' / (x' + E) * ((x + E) * (x' + E))) with (x' * (x + E))
    by (field; lra).
  nra.
Qed.


Lemma exp_div_lt (x y b : R) : 0 < b -> x < y -> exp (x / b) < exp (y / b).
Proof.
  intros Hb Hlt. apply exp_increasing. unfold Rdiv.
  apply Rmult_lt_compat_r; [now apply Rinv_0_lt_compat | exact Hlt].
Qed.

(** The YES price rises with the YES inventory and falls with the NO one. *)
Lemma getYesPrice_increasing (y y' n b : R) :
  0 < b -> y < y' ->
  getYesPrice (mkMarketState y n b) < getYesPrice (mkMarketState y' n b).
Proof.
  intros Hb Hlt. rewrite !getYesPrice_closed_form by (simpl; lra). simpl.
  apply ratio_lt; try apply exp_pos. now apply exp_div_lt.
Qed.


Lemma eta_MarketState (st : MarketState) :
  st = mkMarketState (total_yes_shares st) (total_no_shares st)
         (liquidity_pool st).
Proof. destruct st; reflexivity. Qed.

Lemma getYesPrice_even (q b : R) : getYesPrice (mkMarketState q q b) = 0.5.
Proof.
  unfold getYesPrice. simpl.
  destruct (Req_dec_T b 0) as [_ | _]; [reflexivity |].
  set (e := exp _). assert (0 < e) by apply exp_pos.
  replace (e / (e + e)) with (/ 2) by (field; lra). lra.
Qed.





End PriceFacts.

Section CostFacts.
Import AmmEngine Scenarios.




(** The tangent inequality of the cost function in the YES inventory: moving
    the inventory by [d], up or down, changes the cost by at least [d] times
    the spot price. *)
Lemma lmsrCost_tangent_yes (y n b d : R) :
  0 < b ->
  d * getYesPrice (mkMarketState y n b)
  <= lmsrCost (y + d) n b - lmsrCost y n b.
Proof.
  intros Hb.
  rewrite getYesPrice_closed_form by (simpl; lra). simpl.
  rewrite !lmsrCost_closed_form.
  set (a := exp (y / b)). set (E := exp (n / b)).
  assert (Ha : 0 < a) by apply exp_pos.
  assert (HE : 0 < E) by apply exp_pos.
  set (p := a / (a + E)).
  assert (Hp : 0 < p < 1).
  { unfold p. split; [apply Rdiv_lt_0_compat; lra |].
    apply Rmult_lt_reg_r with (a + E); [lra |].
    unfold Rdiv. rewrite Rmult_assoc, Rinv_l by lra. lra. }
  set (u := d / b).
  assert (Hyd : exp ((y + d) / b) = a * exp u).
  { unfold a, u. rewrite <- exp_plus. f_equal. field. lra. }
  rewrite Hyd.
  assert (Hsum : a * exp u + E = (a + E) * (1 - p + p * exp u)).
  { unfold p. field. lra. }
  assert (Hjensen : exp (p * u) <= 1 - p + p * exp u).
  { pose proof (exp_ineq1_le (u - p * u)) as H1.
    pose proof (exp_ineq1_le (0 - p * u)) as H2.
    pose proof (exp_pos (p * u)) as Hc.
    assert (Hu : exp u = exp (p * u) * exp (u - p * u)).
    { rewrite <- exp_plus. f_equal. ring. }
    assert (H0 : 1 = exp (p * u) * exp (0 - p * u)).
    { rewrite <- exp_plus. replace (p * u + (0 - p * u)) with 0 by ring.
      now rewrite exp_0. }
    set (c := exp (p * u)) in *.
    set (e1 := exp (u - p * u)) in *. set (e0 := exp (0 - p * u)) in *.
    assert (A : (1 - p) * c * (1 + (0 - p * u)) <= (1 - p) * c * e0).
    { apply Rmult_le_compat_l; [nra | lra]. }
    assert (B : p * c * (1 + (u - p * u)) <= p * c * e1).
    { apply Rmult_le_compat_l; [nra | lra]. }
    assert (G : 1 - p = (1 - p) * c * e0).
    { rewrite Rmult_assoc, <- H0. ring. }
    rewrite Hu, G.
    replace c with ((1 - p) * c * (1 + (0 - p * u))
                    + p * c * (1 + (u - p * u))) at 1 by ring.
    lra. }
  assert (Hpos : 0 < 1 - p + p * exp u).
  { pose proof (exp_pos u). nra. }
  rewrite Hsum, ln_mult by lra.
  assert (Hln : p * u <= ln (1 - p + p * exp u)).
  { rewrite <- (ln_exp (p * u)). apply ln_le_mono; [apply exp_pos | exact Hjensen]. }
  assert (Hbd : b * (p * u) = d * p) by (unfold u; field; lra).
  nra.
Qed.

End CostFacts.

Section QuoteBounds.
Import AmmEngine Scenarios MoreInvariants.











(** X6.  For a liquidity other than 0, the market initialised for a YES
    probability p starts at the YES price p clamped to [0.01, 0.99], with no
    NO shares outstanding; [initializeMarketState] starts at 0.5. *)
Theorem initial_price_is_the_probability (liquidity p : R) :
  liquidity <> 0 ->
  let st := initializeMarketStateWithProbability liquidity p in
  getYesPrice st = Rmax 0.01 (Rmin 0.99 p) /\
  0.01 <= getYesPrice st <= 0.99 /\
  total_no_shares st = 0 /\
  getYesPrice (initializeMarketState liquidity) = 0.5.
Proof.
  intros Hb st.
  assert (Hc : 0.01 <= Rmax 0.01 (Rmin 0.99 p) <= 0.99).
  { split; [apply Rmax_l |]. apply Rmax_lub; [lra | apply Rmin_l]. }
  assert (Hprice : getYesPrice st = Rmax 0.01 (Rmin 0.99 p)).
  { unfold st, initializeMarketStateWithProbability. cbv zeta.
    set (c := Rmax 0.01 (Rmin 0.99 p)) in *.
    rewrite getYesPrice_closed_form by (simpl; exact Hb). simpl.
    rewrite exp_0_over.
    replace (liquidity * ln (c / (1 - c)) / liquidity) with (ln (c / (1 - c)))
      by (field; exact Hb).
    rewrite exp_ln by (apply Rdiv_lt_0_compat; lra).
    field. lra. }
  split; [exact Hprice |]. split; [rewrite Hprice; exact Hc |].
  split; [reflexivity |]. apply getYesPrice_even.
Qed.

Lemma initial_price_is_the_probability_witness :
  getYesPrice (initializeMarketStateWithProbability 100 0.65) = 0.65.
Proof.
  destruct (initial_price_is_the_probability 100 0.65) as [H _]; [lra |].
  rewrite H. rewrite Rmin_right by lra. apply Rmax_right. lra.
Defined.

End QuoteBounds.

(** * Further properties of the trading engine *)

Section TradeFacts.
Import AmmEngine Db TradingService DataSourceService ResolutionCommon Invariants
  Scenarios MarketsRoute MoreInvariants.

Lemma find_map_preserving {A : Type} (test : A -> bool) (f : A -> A)
    (l : list A) :
  (forall x, test (f x) = test x) ->
  find test (map f l) = option_map f (find test l).
Proof.
  intros Hf. induction l as [| a l IH]; simpl; [reflexivity |].
  rewrite Hf. destruct (test a); [reflexivity | exact IH].
Qed.

Lemma find_app_none {A : Type} (test : A -> bool) (l l' : list A) :
  find test l = None -> find test (l ++ l') = find test l'.
Proof.
  induction l as [| a l IH]; simpl; [reflexivity |].
  destruct (test a); [discriminate | exact IH].
Qed.

Lemma find_app_some {A : Type} (test : A -> bool) (l l' : list A) (x : A) :
  find test l = Some x -> find test (l ++ l') = Some x.
Proof.
  induction l as [| a l IH]; simpl; [discriminate |].
  destruct (test a); [trivial | exact IH].
Qed.

Lemma PositionType_eqb_refl (side : PositionType) :
  PositionType_eqb side side = true.
Proof. destruct side; reflexivity. Qed.

Lemma PositionType_eqb_eq (a b : PositionType) :
  PositionType_eqb a b = true <-> a = b.
Proof. destruct a, b; simpl; split; (reflexivity || discriminate). Qed.

(** A buy that returns has committed [boughtStore]. *)
Lemma buy_returned (req : TradeRequest) (tid pid hid : string)
    (s s' : Store) (resp : TradeResponse) :
  executeBuyTrade req tid pid hid s = (s', Returned resp) ->
  exists market user,
    selectMarket (marketId req) s = Some market /\ status market = open /\
    selectUser (userId req) s = Some user /\ amount req <= balance user /\
    s' = boughtStore req tid pid hid market s /\
    tr_shares resp
    = t_shares (executeBuy (marketState market) (positionType req)
                  (amount req)) /\
    pricePerShare resp
    = t_avgPricePerShare (executeBuy (marketState market) (positionType req)
                            (amount req)) /\
    totalCost resp = amount req /\
    newBalance resp = balance user - amount req.
Proof.
  intros Hrun.
  destruct (executeBuyTrade_cases req tid pid hid s)
    as [[_ E] | [(m & _ & _ & E) | [(m & _ & _ & _ & E)
       | [(m & u & _ & _ & _ & _ & E)
       | (m & u & pos & Hm & Hst & Hu & Hle & E)]]]];
    rewrite E in Hrun; try discriminate Hrun.
  apply pair_equal_spec in Hrun. destruct Hrun as [Hs Hr].
  exists m, u.
  remember (executeBuy (marketState m) (positionType req) (amount req))
    as result eqn:Hresult. clear Hresult E.
  injection Hr as <-.
  repeat (split; [first [assumption | reflexivity | now symmetry] |]).
  reflexivity.
Qed.

(** A sell that returns has committed [soldStore]. *)
Lemma sell_returned (req : TradeRequest) (tid hid : string)
    (s s' : Store) (resp : TradeResponse) :
  executeSellTrade req tid hid s = (s', Returned resp) ->
  exists market position_ user,
    selectMarket (marketId req) s = Some market /\ status market = open /\
    getPosition (userId req) (marketId req) (positionType req) s
    = Some position_ /\
    amount req <= shares position_ /\
    selectUser (userId req) s = Some user /\
    s' = soldStore req tid hid market position_ s /\
    tr_shares resp = amount req /\
    pricePerShare resp
    = t_avgPricePerShare (executeSell (marketState market) (positionType req)
                            (amount req)) /\
    totalCost resp
    = t_totalCost (executeSell (marketState market) (positionType req)
                     (amount req)) /\
    newBalance resp
    = balance user
      + t_totalCost (executeSell (marketState market) (positionType req)
                       (amount req)).
Proof.
  intros Hrun.
  destruct (executeSellTrade_cases req tid hid s)
    as [[_ E] | [(m & _ & _ & E) | [(m & _ & _ & _ & E)
       | (m & pos & Hm & Hst & Hp & Hle & E)]]];
    cbv zeta in E; rewrite E in Hrun; try discriminate Hrun.
  apply pair_equal_spec in Hrun. destruct Hrun as [Hs Hr].
  destruct (selectUser (userId req) s) as [u |] eqn:Hu; [| discriminate Hr].
  exists m, pos, u.
  remember (executeSell (marketState m) (positionType req) (amount req))
    as result eqn:Hresult. clear Hresult E.
  injection Hr as <-.
  repeat (split; [first [assumption | reflexivity | now symmetry] |]).
  reflexivity.
Qed.

Lemma executeBuy_inventory (st : MarketState) (side : PositionType) (a : R) :
  t_newYesShares (executeBuy st side a)
  = match side with
    | YES => total_yes_shares st + t_shares (executeBuy st side a)
    | NO => total_yes_shares st
    end /\
  t_newNoShares (executeBuy st side a)
  = match side with
    | YES => total_no_shares st
    | NO => total_no_shares st + t_shares (executeBuy st side a)
    end.
Proof.
  unfold executeBuy. cbv zeta.
  generalize (getBuyQuote st side a). intros q.
  destruct side; split; reflexivity.
Qed.

Lemma executeSell_inventory (st : MarketState) (side : PositionType) (n : R) :
  t_newYesShares (executeSell st side n)
  = match side with
    | YES => total_yes_shares st - n
    | NO => total_yes_shares st
    end /\
  t_newNoShares (executeSell st side n)
  = match side with
    | YES => total_no_shares st
    | NO => total_no_shares st - n
    end.
Proof. destruct side; split; reflexivity. Qed.

Lemma executeBuy_quote (st : MarketState) (side : PositionType) (a : R) :
  let r := executeBuy st side a in
  let q := getBuyQuote st side a in
  t_shares r = q_shares q /\
  t_avgPricePerShare r = q_avgPricePerShare q /\
  t_totalCost r = q_totalCost q /\
  getYesPrice (mkMarketState (t_newYesShares r) (t_newNoShares r)
                 (liquidity_pool st)) = q_newYesPrice q /\
  getNoPrice (mkMarketState (t_newYesShares r) (t_newNoShares r)
                (liquidity_pool st)) = q_newNoPrice q.
Proof.
  unfold executeBuy, getBuyQuote. cbv zeta.
  generalize (calculateSharesForAmount st side a). intros sharesReceived.
  destruct side; repeat split; reflexivity.
Qed.

Lemma executeSell_quote (st : MarketState) (side : PositionType) (n : R) :
  let r := executeSell st side n in
  let q := getSellQuote st side n in
  t_shares r = q_shares q /\
  t_avgPricePerShare r = q_avgPricePerShare q /\
  t_totalCost r = q_totalCost q /\
  getYesPrice (mkMarketState (t_newYesShares r) (t_newNoShares r)
                 (liquidity_pool st)) = q_newYesPrice q /\
  getNoPrice (mkMarketState (t_newYesShares r) (t_newNoShares r)
                (liquidity_pool st)) = q_newNoPrice q.
Proof. destruct side; repeat split; reflexivity. Qed.

Lemma find_withShares (y n : R) (id : string) (ms : list MarketRow)
    (m : MarketRow) :
  find (fun m => String.eqb (m_id m) id) ms = Some m ->
  find (fun m => String.eqb (m_id m) id) (map (withShares y n id) ms)
  = Some (mkMarket (m_id m) (resolution_source m) (resolution_criteria m)
            (closes_at m) (resolved_at m) (outcome m) y n
            (m_liquidity_pool m) (status m)).
Proof.
  intros Hm. rewrite find_market_map by apply withShares_id.
  rewrite Hm. simpl. apply find_some in Hm. destruct Hm as [_ Hm].
  unfold withShares. rewrite Hm. reflexivity.
Qed.

Lemma find_withShares_other (y n : R) (id other : string)
    (ms : list MarketRow) :
  other <> id ->
  find (fun m => String.eqb (m_id m) other) (map (withShares y n id) ms)
  = find (fun m => String.eqb (m_id m) other) ms.
Proof.
  intros Hne. rewrite find_market_map by apply withShares_id.
  destruct (find _ ms) as [m |] eqn:Hm; simpl; [| reflexivity].
  apply find_some in Hm. destruct Hm as [_ Hm]. apply String.eqb_eq in Hm.
  unfold withShares. destruct (String.eqb (m_id m) id) eqn:E; [| reflexivity].
  apply String.eqb_eq in E. congruence.
Qed.

Lemma executeBuy_totalCost (st : MarketState) (side : PositionType) (a : R) :
  q_totalCost (getBuyQuote st side a) = a.
Proof.
  unfold getBuyQuote. cbv zeta.
  generalize (calculateSharesForAmount st side a). intros sharesReceived.
  reflexivity.
Qed.

(** X8.  A trade that returns has filled exactly what [getQuote] quotes on
    the store before it: the same shares, the same price per share, the
    same total, and the price point it records carries the quote's new
    prices.  The quote itself leaves the store as it was. *)
Theorem quote_agrees_with_trade (req : TradeRequest) (tid pid hid : string)
    (s s' : Store) (resp : TradeResponse) :
  (action req = BUY /\
   executeBuyTrade req tid pid hid s = (s', Returned resp)) \/
  (action req = SELL /\
   executeSellTrade req tid hid s = (s', Returned resp)) ->
  exists q,
    getQuote (quoteOf req) s = (s, Returned q) /\
    tr_shares resp = qs_shares q /\
    pricePerShare resp = qs_pricePerShare q /\
    totalCost resp = qs_totalCost q /\
    price_history s'
    = price_history s
      ++ [mkPricePoint hid (marketId req) (qs_newYesPrice q)
            (qs_newNoPrice q)].
Proof.
  intros [[Hact Hrun] | [Hact Hrun]].
  - destruct (buy_returned req tid pid hid s s' resp Hrun)
      as (m & u & Hm & Hst & _ & _ & Hs & Hsh & Hpr & Hto & _).
    pose proof (executeBuy_quote (marketState m) (positionType req)
                  (amount req)) as Hq.
    cbv zeta in Hq. destruct Hq as (Q1 & Q2 & _ & Q4 & Q5).
    change (liquidity_pool (marketState m)) with (m_liquidity_pool m)
      in Q4, Q5.
    pose proof (executeBuy_totalCost (marketState m) (positionType req)
                  (amount req)) as Q3.
    unfold boughtStore in Hs. cbv zeta in Hs.
    remember (executeBuy (marketState m) (positionType req) (amount req))
      as result eqn:Hresult in *. clear Hresult.
    remember (getBuyQuote (marketState m) (positionType req) (amount req))
      as quote eqn:Hquote in *.
    unfold getQuote, getMarketState, bind, gets, quoteOf, ret.
    cbn [qr_marketId qr_positionType qr_amount qr_action].
    rewrite Hm. cbn [fst snd]. rewrite Hst, Hact. cbn [MarketStatus_eqb negb].
    rewrite <- Hquote. clear Hquote.
    eexists. split; [reflexivity |].
    cbn [qs_shares qs_pricePerShare qs_totalCost qs_newYesPrice
         qs_newNoPrice].
    subst s'. cbn [price_history].
    rewrite Hsh, Hpr, Hto, Q1, Q2, Q3, Q4, Q5. repeat split; reflexivity.
  - destruct (sell_returned req tid hid s s' resp Hrun)
      as (m & pos & u & Hm & Hst & _ & _ & _ & Hs & Hsh & Hpr & Hto & _).
    pose proof (executeSell_quote (marketState m) (positionType req)
                  (amount req)) as Hq.
    cbv zeta in Hq. destruct Hq as (Q1 & Q2 & Q3 & Q4 & Q5).
    change (liquidity_pool (marketState m)) with (m_liquidity_pool m)
      in Q4, Q5.
    assert (Q0 : q_shares (getSellQuote (marketState m) (positionType req)
                             (amount req)) = amount req) by reflexivity.
    unfold soldStore in Hs. cbv zeta in Hs.
    remember (executeSell (marketState m) (positionType req) (amount req))
      as result eqn:Hresult in *. clear Hresult.
    remember (getSellQuote (marketState m) (positionType req) (amount req))
      as quote eqn:Hquote in *.
    unfold getQuote, getMarketState, bind, gets, quoteOf, ret.
    cbn [qr_marketId qr_positionType qr_amount qr_action].
    rewrite Hm. cbn [fst snd]. rewrite Hst, Hact. cbn [MarketStatus_eqb negb].
    rewrite <- Hquote. clear Hquote.
    eexists. split; [reflexivity |].
    cbn [qs_shares qs_pricePerShare qs_totalCost qs_newYesPrice
         qs_newNoPrice].
    subst s'. cbn [price_history].
    rewrite Hsh, Hpr, Hto, Q0, Q2, Q3, Q4, Q5. repeat split; reflexivity.
Qed.

Lemma quote_agrees_with_trade_witness :
  exists s' resp q,
    executeBuyTrade buyTen "t1" "p1" "h1" payoutStore = (s', Returned resp) /\
    getQuote (quoteOf buyTen) payoutStore = (payoutStore, Returned q) /\
    tr_shares resp = qs_shares q.
Proof.
  destruct (executeBuyTrade_cases buyTen "t1" "p1" "h1" payoutStore)
    as [[E _] | [(m & E & Hn & _) | [(m & _ & _ & E & _)
       | [(m & u & _ & _ & E & Hlt & _)
       | (m & u & pos & _ & _ & _ & _ & E)]]]].
  - discriminate E.
  - injection E as <-. now elim Hn.
  - discriminate E.
  - injection E as <-. simpl in Hlt. lra.
  - destruct (quote_agrees_with_trade buyTen "t1" "p1" "h1" payoutStore _ _
                (or_introl (conj eq_refl E))) as (q & Hq & Hs & _).
    eexists _, _, q. split; [exact E |]. split; [exact Hq | exact Hs].
Defined.

(** A call of [resolveMarket] that throws has changed nothing. *)
Lemma resolve_threw `{DataFetcher} (copy : ResolverCopy) (marketId : string)
    (manualOutcome : option PositionType) (resolvedBy : option string)
    (rid now : string) (s s' : Store) (e : string) :
  resolveMarketOf copy marketId manualOutcome resolvedBy rid now s
  = (s', Threw e) -> s' = s.
Proof.
  intros Hrun.
  destruct (resolveMarket_cases copy marketId manualOutcome resolvedBy rid
              now s)
    as [[_ E] | [(m & _ & _ & E) | [(m & msg & _ & _ & _ & _ & _ & E)
       | (m & d & _ & _ & _ & _ & _ & E)]]];
    rewrite E in Hrun.
  1-3: apply pair_equal_spec in Hrun; destruct Hrun as [Hs _];
       exact (eq_sym Hs).
  destruct (settle_spec m marketId d (resolvedByOrAuto resolvedBy) rid now s)
    as [[_ E'] | (_ & r0 & _ & E')]; rewrite E' in Hrun.
  - apply pair_equal_spec in Hrun. destruct Hrun as [Hs _].
    exact (eq_sym Hs).
  - apply pair_equal_spec in Hrun. destruct Hrun as [_ Hr].
    discriminate Hr.
Qed.

(** A call of [resolveMarket] that returns has committed [settledStore]. *)
Lemma resolve_returned `{DataFetcher} (copy : ResolverCopy)
    (marketId : string) (manualOutcome : option PositionType)
    (resolvedBy : option string) (rid now : string) (s s' : Store)
    (res : ResolutionResult) :
  resolveMarketOf copy marketId manualOutcome resolvedBy rid now s
  = (s', Returned res) ->
  exists market d,
    selectMarket marketId s = Some market /\ status market <> resolved /\
    existsb (fun r => String.eqb (r_market_id r) marketId) (resolutions s)
    = false /\
    s' = settledStore s market marketId d (resolvedByOrAuto resolvedBy) rid
           now /\
    rr_marketId res = marketId /\ rr_outcome res = d_outcome d /\
    rr_payouts res
    = map payoutOf (getWinningPositions marketId (d_outcome d) s) /\
    (forall o, manualOutcome = Some o -> d = manualDetermination o) /\
    (copy = WithFallback ->
     d = ResolutionService.determine market manualOutcome) /\
    (copy = WithoutFallback -> manualOutcome = None ->
     consultSource market = Returned d).
Proof.
  intros Hrun.
  destruct (resolveMarket_cases copy marketId manualOutcome resolvedBy rid
              now s)
    as [[_ E] | [(m & _ & _ & E) | [(m & msg & _ & _ & _ & _ & _ & E)
       | (m & d & Hm & Hst & Hman & Hfb & Hnf & E)]]];
    rewrite E in Hrun; try discriminate Hrun.
  destruct (settle_spec m marketId d (resolvedByOrAuto resolvedBy) rid now s)
    as [[_ E'] | (Hnone & r0 & _ & E')]; rewrite E' in Hrun;
    [discriminate Hrun |].
  apply pair_equal_spec in Hrun. destruct Hrun as [Hs Hr].
  injection Hr as <-. exists m, d.
  repeat (split; [first [assumption | reflexivity | now symmetry] |]).
  exact Hnf.
Qed.

(** With the fallback, resolving a market that is in the table, is not
    resolved and has no resolution row returns. *)
Lemma fallback_returns `{DataFetcher} (marketId : string)
    (manualOutcome : option PositionType) (resolvedBy : option string)
    (rid now : string) (s : Store) (market : MarketRow) :
  selectMarket marketId s = Some market -> status market <> resolved ->
  existsb (fun r => String.eqb (r_market_id r) marketId) (resolutions s)
  = false ->
  exists res,
    resolveMarketOf WithFallback marketId manualOutcome resolvedBy rid now s
    = (settledStore s market marketId
         (ResolutionService.determine market manualOutcome)
         (resolvedByOrAuto resolvedBy) rid now, Returned res).
Proof.
  intros Hm Hst Hnone.
  destruct (resolveMarket_cases WithFallback marketId manualOutcome resolvedBy
              rid now s)
    as [[E _] | [(m & E & Hres & _) | [(m & msg & _ & _ & Hc & _)
       | (m & d & E & _ & _ & Hfb & _ & Hrun)]]].
  - congruence.
  - rewrite Hm in E. injection E as <-. contradiction.
  - discriminate Hc.
  - rewrite Hm in E. injection E as <-. rewrite (Hfb eq_refl) in Hrun.
    destruct (settle_spec market marketId
                (ResolutionService.determine market manualOutcome)
                (resolvedByOrAuto resolvedBy) rid now s)
      as [[E' _] | (_ & r0 & _ & E')]; [congruence |].
    rewrite E' in Hrun. eexists. exact Hrun.
Qed.

Lemma getPosition_some (userId marketId : string) (side : PositionType)
    (s : Store) (p : PositionRow) :
  getPosition userId marketId side s = Some p ->
  In p (positions s) /\ p_user_id p = userId /\ p_market_id p = marketId /\
  p_position_type p = side.
Proof.
  intros Hp. apply find_some in Hp. destruct Hp as [Hin Hkey].
  apply andb_true_iff in Hkey. destruct Hkey as [Hkey Hside].
  apply andb_true_iff in Hkey. destruct Hkey as [Hu Hm].
  apply String.eqb_eq in Hu, Hm. apply PositionType_eqb_eq in Hside.
  repeat split; assumption.
Qed.

(** X9.  When every position belongs to a user of the users table, a call
    of [executeBuyTrade], [executeSellTrade] or either [resolveMarket] that
    throws, and a POST /:marketId/resolve that answers with an error status,
    leave the store exactly as it was. *)
Theorem failed_call_changes_nothing `{DataFetcher} (s : Store) :
  owners_exist s ->
  (forall req tid pid hid s' e,
     executeBuyTrade req tid pid hid s = (s', Threw e) -> s' = s) /\
  (forall req tid hid s' e,
     executeSellTrade req tid hid s = (s', Threw e) -> s' = s) /\
  (forall copy marketId manualOutcome resolvedBy rid now s' e,
     resolveMarketOf copy marketId manualOutcome resolvedBy rid now s
     = (s', Threw e) -> s' = s) /\
  (forall copy marketId body rid now s' code e message,
     ResolutionsRoute.postResolve (resolveMarketOf copy) marketId body rid
       now s = (s', ResolutionsRoute.StatusJson code e message) -> s' = s).
Proof.
  intros Hown.
  assert (Hres : forall copy marketId manualOutcome resolvedBy rid now s' e,
            resolveMarketOf copy marketId manualOutcome resolvedBy rid now s
            = (s', Threw e) -> s' = s).
  { intros copy mid manual by_ rid now s' e Hrun.
    exact (resolve_threw copy mid manual by_ rid now s s' e Hrun). }
  split; [| split; [| split; [exact Hres |]]].
  - intros req tid pid hid s' e Hrun.
    destruct (executeBuyTrade_cases req tid pid hid s)
      as [[_ E] | [(m & _ & _ & E) | [(m & _ & _ & _ & E)
         | [(m & u & _ & _ & _ & _ & E)
         | (m & u & pos & _ & _ & _ & _ & E)]]]];
      rewrite E in Hrun; apply pair_equal_spec in Hrun;
      destruct Hrun as [Hs Hr]; first [discriminate Hr | exact (eq_sym Hs)].
  - intros req tid hid s' e Hrun.
    destruct (executeSellTrade_cases req tid hid s)
      as [[_ E] | [(m & _ & _ & E) | [(m & _ & _ & _ & E)
         | (m & pos & _ & _ & Hp & _ & E)]]];
      cbv zeta in E; rewrite E in Hrun; apply pair_equal_spec in Hrun;
      destruct Hrun as [Hs Hr]; [exact (eq_sym Hs) .. |].
    destruct (getPosition_some _ _ _ _ _ Hp) as (Hin & Hu & _).
    specialize (Hown pos Hin). rewrite Hu in Hown.
    destruct (selectUser (userId req) s); [discriminate Hr | now elim Hown].
  - intros copy mid body rid now s' code e message Hpost.
    unfold ResolutionsRoute.postResolve in Hpost. cbv zeta in Hpost.
    destruct (if String.eqb (ResolutionsRoute.body_outcome body) "YES"
              then Some YES
              else if String.eqb (ResolutionsRoute.body_outcome body) "NO"
                   then Some NO else None) as [o |].
    2:{ apply pair_equal_spec in Hpost. destruct Hpost as [Hs _].
        exact (eq_sym Hs). }
    destruct (selectMarket mid s) as [m |].
    2:{ apply pair_equal_spec in Hpost. destruct Hpost as [Hs _].
        exact (eq_sym Hs). }
    destruct (MarketStatus_eqb (status m) resolved).
    { apply pair_equal_spec in Hpost. destruct Hpost as [Hs _].
      exact (eq_sym Hs). }
    destruct (resolveMarketOf copy mid (Some o)
                (Some (ResolutionsRoute.resolvedByOrManual
                         (ResolutionsRoute.body_resolved_by body)))
                rid now s) as [s1 [msg | res]] eqn:Hrun.
    + apply Hres in Hrun. apply pair_equal_spec in Hpost.
      destruct Hpost as [Hs _]. congruence.
    + apply pair_equal_spec in Hpost. destruct Hpost as [_ Hr].
      discriminate Hr.
Qed.

Lemma payoutStore_owners : owners_exist payoutStore.
Proof.
  intros p [<- | [<- | []]]; discriminate.
Qed.

Lemma failed_call_changes_nothing_witness :
  owners_exist payoutStore /\
  executeSellTrade
    (mkTradeRequest "m1" YES 31 SELL "A") "t1" "h1" payoutStore
  = (payoutStore, Threw "Insufficient shares to sell").
Proof.
  split; [exact payoutStore_owners |].
  destruct (executeSellTrade
              (mkTradeRequest "m1" YES 31 SELL "A") "t1" "h1" payoutStore)
    as [s' [e | resp]] eqn:Hrun.
  - destruct (failed_call_changes_nothing (H := failingFetcher) payoutStore
                payoutStore_owners) as (_ & Hsell & _).
    rewrite (Hsell _ _ _ _ _ Hrun).
    destruct (executeSellTrade_cases
                (mkTradeRequest "m1" YES 31 SELL "A") "t1" "h1" payoutStore)
      as [[E _] | [(m & E & Hn & _) | [(m & _ & _ & _ & E)
         | (m & pos & _ & _ & E & Hle & _)]]].
    + discriminate E.
    + injection E as <-. now elim Hn.
    + rewrite E in Hrun. apply pair_equal_spec in Hrun.
      destruct Hrun as [_ Hr]. injection Hr as <-. reflexivity.
    + injection E as <-. simpl in Hle. lra.
  - destruct (sell_returned _ _ _ _ _ _ Hrun)
      as (m & pos & u & _ & _ & Hp & Hle & _).
    injection Hp as <-. simpl in Hle. lra.
Defined.

Lemma balanceOf_debited (a : R) (id : string) (s : Store) (us' : list UserRow)
    (ms : list MarketRow) (ps : list PositionRow) (ts : list TransactionRow)
    (hs : list PriceHistoryRow) (rs : list ResolutionRow) (u : UserRow) :
  selectUser id s = Some u ->
  us' = map (debitUser a id) (users s) ->
  balanceOf id (mkStore us' ms ps ts hs rs) = Some (balance u - a).
Proof.
  intros Hu ->. unfold balanceOf, selectUser. cbn [users].
  unfold selectUser in Hu.
  rewrite (selectUser_debited a id (users s) u Hu). reflexivity.
Qed.

Lemma balanceOf_credited (a : R) (id : string) (s : Store) (us' : list UserRow)
    (ms : list MarketRow) (ps : list PositionRow) (ts : list TransactionRow)
    (hs : list PriceHistoryRow) (rs : list ResolutionRow) (u : UserRow) :
  selectUser id s = Some u ->
  us' = map (creditUser a id) (users s) ->
  balanceOf id (mkStore us' ms ps ts hs rs) = Some (balance u + a).
Proof.
  intros Hu ->. unfold balanceOf, selectUser. cbn [users].
  unfold selectUser in Hu.
  rewrite find_user_map by apply creditUser_id. rewrite Hu. simpl.
  apply find_some in Hu. destruct Hu as [_ Hu].
  unfold creditUser. rewrite Hu. reflexivity.
Qed.

Lemma getPosition_bought (req : TradeRequest) (pid : string)
    (result : TradeResult) (s : Store) (us : list UserRow)
    (ms : list MarketRow) (ts : list TransactionRow)
    (hs : list PriceHistoryRow) (rs : list ResolutionRow) :
  sharesOf (getPosition (userId req) (marketId req) (positionType req)
              (mkStore us ms (boughtPositions req pid result s) ts hs rs))
  = sharesOf (getPosition (userId req) (marketId req) (positionType req) s)
    + t_shares result.
Proof.
  unfold getPosition at 1. cbn [positions]. unfold boughtPositions.
  destruct (getPosition (userId req) (marketId req) (positionType req) s)
    as [existing |] eqn:Hpos; unfold getPosition in Hpos.
  - rewrite find_map_preserving
      by (intros p; destruct (String.eqb (p_id p) (p_id existing));
          reflexivity).
    rewrite Hpos. cbn [option_map]. rewrite String.eqb_refl.
    cbn [sharesOf shares]. reflexivity.
  - rewrite find_app_none by exact Hpos. cbn [find].
    cbn [p_user_id p_market_id p_position_type].
    rewrite !String.eqb_refl, PositionType_eqb_refl.
    cbn [andb sharesOf shares]. ring.
Qed.

Lemma NoDup_map_injective {A B : Type} (f : A -> B) (l : list A) (x y : A) :
  NoDup (map f l) -> In x l -> In y l -> f x = f y -> x = y.
Proof.
  induction l as [| a l IH]; simpl; intros Hnd Hx Hy Hf; [contradiction |].
  inversion Hnd as [| ? ? Hnotin Hnd']; subst.
  destruct Hx as [-> | Hx], Hy as [-> | Hy].
  - reflexivity.
  - elim Hnotin. rewrite Hf. now apply in_map.
  - elim Hnotin. rewrite <- Hf. now apply in_map.
  - now apply IH.
Qed.

Lemma getPosition_sold_keep (req : TradeRequest) (pos : PositionRow)
    (s : Store) (us : list UserRow) (ms : list MarketRow)
    (ts : list TransactionRow) (hs : list PriceHistoryRow)
    (rs : list ResolutionRow) :
  getPosition (userId req) (marketId req) (positionType req) s = Some pos ->
  0.0001 < shares pos - amount req ->
  sharesOf (getPosition (userId req) (marketId req) (positionType req)
              (mkStore us ms (soldPositions req pos s) ts hs rs))
  = shares pos - amount req.
Proof.
  intros Hp Hkeep. unfold getPosition. cbn [positions].
  unfold soldPositions.
  destruct (Rle_dec (shares pos - amount req) 0.0001) as [Hdust | _];
    [lra |].
  rewrite find_map_preserving
    by (intros p; destruct (String.eqb (p_id p) (p_id pos)); reflexivity).
  unfold getPosition in Hp. rewrite Hp. cbn [option_map].
  rewrite String.eqb_refl. reflexivity.
Qed.

Lemma getPosition_sold_gone (req : TradeRequest) (pos : PositionRow)
    (s : Store) (us : list UserRow) (ms : list MarketRow)
    (ts : list TransactionRow) (hs : list PriceHistoryRow)
    (rs : list ResolutionRow) :
  getPosition (userId req) (marketId req) (positionType req) s = Some pos ->
  positions_unique s ->
  shares pos - amount req <= 0.0001 ->
  getPosition (userId req) (marketId req) (positionType req)
    (mkStore us ms (soldPositions req pos s) ts hs rs) = None.
Proof.
  intros Hp Huniq Hdust. unfold getPosition at 1. cbn [positions].
  unfold soldPositions.
  destruct (Rle_dec (shares pos - amount req) 0.0001) as [_ | Hkeep];
    [| lra].
  destruct (find _ (filter _ (positions s))) as [x |] eqn:Hx;
    [| reflexivity].
  exfalso. apply find_some in Hx. destruct Hx as [Hin Hkey].
  apply filter_In in Hin. destruct Hin as [Hin Hne].
  destruct (getPosition_some _ _ _ _ _ Hp) as (Hin' & Hu' & Hm' & Hs').
  apply andb_true_iff in Hkey. destruct Hkey as [Hkey Hside].
  apply andb_true_iff in Hkey. destruct Hkey as [Hxu Hxm].
  apply String.eqb_eq in Hxu, Hxm. apply PositionType_eqb_eq in Hside.
  assert (x = pos).
  { apply (NoDup_map_injective positionKey (positions s)); trivial.
    unfold positionKey. congruence. }
  subst x. rewrite String.eqb_refl in Hne. discriminate.
Qed.

(** X10.  A buy that returns books the shares it reports three times over:
    the market's inventory of the side bought and the buyer's position both
    grow by [shares], the other side, the liquidity and the status of the
    market stay as they were, the buyer's balance falls by the amount, which
    is the [totalCost] of the response, and [newBalance] is the stored
    balance. *)
Theorem buy_books_the_shares (req : TradeRequest) (tid pid hid : string)
    (s s' : Store) (resp : TradeResponse) :
  executeBuyTrade req tid pid hid s = (s', Returned resp) ->
  exists market market' user,
    selectMarket (marketId req) s = Some market /\
    selectMarket (marketId req) s' = Some market' /\
    selectUser (userId req) s = Some user /\
    inventoryOf (positionType req) market'
    = inventoryOf (positionType req) market + tr_shares resp /\
    inventoryOf (otherSide (positionType req)) market'
    = inventoryOf (otherSide (positionType req)) market /\
    m_liquidity_pool market' = m_liquidity_pool market /\
    status market' = open /\
    sharesOf (getPosition (userId req) (marketId req) (positionType req) s')
    = sharesOf (getPosition (userId req) (marketId req) (positionType req) s)
      + tr_shares resp /\
    totalCost resp = amount req /\
    balanceOf (userId req) s' = Some (balance user - amount req) /\
    newBalance resp = balance user - amount req.
Proof.
  intros Hrun.
  destruct (buy_returned req tid pid hid s s' resp Hrun)
    as (m & u & Hm & Hst & Hu & _ & Hs & Hsh & _ & Hto & Hbal).
  pose proof (executeBuy_inventory (marketState m) (positionType req)
                (amount req)) as [Hy Hn].
  cbn [marketState total_yes_shares total_no_shares] in Hy, Hn.
  unfold boughtStore in Hs. cbv zeta in Hs.
  remember (executeBuy (marketState m) (positionType req) (amount req))
    as result eqn:Hresult in *. clear Hresult.
  exists m.
  exists (mkMarket (m_id m) (resolution_source m) (resolution_criteria m)
            (closes_at m) (resolved_at m) (outcome m)
            (t_newYesShares result) (t_newNoShares result)
            (m_liquidity_pool m) (status m)).
  exists u.
  split; [exact Hm |].
  split.
  { subst s'. unfold selectMarket. cbn [markets].
    apply find_withShares. exact Hm. }
  split; [exact Hu |].
  split.
  { rewrite Hsh. unfold inventoryOf.
    cbn [m_total_yes_shares m_total_no_shares].
    destruct (positionType req); [exact Hy | exact Hn]. }
  split.
  { unfold inventoryOf, otherSide.
    cbn [m_total_yes_shares m_total_no_shares].
    destruct (positionType req); [exact Hn | exact Hy]. }
  split; [reflexivity |].
  split; [exact Hst |].
  split.
  { subst s'. rewrite Hsh. apply getPosition_bought. }
  split; [exact Hto |].
  split; [| exact Hbal].
  subst s'. apply (balanceOf_debited _ _ s _ _ _ _ _ _ u Hu). reflexivity.
Qed.

Lemma buy_returns_at_payoutStore (tid pid hid : string) :
  exists s' resp,
    executeBuyTrade buyTen tid pid hid payoutStore = (s', Returned resp).
Proof.
  destruct (executeBuyTrade_cases buyTen tid pid hid payoutStore)
    as [[E _] | [(m & E & Hn & _) | [(m & _ & _ & E & _)
       | [(m & u & _ & _ & E & Hlt & _)
       | (m & u & pos & _ & _ & _ & _ & E)]]]].
  - discriminate E.
  - injection E as <-. now elim Hn.
  - discriminate E.
  - injection E as <-. simpl in Hlt. lra.
  - eexists _, _. exact E.
Defined.

Lemma buy_books_the_shares_witness :
  exists s' resp,
    executeBuyTrade buyTen "t1" "p1" "h1" payoutStore = (s', Returned resp) /\
    balanceOf "A" s' = Some (1000 - 10) /\
    sharesOf (getPosition "A" "m1" YES s') = 30 + tr_shares resp.
Proof.
  destruct (buy_returns_at_payoutStore "t1" "p1" "h1") as (s' & resp & E).
  exists s', resp. split; [exact E |].
  destruct (buy_books_the_shares buyTen "t1" "p1" "h1" payoutStore s' resp E)
    as (m & m' & u & _ & _ & Hu & _ & _ & _ & _ & Hp & _ & Hb & _).
  injection Hu as <-. split; [exact Hb | exact Hp].
Defined.

(** X11.  A sell that returns takes the shares sold out of the market's
    inventory of that side, leaves the other side, the liquidity and the
    status alone, and credits the seller with the [totalCost] of the
    response.  The position falls by the shares sold when more than 0.0001
    remain; otherwise, the key of a position being unique, the seller has no
    position left. *)
Theorem sell_books_the_shares (req : TradeRequest) (tid hid : string)
    (s s' : Store) (resp : TradeResponse) :
  executeSellTrade req tid hid s = (s', Returned resp) ->
  exists market market' user position_,
    selectMarket (marketId req) s = Some market /\
    selectMarket (marketId req) s' = Some market' /\
    selectUser (userId req) s = Some user /\
    getPosition (userId req) (marketId req) (positionType req) s
    = Some position_ /\
    tr_shares resp = amount req /\
    inventoryOf (positionType req) market'
    = inventoryOf (positionType req) market - amount req /\
    inventoryOf (otherSide (positionType req)) market'
    = inventoryOf (otherSide (positionType req)) market /\
    m_liquidity_pool market' = m_liquidity_pool market /\
    status market' = open /\
    balanceOf (userId req) s' = Some (balance user + totalCost resp) /\
    newBalance resp = balance user + totalCost resp /\
    (0.0001 < shares position_ - amount req ->
     sharesOf (getPosition (userId req) (marketId req) (positionType req) s')
     = shares position_ - amount req) /\
    (positions_unique s -> shares position_ - amount req <= 0.0001 ->
     getPosition (userId req) (marketId req) (positionType req) s' = None).
Proof.
  intros Hrun.
  destruct (sell_returned req tid hid s s' resp Hrun)
    as (m & pos & u & Hm & Hst & Hp & _ & Hu & Hs & Hsh & _ & Hto & Hbal).
  pose proof (executeSell_inventory (marketState m) (positionType req)
                (amount req)) as [Hy Hn].
  cbn [marketState total_yes_shares total_no_shares] in Hy, Hn.
  unfold soldStore in Hs. cbv zeta in Hs.
  remember (executeSell (marketState m) (positionType req) (amount req))
    as result eqn:Hresult in *. clear Hresult.
  exists m.
  exists (mkMarket (m_id m) (resolution_source m) (resolution_criteria m)
            (closes_at m) (resolved_at m) (outcome m)
            (t_newYesShares result) (t_newNoShares result)
            (m_liquidity_pool m) (status m)).
  exists u, pos.
  split; [exact Hm |].
  split.
  { subst s'. unfold selectMarket. cbn [markets].
    apply find_withShares. exact Hm. }
  split; [exact Hu |]. split; [exact Hp |]. split; [exact Hsh |].
  split.
  { unfold inventoryOf. cbn [m_total_yes_shares m_total_no_shares].
    destruct (positionType req); [exact Hy | exact Hn]. }
  split.
  { unfold inventoryOf, otherSide.
    cbn [m_total_yes_shares m_total_no_shares].
    destruct (positionType req); [exact Hn | exact Hy]. }
  split; [reflexivity |].
  split; [exact Hst |].
  split.
  { rewrite Hto. subst s'.
    apply (balanceOf_credited _ _ s _ _ _ _ _ _ u Hu). reflexivity. }
  split; [rewrite Hto; exact Hbal |].
  split.
  - intros Hkeep. subst s'. apply getPosition_sold_keep; assumption.
  - intros Huniq Hdust. subst s'. apply getPosition_sold_gone; assumption.
Qed.

Lemma sell_books_the_shares_witness :
  exists s' resp,
    executeSellTrade sellAll "t1" "h1" payoutStore = (s', Returned resp) /\
    getPosition "A" "m1" YES s' = None /\
    balanceOf "A" s' = Some (1000 + totalCost resp).
Proof.
  destruct (sell_returns_at_payoutStore sellAll "t1" "h1" eq_refl eq_refl
              eq_refl ltac:(simpl; lra)) as (s' & resp & E).
  exists s', resp. split; [exact E |].
  destruct (sell_books_the_shares sellAll "t1" "h1" payoutStore s' resp E)
    as (m & m' & u & pos & _ & _ & Hu & Hp & _ & _ & _ & _ & _ & Hb & _ & _
        & Hgone).
  injection Hu as <-. injection Hp as <-.
  split; [| exact Hb].
  apply Hgone; [exact payoutStore_positions_unique | simpl; lra].
Defined.

Lemma executeBuy_avg (st : MarketState) (side : PositionType) (a : R) :
  0 < a ->
  0 < t_shares (executeBuy st side a) /\
  t_shares (executeBuy st side a) * t_avgPricePerShare (executeBuy st side a)
  = a.
Proof.
  intros Ha. unfold executeBuy, getBuyQuote. cbv zeta.
  cbn [t_shares t_avgPricePerShare q_shares q_avgPricePerShare].
  pose proof (calculateSharesForAmount_pos st side a Ha) as [Hs _].
  revert Hs. generalize (calculateSharesForAmount st side a). intros x Hx.
  split; [exact Hx |].
  destruct (Rlt_dec 0 x); [field; lra | lra].
Qed.

Lemma costBasis_bought (req : TradeRequest) (pid : string)
    (result : TradeResult) (s : Store) (us : list UserRow)
    (ms : list MarketRow) (ts : list TransactionRow)
    (hs : list PriceHistoryRow) (rs : list ResolutionRow) :
  positions_ok s -> 0 < t_shares result ->
  t_shares result * t_avgPricePerShare result = amount req ->
  costBasisOf (getPosition (userId req) (marketId req) (positionType req)
                 (mkStore us ms (boughtPositions req pid result s) ts hs rs))
  = costBasisOf (getPosition (userId req) (marketId req) (positionType req) s)
    + amount req.
Proof.
  intros Hok Hpos Havg. unfold getPosition at 1. cbn [positions].
  unfold boughtPositions.
  destruct (getPosition (userId req) (marketId req) (positionType req) s)
    as [existing |] eqn:Hp.
  - destruct (getPosition_some _ _ _ _ _ Hp) as (Hin & _).
    specialize (Hok existing Hin). unfold getPosition in Hp.
    rewrite find_map_preserving
      by (intros p; destruct (String.eqb (p_id p) (p_id existing));
          reflexivity).
    rewrite Hp. cbn [option_map]. rewrite String.eqb_refl.
    cbn [costBasisOf shares avg_price]. field. lra.
  - unfold getPosition in Hp. rewrite find_app_none by exact Hp. cbn [find].
    cbn [p_user_id p_market_id p_position_type].
    rewrite !String.eqb_refl, PositionType_eqb_refl.
    cbn [andb costBasisOf shares avg_price]. lra.
Qed.

(** X12.  When no position is short, a buy for a positive amount raises the
    cost basis (shares times average price) of the buyer's position by
    exactly the amount paid, whether the position existed or is created. *)
Theorem cost_basis_accumulates (req : TradeRequest) (tid pid hid : string)
    (s s' : Store) (resp : TradeResponse) :
  positions_ok s -> 0 < amount req ->
  executeBuyTrade req tid pid hid s = (s', Returned resp) ->
  costBasisOf (getPosition (userId req) (marketId req) (positionType req) s')
  = costBasisOf (getPosition (userId req) (marketId req) (positionType req) s)
    + amount req.
Proof.
  intros Hok Ha Hrun.
  destruct (buy_returned req tid pid hid s s' resp Hrun)
    as (m & u & _ & _ & _ & _ & Hs & _).
  destruct (executeBuy_avg (marketState m) (positionType req) (amount req) Ha)
    as [Hpos Havg].
  subst s'. unfold boughtStore. cbv zeta.
  apply costBasis_bought; assumption.
Qed.

Lemma cost_basis_accumulates_witness :
  exists s' resp,
    executeBuyTrade buyTen "t1" "p1" "h1" payoutStore = (s', Returned resp) /\
    costBasisOf (getPosition "A" "m1" YES s') = 30 * 0.45 + 10.
Proof.
  destruct (buy_returns_at_payoutStore "t1" "p1" "h1") as (s' & resp & E).
  exists s', resp. split; [exact E |].
  destruct payoutStore_ok as [_ Hok].
  apply (cost_basis_accumulates buyTen "t1" "p1" "h1" payoutStore s' resp Hok);
    [simpl; lra | exact E].
Defined.

Lemma price_point_stored (s : Store) (mid hid : string) (y n : R)
    (m : MarketRow) (us : list UserRow) (ps : list PositionRow)
    (ts : list TransactionRow) (rs : list ResolutionRow) :
  selectMarket mid s = Some m ->
  exists market',
    selectMarket mid
      (mkStore us (map (withShares y n mid) (markets s)) ps ts
         (price_history s
          ++ [mkPricePoint hid mid
                (getYesPrice (mkMarketState y n (m_liquidity_pool m)))
                (getNoPrice (mkMarketState y n (m_liquidity_pool m)))]) rs)
    = Some market' /\
    m_total_yes_shares market' = y /\ m_total_no_shares market' = n /\
    price_history
      (mkStore us (map (withShares y n mid) (markets s)) ps ts
         (price_history s
          ++ [mkPricePoint hid mid
                (getYesPrice (mkMarketState y n (m_liquidity_pool m)))
                (getNoPrice (mkMarketState y n (m_liquidity_pool m)))]) rs)
    = price_history s
      ++ [mkPricePoint hid mid (getYesPrice (marketState market'))
            (getNoPrice (marketState market'))].
Proof.
  intros Hm.
  exists (mkMarket (m_id m) (resolution_source m) (resolution_criteria m)
            (closes_at m) (resolved_at m) (outcome m) y n
            (m_liquidity_pool m) (status m)).
  split; [| repeat split].
  unfold selectMarket. cbn [markets]. apply find_withShares. exact Hm.
Qed.

(** After a returned trade the market is still in the markets table. *)
Lemma market_found_after_trade (req : TradeRequest) (tid pid hid : string)
    (s s' : Store) (resp : TradeResponse) :
  executeBuyTrade req tid pid hid s = (s', Returned resp) \/
  executeSellTrade req tid hid s = (s', Returned resp) ->
  exists market', selectMarket (marketId req) s' = Some market'.
Proof.
  intros [Hrun | Hrun].
  - destruct (buy_returned req tid pid hid s s' resp Hrun)
      as (m & u & Hm & _ & _ & _ & Hs & _).
    subst s'. unfold boughtStore. cbv zeta. unfold selectMarket.
    cbn [markets]. eexists. apply find_withShares. exact Hm.
  - destruct (sell_returned req tid hid s s' resp Hrun)
      as (m & pos & u & Hm & _ & _ & _ & _ & Hs & _).
    subst s'. unfold soldStore. cbv zeta. unfold selectMarket.
    cbn [markets]. eexists. apply find_withShares. exact Hm.
Qed.

(** X13.  The price point that a returned buy or sell appends to the price
    history carries the spot prices of the market row as it is stored after
    the trade; nothing else is appended. *)
Theorem price_point_is_the_spot_price (req : TradeRequest)
    (tid pid hid : string) (s s' : Store) (resp : TradeResponse) :
  executeBuyTrade req tid pid hid s = (s', Returned resp) \/
  executeSellTrade req tid hid s = (s', Returned resp) ->
  exists market',
    selectMarket (marketId req) s' = Some market' /\
    price_history s'
    = price_history s
      ++ [mkPricePoint hid (marketId req) (getYesPrice (marketState market'))
            (getNoPrice (marketState market'))].
Proof.
  intros [Hrun | Hrun].
  - destruct (buy_returned req tid pid hid s s' resp Hrun)
      as (m & u & Hm & _ & _ & _ & Hs & _).
    subst s'. unfold boughtStore. cbv zeta.
    destruct (price_point_stored s (marketId req) hid
                (t_newYesShares (executeBuy (marketState m) (positionType req)
                                   (amount req)))
                (t_newNoShares (executeBuy (marketState m) (positionType req)
                                  (amount req)))
                m
                (map (debitUser (amount req) (userId req)) (users s))
                (boughtPositions req pid
                   (executeBuy (marketState m) (positionType req)
                      (amount req)) s)
                (transactions s
                 ++ [mkTransaction tid (userId req) (marketId req) BUY
                       (positionType req)
                       (t_shares (executeBuy (marketState m)
                                    (positionType req) (amount req)))
                       (t_avgPricePerShare
                          (executeBuy (marketState m) (positionType req)
                             (amount req)))
                       (amount req)])
                (resolutions s) Hm) as (m' & Hm' & _ & _ & Hh).
    exists m'. split; [exact Hm' | exact Hh].
  - destruct (sell_returned req tid hid s s' resp Hrun)
      as (m & pos & u & Hm & _ & _ & _ & _ & Hs & _).
    subst s'. unfold soldStore. cbv zeta.
    destruct (price_point_stored s (marketId req) hid
                (t_newYesShares (executeSell (marketState m)
                                   (positionType req) (amount req)))
                (t_newNoShares (executeSell (marketState m) (positionType req)
                                  (amount req)))
                m
                (map (creditUser
                        (t_totalCost (executeSell (marketState m)
                                        (positionType req) (amount req)))
                        (userId req)) (users s))
                (soldPositions req pos s)
                (transactions s
                 ++ [mkTransaction tid (userId req) (marketId req) SELL
                       (positionType req) (amount req)
                       (t_avgPricePerShare
                          (executeSell (marketState m) (positionType req)
                             (amount req)))
                       (t_totalCost (executeSell (marketState m)
                                       (positionType req) (amount req)))])
                (resolutions s) Hm) as (m' & Hm' & _ & _ & Hh).
    exists m'. split; [exact Hm' | exact Hh].
Qed.

Lemma price_point_is_the_spot_price_witness :
  exists s' resp market',
    executeSellTrade sellTen "t1" "h1" payoutStore = (s', Returned resp) /\
    selectMarket "m1" s' = Some market' /\
    price_history s'
    = [mkPricePoint "h1" "m1" (getYesPrice (marketState market'))
         (getNoPrice (marketState market'))].
Proof.
  destruct (sell_returns_at_payoutStore sellTen "t1" "h1" eq_refl eq_refl
              eq_refl ltac:(simpl; lra)) as (s' & resp & E).
  destruct (price_point_is_the_spot_price sellTen "t1" "p1" "h1" payoutStore
              s' resp (or_intror E)) as (m' & Hm' & Hh).
  exists s', resp, m'. split; [exact E |]. split; [exact Hm' | exact Hh].
Defined.

Lemma fold_left_total (ts : list TransactionRow) (init : R) :
  fold_left (fun total t => total + total_cost t) ts init
  = init + fold_left (fun total t => total + total_cost t) ts 0.
Proof.
  revert init. induction ts as [| t ts IH]; intros init; simpl; [lra |].
  rewrite (IH (init + total_cost t)), (IH (0 + total_cost t)). lra.
Qed.

(** One more transaction of a market raises its volume by the total of the
    transaction and its transaction count by one. *)
Lemma stats_appended (s s1 : Store) (t : TransactionRow) :
  transactions s1 = transactions s ++ [t] ->
  selectVolume (x_market_id t) s1
  = selectVolume (x_market_id t) s + total_cost t /\
  countTransactions (x_market_id t) s1
  = S (countTransactions (x_market_id t) s).
Proof.
  intros Hts. unfold selectVolume, countTransactions. rewrite Hts.
  rewrite filter_app. simpl. rewrite String.eqb_refl.
  rewrite fold_left_app, length_app. simpl. split; [reflexivity | lia].
Qed.

Lemma stats_appended_other (s s1 : Store) (t : TransactionRow)
    (other : string) :
  transactions s1 = transactions s ++ [t] ->
  other <> x_market_id t ->
  selectVolume other s1 = selectVolume other s /\
  countTransactions other s1 = countTransactions other s /\
  countTraders other s1 = countTraders other s.
Proof.
  intros Hts Hne. unfold selectVolume, countTransactions, countTraders.
  rewrite Hts, filter_app. simpl.
  destruct (String.eqb (x_market_id t) other) eqn:E.
  - apply String.eqb_eq in E. congruence.
  - rewrite app_nil_r. repeat split; reflexivity.
Qed.

(** X14.  GET /:id/stats follows the trades: after a returned buy or sell on
    a market, its volume has grown by the [totalCost] of the response (the
    amount paid, or the proceeds of the sale) and its transaction count by
    one, while the volume, the transaction count and the trader count of
    every other market are unchanged. *)
Theorem stats_follow_trades (req : TradeRequest) (tid pid hid : string)
    (s s' : Store) (resp : TradeResponse) :
  executeBuyTrade req tid pid hid s = (s', Returned resp) \/
  executeSellTrade req tid hid s = (s', Returned resp) ->
  (exists before after,
     getStats (marketId req) s = StatsJson before /\
     getStats (marketId req) s' = StatsJson after /\
     volume after = volume before + totalCost resp /\
     stat_transactions after = S (stat_transactions before)) /\
  (forall other, other <> marketId req ->
     selectVolume other s' = selectVolume other s /\
     countTransactions other s' = countTransactions other s /\
     countTraders other s' = countTraders other s).
Proof.
  intros Hrun.
  assert (Hfacts : exists m t,
            selectMarket (marketId req) s = Some m /\
            transactions s' = transactions s ++ [t] /\
            x_market_id t = marketId req /\ total_cost t = totalCost resp).
  { destruct Hrun as [Hrun | Hrun].
    - destruct (buy_returned req tid pid hid s s' resp Hrun)
        as (m & u & Hm & _ & _ & _ & Hs & _ & _ & Hto & _).
      exists m. subst s'. unfold boughtStore. cbv zeta. cbn [transactions].
      eexists. split; [exact Hm |]. split; [reflexivity |].
      split; [reflexivity |]. cbn [total_cost]. now symmetry.
    - destruct (sell_returned req tid hid s s' resp Hrun)
        as (m & pos & u & Hm & _ & _ & _ & _ & Hs & _ & _ & Hto & _).
      exists m. subst s'. unfold soldStore. cbv zeta. cbn [transactions].
      eexists. split; [exact Hm |]. split; [reflexivity |].
      split; [reflexivity |]. cbn [total_cost]. now symmetry. }
  destruct (market_found_after_trade req tid pid hid s s' resp Hrun)
    as (m' & Hm').
  destruct Hfacts as (m & t & Hm & Hts & Hid & Hcost).
  destruct (stats_appended s s' t Hts) as [Hvol Hcount].
  rewrite Hid, Hcost in *.
  split.
  - unfold getStats. rewrite Hm, Hm'. eexists _, _.
    split; [reflexivity |]. split; [reflexivity |].
    cbn [volume stat_transactions]. split; assumption.
  - intros other Hne. apply (stats_appended_other s s' t other Hts).
    congruence.
Qed.

Lemma stats_follow_trades_witness :
  exists s' resp before after,
    executeBuyTrade buyTen "t1" "p1" "h1" payoutStore = (s', Returned resp) /\
    getStats "m1" payoutStore = StatsJson before /\
    getStats "m1" s' = StatsJson after /\
    volume after = volume before + 10.
Proof.
  destruct (buy_returns_at_payoutStore "t1" "p1" "h1") as (s' & resp & E).
  destruct (stats_follow_trades buyTen "t1" "p1" "h1" payoutStore s' resp
              (or_introl E)) as [(b & a & Hb & Ha & Hv & _) _].
  destruct (buy_returned _ _ _ _ _ _ _ E)
    as (_ & _ & _ & _ & _ & _ & _ & _ & _ & Hto & _).
  exists s', resp, b, a. rewrite Hto in Hv.
  split; [exact E |]. split; [exact Hb |]. split; [exact Ha | exact Hv].
Defined.

End TradeFacts.

(** * Further properties of the resolver *)

Section ResolverFacts.
Import AmmEngine Db TradingService DataSourceService ResolutionCommon Invariants
  Scenarios ResolutionProofRoute ResolverJob MoreInvariants.

Lemma settles_nil : settles [] (fun m => m).
Proof.
  repeat split; intros; simpl in *; tauto.
Qed.

Lemma settles_compose (id : string) (ids : list string)
    (g f : MarketRow -> MarketRow) :
  settles [id] g -> settles ids f -> settles (id :: ids) (fun m => f (g m)).
Proof.
  intros (Gid & Gsame & Gkeep & Ghit) (Fid & Fsame & Fkeep & Fhit).
  repeat split.
  - intros m. rewrite Fid. apply Gid.
  - intros m. destruct (Gsame m) as [E | Hne].
    + rewrite E. apply Fsame.
    + right. apply Fkeep. exact Hne.
  - intros m Hst. apply Fkeep, Gkeep. exact Hst.
  - intros m [E | Hin].
    + apply Fkeep, Ghit. now left.
    + apply Fhit. rewrite Gid. exact Hin.
Qed.

Lemma settles_closedMarket (id : string) : settles [id] (closedMarket id).
Proof.
  unfold closedMarket. repeat split.
  - intros m. destruct (String.eqb _ _); reflexivity.
  - intros m. destruct (String.eqb _ _); [right; discriminate | now left].
  - intros m Hst. destruct (String.eqb _ _); [discriminate | exact Hst].
  - intros m [E | []]. symmetry in E. apply String.eqb_eq in E. rewrite E.
    discriminate.
Qed.

Lemma settles_resolvedMarket (o : PositionType) (id now : string) :
  settles [id] (resolvedMarket o id now).
Proof.
  unfold resolvedMarket. repeat split.
  - intros m. destruct (String.eqb _ _); reflexivity.
  - intros m. destruct (String.eqb _ _); [right; discriminate | now left].
  - intros m Hst. destruct (String.eqb _ _); [discriminate | exact Hst].
  - intros m [E | []]. symmetry in E. apply String.eqb_eq in E. rewrite E.
    discriminate.
Qed.

(** The loop of the scheduler never throws, and what it does to the markets
    table is a change that settles every market it was given. *)
Lemma resolveEach_settles `{DataFetcher} (copy : ResolverCopy)
    (draw : nat -> string * string) (due : list MarketRow) :
  forall k s,
  snd (resolveEach copy due k draw s) = Returned tt /\
  exists f,
    settles (map m_id due) f /\
    markets (fst (resolveEach copy due k draw s)) = map f (markets s).
Proof.
  induction due as [| d rest IH]; intros k s.
  - split; [reflexivity |]. exists (fun m => m).
    split; [exact settles_nil |]. simpl. symmetry. apply map_id.
  - cbn [resolveEach].
    destruct (resolveMarketOf copy (m_id d) None None (fst (draw k))
                (snd (draw k)) s) as [s1 [e | res]] eqn:Hrun.
    + apply resolve_threw in Hrun. subst s1.
      unfold bind, markClosed, modify.
      destruct (IH (S k)
                  (mkStore (users s)
                     (map (fun m =>
                             if String.eqb (m_id m) (m_id d)
                             then mkMarket (m_id m) (resolution_source m)
                                    (resolution_criteria m) (closes_at m)
                                    (resolved_at m) (outcome m)
                                    (m_total_yes_shares m)
                                    (m_total_no_shares m)
                                    (m_liquidity_pool m) closed
                             else m) (markets s))
                     (positions s) (transactions s) (price_history s)
                     (resolutions s)))
        as (Hret & f & Hf & Hmk).
      split; [exact Hret |].
      exists (fun m => f (closedMarket (m_id d) m)).
      split; [apply settles_compose;
              [apply settles_closedMarket | exact Hf] |].
      rewrite Hmk. cbn [markets]. rewrite map_map. reflexivity.
    + destruct (resolve_returned _ _ _ _ _ _ _ _ _ Hrun)
        as (market & dt & _ & _ & _ & Hs & _).
      destruct (IH (S k) s1) as (Hret & f & Hf & Hmk).
      split; [exact Hret |].
      exists (fun m => f (resolvedMarket (d_outcome dt) (m_id d)
                            (snd (draw k)) m)).
      split; [apply settles_compose;
              [apply settles_resolvedMarket | exact Hf] |].
      rewrite Hmk, Hs. unfold settledStore. cbn [markets].
      rewrite map_map. reflexivity.
Qed.

(** X15.  A tick of the scheduler, in either copy of the resolver and
    whatever the source answers, returns without throwing and leaves no
    market that its own query [getMarketsForResolution] would still find due
    at the same clock reading. *)
Theorem tick_leaves_nothing_due `{DataFetcher} (copy : ResolverCopy)
    (now : string) (draw : nat -> string * string) (s : Store) :
  snd (triggerResolutionCheck copy now draw s) = Returned tt /\
  getMarketsForResolutionOf copy now
    (fst (triggerResolutionCheck copy now draw s)) = [].
Proof.
  unfold triggerResolutionCheck, checkAndResolveMarkets, bind, gets.
  destruct (resolveEach_settles copy draw
              (getMarketsForResolutionOf copy now s) 0 s)
    as (Hret & f & (Fid & Fsame & Fkeep & Fhit) & Hmk).
  split; [exact Hret |].
  assert (Hdue : forall test : MarketRow -> bool,
            (forall m, test m = true -> status m = open) ->
            filter test (map f (markets s)) <> [] ->
            exists m, In m (markets s) /\ test m = true /\ f m = m).
  { intros test Hopen Hne.
    destruct (filter test (map f (markets s))) as [| x xs] eqn:Hx;
      [now elim Hne |].
    assert (Hin : In x (filter test (map f (markets s))))
      by (rewrite Hx; now left).
    apply filter_In in Hin. destruct Hin as [Hin Ht].
    apply in_map_iff in Hin. destruct Hin as (m & <- & Hm).
    exists m. split; [exact Hm |].
    destruct (Fsame m) as [E | Hno].
    - rewrite E in Ht. split; [exact Ht | exact E].
    - elim Hno. apply Hopen. exact Ht. }
  destruct copy; cbn [getMarketsForResolutionOf] in *;
    unfold ResolutionService.getMarketsForResolution,
      ResolutionServiceNoFallback.getMarketsForResolution in *;
    rewrite Hmk;
    match goal with
    | |- filter ?test _ = [] =>
        destruct (filter test (map f (markets s))) as [| x xs] eqn:Hx;
          [reflexivity | exfalso];
        destruct (Hdue test) as (m & Hm & Ht & E);
          [ intros m0 Hm0; repeat (apply andb_true_iff in Hm0;
                                   destruct Hm0 as [Hm0 _]);
            apply MarketStatus_eqb_open; exact Hm0
          | rewrite Hx; discriminate
          | apply (Fhit m);
            [ apply in_map, filter_In; split; assumption
            | rewrite E;
              repeat (apply andb_true_iff in Ht; destruct Ht as [Ht _]);
              apply MarketStatus_eqb_open; exact Ht ] ]
    end.
Qed.

Lemma find_unique_market (ms : list MarketRow) (m : MarketRow) :
  NoDup (map m_id ms) -> In m ms ->
  find (fun m0 => String.eqb (m_id m0) (m_id m)) ms = Some m.
Proof.
  induction ms as [| a ms IH]; simpl; intros Hnd Hin; [contradiction |].
  inversion Hnd as [| ? ? Hnotin Hnd']; subst.
  destruct Hin as [-> | Hin].
  - rewrite String.eqb_refl. reflexivity.
  - destruct (String.eqb (m_id a) (m_id m)) eqn:E.
    + apply String.eqb_eq in E. elim Hnotin. rewrite E. now apply in_map.
    + now apply IH.
Qed.

Lemma NoDup_map_filter {A B : Type} (f : A -> B) (test : A -> bool)
    (l : list A) :
  NoDup (map f l) -> NoDup (map f (filter test l)).
Proof.
  induction l as [| a l IH]; simpl; intros Hnd; [constructor |].
  inversion Hnd as [| ? ? Hnotin Hnd']; subst.
  destruct (test a); simpl; [| now apply IH].
  constructor; [| now apply IH].
  intros Hin. apply Hnotin. apply in_map_iff in Hin.
  destruct Hin as (x & Hx & Hin). apply filter_In in Hin.
  rewrite <- Hx. apply in_map. tauto.
Qed.

Lemma settled_resolutions_found (s : Store) (market : MarketRow)
    (marketId : string) (d : Determination) (by_ rid now : string) :
  exists r,
    In r (resolutions (settledStore s market marketId d by_ rid now)) /\
    r_market_id r = marketId.
Proof.
  exists (resolutionRowOf market marketId d by_ rid).
  split; [| reflexivity]. unfold settledStore. cbn [resolutions].
  apply in_or_app. right. now left.
Qed.

(** With the fallback, and on a store whose resolution rows all belong to
    resolved markets, the loop resolves every market it is given, one after
    the other, and touches no other market. *)
Lemma resolveEach_fallback `{DataFetcher} (draw : nat -> string * string)
    (due : list MarketRow) :
  forall k s,
  resolutions_consistent s -> NoDup (map m_id due) ->
  (forall d, In d due ->
     exists m, selectMarket (m_id d) s = Some m /\ status m <> resolved) ->
  resolutions_consistent (fst (resolveEach WithFallback due k draw s)) /\
  incl (resolutions s)
    (resolutions (fst (resolveEach WithFallback due k draw s))) /\
  (forall d, In d due ->
     exists m',
       selectMarket (m_id d) (fst (resolveEach WithFallback due k draw s))
       = Some m' /\ status m' = resolved /\
       exists r,
         In r (resolutions (fst (resolveEach WithFallback due k draw s))) /\
         r_market_id r = m_id d) /\
  (forall id, ~ In id (map m_id due) ->
     selectMarket id (fst (resolveEach WithFallback due k draw s))
     = selectMarket id s).
Proof.
  induction due as [| d rest IH]; intros k s Hc Hnd Hopen.
  - simpl. repeat split; try tauto. apply incl_refl.
  - inversion Hnd as [| ? ? Hnotin Hnd']; subst.
    destruct (Hopen d (or_introl eq_refl)) as (m & Hm & Hst).
    destruct (fallback_returns (m_id d) None None (fst (draw k))
                (snd (draw k)) s m Hm Hst
                (no_resolution_row s (m_id d) m Hc Hm Hst)) as (res & Hrun).
    cbn [resolveEach]. rewrite Hrun.
    set (s1 := settledStore s m (m_id d)
                 (ResolutionService.determine m None) (resolvedByOrAuto None)
                 (fst (draw k)) (snd (draw k))) in *.
    assert (Hc1 : resolutions_consistent s1)
      by (apply (settledStore_consistent s m m); assumption).
    assert (Hother : forall id, id <> m_id d ->
              selectMarket id s1 = selectMarket id s)
      by (intros id Hne; apply selectMarket_settled_other; exact Hne).
    assert (Hopen1 : forall d', In d' rest ->
              exists m', selectMarket (m_id d') s1 = Some m' /\
                         status m' <> resolved).
    { intros d' Hin. rewrite Hother.
      - apply Hopen. now right.
      - intros E. apply Hnotin. rewrite <- E. now apply in_map. }
    destruct (IH (S k) s1 Hc1 Hnd' Hopen1) as (Hc' & Hincl & Hres & Hrest).
    split; [exact Hc' |].
    split.
    { apply incl_tran with (resolutions s1); [| exact Hincl].
      unfold s1, settledStore. cbn [resolutions]. apply incl_appl, incl_refl. }
    split.
    + intros d0 [<- | Hin]; [| now apply Hres].
      rewrite (Hrest (m_id d) Hnotin).
      eexists. split; [apply selectMarket_settled; exact Hm |].
      split; [reflexivity |].
      destruct (settled_resolutions_found s m (m_id d)
                  (ResolutionService.determine m None) (resolvedByOrAuto None)
                  (fst (draw k)) (snd (draw k))) as (r & Hr & Hid).
      exists r. split; [apply Hincl; exact Hr | exact Hid].
    + intros id Hnot. rewrite Hrest.
      * apply Hother. intros E. apply Hnot. left. now symmetry.
      * intros Hin. apply Hnot. now right.
Qed.

(** X16.  With the fallback copy, on a store with unique market ids whose
    resolution rows all belong to resolved markets, one tick of the
    scheduler resolves every open market whose closing time has passed,
    whatever its source answers: the market is marked resolved and has a
    resolution row.  Every other market row is left exactly as it was. *)
Theorem tick_with_fallback_resolves_all `{DataFetcher} (now : string)
    (draw : nat -> string * string) (s : Store) :
  markets_unique s -> resolutions_consistent s ->
  let s' := fst (triggerResolutionCheck WithFallback now draw s) in
  (forall m, In m (markets s) -> status m = open ->
     String.leb (closes_at m) now = true ->
     exists m',
       selectMarket (m_id m) s' = Some m' /\ status m' = resolved /\
       exists r, In r (resolutions s') /\ r_market_id r = m_id m) /\
  (forall m, In m (markets s) ->
     ~ (status m = open /\ String.leb (closes_at m) now = true) ->
     selectMarket (m_id m) s' = Some m) /\
  resolutions_consistent s'.
Proof.
  intros Huniq Hc s'. unfold s', triggerResolutionCheck,
    checkAndResolveMarkets, bind, gets.
  cbn [getMarketsForResolutionOf fst].
  assert (Hdue : forall m,
            In m (ResolutionService.getMarketsForResolution now s) <->
            In m (markets s) /\ status m = open /\
            String.leb (closes_at m) now = true).
  { intros m. unfold ResolutionService.getMarketsForResolution.
    rewrite filter_In, andb_true_iff, MarketStatus_eqb_open. tauto. }
  destruct (resolveEach_fallback draw
              (ResolutionService.getMarketsForResolution now s) 0 s Hc)
    as (Hc' & _ & Hres & Hrest).
  - apply NoDup_map_filter. exact Huniq.
  - intros d Hd. apply Hdue in Hd. destruct Hd as (Hin & Hst & _).
    exists d. split; [apply find_unique_market; assumption |].
    rewrite Hst. discriminate.
  - split; [| split; [| exact Hc']].
    + intros m Hin Hst Hle. apply Hres, Hdue. tauto.
    + intros m Hin Hnot. rewrite Hrest.
      * apply find_unique_market; assumption.
      * intros Hid. apply in_map_iff in Hid. destruct Hid as (d & Hid & Hd).
        apply Hdue in Hd. destruct Hd as (Hd & Hst & Hle).
        assert (d = m)
          by (apply (NoDup_map_injective m_id (markets s)); assumption).
        subst d. tauto.
Qed.

Lemma tick_with_fallback_resolves_all_witness :
  exists m',
    selectMarket "m2"
      (fst (triggerResolutionCheck (H := failingFetcher) WithFallback today
              (fun _ => ("r1"%string, today)) manualStore)) = Some m' /\
    status m' = resolved.
Proof.
  assert (Hu : markets_unique manualStore).
  { unfold markets_unique. simpl. constructor; [intros [] | constructor]. }
  assert (Hc : resolutions_consistent manualStore) by (intros r []).
  destruct (tick_with_fallback_resolves_all (H := failingFetcher) today
              (fun _ => ("r1"%string, today)) manualStore Hu Hc)
    as (Hres & _).
  destruct (Hres manualMarket (or_introl eq_refl) eq_refl eq_refl)
    as (m' & Hm' & Hst & _).
  exists m'. split; [exact Hm' | exact Hst].
Defined.

(** Without the fallback, the loop closes every market whose source fails
    and changes nothing else. *)
Lemma resolveEach_source_down `{DataFetcher} (draw : nat -> string * string)
    (due : list MarketRow) :
  forall k s,
  NoDup (map m_id due) ->
  (forall d, In d due ->
     selectMarket (m_id d) s = Some d /\ status d <> resolved /\
     exists e, consultSource d = Threw e) ->
  users (fst (resolveEach WithoutFallback due k draw s)) = users s /\
  positions (fst (resolveEach WithoutFallback due k draw s)) = positions s /\
  resolutions (fst (resolveEach WithoutFallback due k draw s))
  = resolutions s /\
  transactions (fst (resolveEach WithoutFallback due k draw s))
  = transactions s /\
  price_history (fst (resolveEach WithoutFallback due k draw s))
  = price_history s /\
  (forall d, In d due ->
     selectMarket (m_id d) (fst (resolveEach WithoutFallback due k draw s))
     = Some (closedMarket (m_id d) d)) /\
  (forall id, ~ In id (map m_id due) ->
     selectMarket id (fst (resolveEach WithoutFallback due k draw s))
     = selectMarket id s).
Proof.
  induction due as [| d rest IH]; intros k s Hnd Hdown.
  - simpl. repeat split; tauto.
  - inversion Hnd as [| ? ? Hnotin Hnd']; subst.
    destruct (Hdown d (or_introl eq_refl)) as (Hm & Hst & e & He).
    assert (Hrun : resolveMarketOf WithoutFallback (m_id d) None None
                     (fst (draw k)) (snd (draw k)) s = (s, Threw e)).
    { destruct (resolveMarket_cases WithoutFallback (m_id d) None None
                  (fst (draw k)) (snd (draw k)) s)
        as [[E _] | [(m & E & Hres & _) | [(m & msg & E & _ & _ & _ & Hc & Hr)
           | (m & dt & E & _ & _ & _ & Hc & _)]]].
      - congruence.
      - rewrite Hm in E. injection E as <-. contradiction.
      - rewrite Hm in E. injection E as <-. rewrite He in Hc.
        injection Hc as <-. exact Hr.
      - rewrite Hm in E. injection E as <-.
        rewrite (Hc eq_refl eq_refl) in He. discriminate He. }
    cbn [resolveEach]. rewrite Hrun. unfold bind, markClosed, modify.
    set (s1 := mkStore (users s) _ (positions s) (transactions s)
                 (price_history s) (resolutions s)).
    assert (Hsame : forall id,
              selectMarket id s1
              = option_map (closedMarket (m_id d)) (selectMarket id s)).
    { intros id. unfold selectMarket, s1. cbn [markets].
      apply (find_market_map (closedMarket (m_id d))).
      intros m. unfold closedMarket. destruct (String.eqb _ _); reflexivity. }
    assert (Hother : forall id, id <> m_id d ->
              selectMarket id s1 = selectMarket id s).
    { intros id Hne. rewrite Hsame.
      destruct (selectMarket id s) as [m |] eqn:E; [| reflexivity].
      apply find_some in E. destruct E as [_ E]. apply String.eqb_eq in E.
      simpl. unfold closedMarket.
      destruct (String.eqb (m_id m) (m_id d)) eqn:E'; [| reflexivity].
      apply String.eqb_eq in E'. congruence. }
    destruct (IH (S k) s1 Hnd')
      as (Hu & Hp & Hr & Ht & Hh & Hclosed & Hrest).
    { intros d' Hin. destruct (Hdown d' (or_intror Hin)) as (Hm' & Hrest').
      split; [| exact Hrest']. rewrite Hother; [exact Hm' |].
      intros E. apply Hnotin. rewrite <- E. now apply in_map. }
    split; [exact Hu |]. split; [exact Hp |]. split; [exact Hr |].
    split; [exact Ht |]. split; [exact Hh |].
    split.
    + intros d0 [<- | Hin]; [| now apply Hclosed].
      rewrite (Hrest (m_id d) Hnotin), Hsame, Hm. reflexivity.
    + intros id Hnot. rewrite Hrest.
      * apply Hother. intros E. apply Hnot. left. now symmetry.
      * intros Hin. apply Hnot. now right.
Qed.

(** X17.  Without the fallback, on a store with unique market ids, a tick
    of the scheduler during which the source of every due market fails pays
    nobody and writes no resolution row: it only sets the status of each
    due market to closed, leaving its outcome empty. *)
Theorem tick_without_fallback_closes `{DataFetcher} (now : string)
    (draw : nat -> string * string) (s : Store) :
  markets_unique s ->
  (forall m,
     In m (ResolutionServiceNoFallback.getMarketsForResolution now s) ->
     exists e, consultSource m = Threw e) ->
  let s' := fst (triggerResolutionCheck WithoutFallback now draw s) in
  users s' = users s /\ positions s' = positions s /\
  resolutions s' = resolutions s /\ transactions s' = transactions s /\
  price_history s' = price_history s /\
  (forall m,
     In m (ResolutionServiceNoFallback.getMarketsForResolution now s) ->
     exists m',
       selectMarket (m_id m) s' = Some m' /\ status m' = closed /\
       outcome m' = outcome m /\ resolved_at m' = resolved_at m /\
       marketState m' = marketState m) /\
  (forall m, In m (markets s) ->
     ~ In m (ResolutionServiceNoFallback.getMarketsForResolution now s) ->
     selectMarket (m_id m) s' = Some m).
Proof.
  intros Huniq Hdown s'. unfold s', triggerResolutionCheck,
    checkAndResolveMarkets, bind, gets.
  cbn [getMarketsForResolutionOf fst].
  destruct (resolveEach_source_down draw
              (ResolutionServiceNoFallback.getMarketsForResolution now s) 0 s)
    as (Hu & Hp & Hr & Ht & Hh & Hclosed & Hrest).
  - apply NoDup_map_filter. exact Huniq.
  - intros d Hd. pose proof (Hdown d Hd) as He.
    unfold ResolutionServiceNoFallback.getMarketsForResolution in Hd.
    apply filter_In in Hd. destruct Hd as [Hin Hd].
    apply andb_true_iff in Hd. destruct Hd as [Hd _].
    apply andb_true_iff in Hd. destruct Hd as [Hd _].
    apply MarketStatus_eqb_open in Hd.
    split; [apply find_unique_market; assumption |].
    split; [rewrite Hd; discriminate | exact He].
  - split; [exact Hu |]. split; [exact Hp |]. split; [exact Hr |].
    split; [exact Ht |]. split; [exact Hh |]. split.
    + intros m Hm. exists (closedMarket (m_id m) m).
      split; [apply Hclosed; exact Hm |].
      unfold closedMarket. rewrite String.eqb_refl. repeat split.
    + intros m Hin Hnot. rewrite Hrest.
      * apply find_unique_market; assumption.
      * intros Hid. apply in_map_iff in Hid. destruct Hid as (d & Hid & Hd).
        assert (Hd' : In d (markets s)).
        { unfold ResolutionServiceNoFallback.getMarketsForResolution in Hd.
          apply filter_In in Hd. tauto. }
        assert (d = m)
          by (apply (NoDup_map_injective m_id (markets s)); assumption).
        subst d. contradiction.
Qed.

Lemma tick_without_fallback_closes_witness :
  users (fst (triggerResolutionCheck (H := failingFetcher) WithoutFallback
                "2100-01-01T00:00:00.000Z" (fun _ => ("r1"%string, today))
                payoutStore)) = users payoutStore /\
  exists m',
    selectMarket "m1"
      (fst (triggerResolutionCheck (H := failingFetcher) WithoutFallback
              "2100-01-01T00:00:00.000Z" (fun _ => ("r1"%string, today))
              payoutStore)) = Some m' /\
    status m' = closed.
Proof.
  assert (Hu : markets_unique payoutStore).
  { unfold markets_unique. simpl. constructor; [intros [] | constructor]. }
  destruct (tick_without_fallback_closes (H := failingFetcher)
              "2100-01-01T00:00:00.000Z" (fun _ => ("r1"%string, today))
              payoutStore Hu) as (Husers & _ & _ & _ & _ & Hclosed & _).
  - intros m [<- | []]. eexists. reflexivity.
  - split; [exact Husers |].
    destruct (Hclosed marketM1 (or_introl eq_refl)) as (m' & Hm' & Hst & _).
    exists m'. split; [exact Hm' | exact Hst].
Defined.

Lemma find_none_of_existsb {A : Type} (test : A -> bool) (l : list A) :
  existsb test l = false -> find test l = None.
Proof.
  induction l as [| a l IH]; simpl; [reflexivity |].
  destruct (test a); [discriminate | exact IH].
Qed.

(** GET /:marketId on the store a settlement commits. *)
Lemma getResolution_settled (s : Store) (market : MarketRow)
    (marketId : string) (d : Determination) (by_ rid now : string) :
  selectMarket marketId s = Some market ->
  existsb (fun r => String.eqb (r_market_id r) marketId) (resolutions s)
  = false ->
  getResolution marketId s
  = ProofStatus 404 "NotFound" "Resolution not found for this market" /\
  getResolution marketId (settledStore s market marketId d by_ rid now)
  = ProofJson (mkResolutionProof (resolutionRowOf market marketId d by_ rid)
                 (resolution_criteria market) (closes_at market)).
Proof.
  intros Hm Hnone.
  pose proof (find_none_of_existsb _ _ Hnone) as Hfind.
  split.
  - unfold getResolution, selectProof. rewrite Hfind. reflexivity.
  - unfold getResolution, selectProof.
    rewrite (selectMarket_settled s market market marketId d by_ rid now Hm).
    unfold settledStore. cbn [resolutions].
    rewrite find_app_none by exact Hfind.
    cbn [find resolutionRowOf r_market_id]. rewrite String.eqb_refl.
    reflexivity.
Qed.

(** X18.  What [resolveMarket] writes, GET /:marketId reads back.  Before a
    call that returns, the route answers 404 for the market; after it, the
    route answers with the one row of the market, which carries the
    identifier drawn, the outcome returned, the source of the market and the
    resolver's name ('auto' by default), joined with the market's criteria
    and closing time; and the market row is marked resolved with the same
    outcome and the time of the call. *)
Theorem resolution_proof_round_trip `{DataFetcher} (copy : ResolverCopy)
    (marketId : string) (manualOutcome : option PositionType)
    (resolvedBy : option string) (rid now : string) (s s' : Store)
    (res : ResolutionResult) :
  resolveMarketOf copy marketId manualOutcome resolvedBy rid now s
  = (s', Returned res) ->
  exists market row market',
    selectMarket marketId s = Some market /\
    getResolution marketId s
    = ProofStatus 404 "NotFound" "Resolution not found for this market" /\
    getResolution marketId s'
    = ProofJson (mkResolutionProof row (resolution_criteria market)
                   (closes_at market)) /\
    r_id row = rid /\ r_market_id row = marketId /\
    r_outcome row = rr_outcome res /\
    source_url row = resolution_source market /\
    resolved_by row = resolvedByOrAuto resolvedBy /\
    selectMarket marketId s' = Some market' /\
    status market' = resolved /\ outcome market' = Some (rr_outcome res) /\
    resolved_at market' = Some now /\
    (forall o, manualOutcome = Some o -> rr_outcome res = o).
Proof.
  intros Hrun.
  destruct (resolve_returned _ _ _ _ _ _ _ _ _ Hrun)
    as (m & d & Hm & _ & Hnone & Hs & _ & Ho & _ & Hman & _).
  pose proof (selectMarket_settled s m m marketId d
                (resolvedByOrAuto resolvedBy) rid now Hm) as Hm'.
  destruct (getResolution_settled s m marketId d
              (resolvedByOrAuto resolvedBy) rid now Hm Hnone)
    as [Hbefore Hafter].
  exists m, (resolutionRowOf m marketId d (resolvedByOrAuto resolvedBy) rid).
  eexists. rewrite <- Hs in Hm', Hafter.
  split; [exact Hm |].
  split; [exact Hbefore |].
  split; [exact Hafter |].
  split; [reflexivity |]. split; [reflexivity |].
  split; [now symmetry |]. split; [reflexivity |]. split; [reflexivity |].
  split; [exact Hm' |]. split; [reflexivity |].
  split; [cbn [outcome]; now rewrite Ho |]. split; [reflexivity |].
  intros o Ho'. rewrite Ho, (Hman o Ho'). reflexivity.
Qed.

Lemma resolution_proof_round_trip_witness :
  exists s' res row,
    ResolutionService.resolveMarket (H := failingFetcher) "m1" (Some YES)
      None "r1" today payoutStore = (s', Returned res) /\
    getResolution "m1" s'
    = ProofJson (mkResolutionProof row priceCriteria
                   "2099-01-01T00:00:00.000Z") /\
    r_outcome row = YES /\ resolved_by row = "auto"%string.
Proof.
  destruct (fallback_returns (H := failingFetcher) "m1" (Some YES) None "r1"
              today payoutStore marketM1 eq_refl ltac:(discriminate) eq_refl)
    as (res & Hrun).
  destruct (resolution_proof_round_trip (H := failingFetcher) WithFallback
              "m1" (Some YES) None "r1" today payoutStore _ res Hrun)
    as (m & row & m' & Hm & _ & Hget & _ & _ & Ho & _ & Hby & _ & _ & _ & _
        & Hman).
  injection Hm as <-.
  eexists _, res, row. split; [exact Hrun |]. split; [exact Hget |].
  split; [| exact Hby]. rewrite Ho. apply Hman. reflexivity.
Defined.

(** X19.  The two copies of [resolveMarket] do the same thing, store and
    result, whenever a manual outcome is given, and also without one when
    the market's source is not 'manual' and the source yields a
    determination. *)
Theorem copies_agree `{DataFetcher} (marketId : string)
    (manualOutcome : option PositionType) (resolvedBy : option string)
    (rid now : string) (s : Store) :
  (manualOutcome = None ->
   forall market, selectMarket marketId s = Some market ->
   status market <> resolved ->
   resolution_source market <> "manual"%string /\
   exists d, consultSource market = Returned d) ->
  ResolutionService.resolveMarket marketId manualOutcome resolvedBy rid now s
  = ResolutionServiceNoFallback.resolveMarket marketId manualOutcome
      resolvedBy rid now s.
Proof.
  intros Hsrc.
  unfold ResolutionService.resolveMarket,
    ResolutionServiceNoFallback.resolveMarket, bind, gets.
  destruct (selectMarket marketId s) as [market |] eqn:Hm; [| reflexivity].
  destruct (MarketStatus_eqb (status market) resolved) eqn:Hst;
    [reflexivity |].
  unfold ResolutionService.determine.
  destruct manualOutcome as [o |]; [reflexivity |].
  destruct (Hsrc eq_refl market eq_refl) as (Hne & d & Hd).
  { intros E. rewrite E in Hst. discriminate. }
  apply String.eqb_neq in Hne. rewrite Hne, Hd. reflexivity.
Qed.

Lemma copies_agree_witness :
  ResolutionService.resolveMarket (H := failingFetcher) "m1" (Some NO)
    (Some "admin"%string) "r1" today payoutStore
  = ResolutionServiceNoFallback.resolveMarket (H := failingFetcher) "m1"
      (Some NO) (Some "admin"%string) "r1" today payoutStore.
Proof.
  apply (copies_agree (H := failingFetcher)). discriminate.
Defined.

Lemma outcome_by_probability (market : MarketRow) :
  0 < m_liquidity_pool market ->
  (if Rgt_dec (getYesPrice (marketState market)) 0.5 then YES else NO) = YES
  <-> m_total_no_shares market < m_total_yes_shares market.
Proof.
  intros Hb. unfold marketState.
  pose proof (getYesPrice_even (m_total_no_shares market)
                (m_liquidity_pool market)) as He.
  destruct (Rtotal_order (m_total_yes_shares market)
              (m_total_no_shares market)) as [Hlt | [E | Hgt]].
  - pose proof (getYesPrice_increasing _ _ (m_total_no_shares market) _ Hb
                  Hlt).
    destruct (Rgt_dec _ _); split; intros; (lra || discriminate).
  - rewrite E, He.
    destruct (Rgt_dec _ _); split; intros; (lra || discriminate).
  - pose proof (getYesPrice_increasing _ _ (m_total_no_shares market) _ Hb
                  Hgt).
    destruct (Rgt_dec _ _); split; intros; (lra || discriminate || trivial).
Qed.

(** X20.  With the fallback copy and no manual outcome, a market whose
    source is 'manual', or whose source fails, is resolved by its own
    price: the outcome is YES exactly when the YES price of the market row
    is above 0.5.  For b > 0 an outcome of YES therefore needs more YES than
    NO shares outstanding, and a market with at most as many YES as NO
    shares outstanding (a tie and the fresh market included) resolves NO. *)
Theorem probability_resolution_rule `{DataFetcher} (marketId : string)
    (resolvedBy : option string) (rid now : string) (s s' : Store)
    (market : MarketRow) (res : ResolutionResult) :
  selectMarket marketId s = Some market ->
  0 < m_liquidity_pool market ->
  resolution_source market = "manual"%string \/
  (exists e, consultSource market = Threw e) ->
  ResolutionService.resolveMarket marketId None resolvedBy rid now s
  = (s', Returned res) ->
  (rr_outcome res = YES <-> getYesPrice (marketState market) > 0.5) /\
  (rr_outcome res = YES ->
   m_total_no_shares market < m_total_yes_shares market) /\
  (m_total_yes_shares market <= m_total_no_shares market ->
   rr_outcome res = NO).
Proof.
  intros Hm Hb Hsrc Hrun.
  destruct (resolve_returned WithFallback _ _ _ _ _ _ _ _ Hrun)
    as (m & d & Hm' & _ & _ & _ & _ & Ho & _ & _ & Hfb & _).
  rewrite Hm in Hm'. injection Hm' as <-.
  specialize (Hfb eq_refl). rewrite Ho, Hfb.
  pose proof (outcome_by_probability market Hb) as Hrule.
  assert (Hd : d_outcome (ResolutionService.determine market None)
               = if Rgt_dec (getYesPrice (marketState market)) 0.5
                 then YES else NO).
  { unfold ResolutionService.determine.
    destruct (String.eqb (resolution_source market) "manual") eqn:E.
    - reflexivity.
    - destruct Hsrc as [Hman | (e & He)].
      + rewrite Hman in E. discriminate.
      + rewrite He. reflexivity. }
  rewrite Hd. split; [| split].
  - destruct (Rgt_dec (getYesPrice (marketState market)) 0.5);
      split; intros; first [assumption | reflexivity | discriminate
                            | contradiction].
  - apply Hrule.
  - intros Hle.
    destruct (if Rgt_dec (getYesPrice (marketState market)) 0.5
              then YES else NO) eqn:E; [| reflexivity].
    assert (m_total_no_shares market < m_total_yes_shares market)
      by (apply Hrule; reflexivity).
    lra.
Qed.

Lemma probability_resolution_rule_witness :
  exists s' res,
    ResolutionService.resolveMarket (H := failingFetcher) "m2" None None "r1"
      today manualStore = (s', Returned res) /\
    rr_outcome res = NO.
Proof.
  destruct (fallback_returns (H := failingFetcher) "m2" None None "r1" today
              manualStore manualMarket eq_refl ltac:(discriminate) eq_refl)
    as (res & Hrun).
  eexists _, res. split; [exact Hrun |].
  assert (Hb : 0 < m_liquidity_pool manualMarket) by (simpl; lra).
  destruct (probability_resolution_rule (H := failingFetcher) "m2" None "r1"
              today manualStore _ manualMarket res eq_refl Hb
              (or_introl eq_refl) Hrun) as (_ & _ & Hno).
  apply Hno. simpl. lra.
Defined.

Lemma totalBalance_untouched (a : R) (id : string) (us : list UserRow) :
  ~ In id (map u_id us) ->
  map (creditUser a id) us = us.
Proof.
  induction us as [| u us IH]; simpl; intros Hnot; [reflexivity |].
  rewrite IH by tauto. unfold creditUser.
  destruct (String.eqb (u_id u) id) eqn:E; [| reflexivity].
  apply String.eqb_eq in E. tauto.
Qed.

Lemma find_user_in (id : string) (us : list UserRow) :
  find (fun u => String.eqb (u_id u) id) us <> None <-> In id (map u_id us).
Proof.
  induction us as [| u us IH]; simpl; [tauto |].
  destruct (String.eqb (u_id u) id) eqn:E.
  - apply String.eqb_eq in E. split; [tauto | discriminate].
  - apply String.eqb_neq in E. rewrite IH. tauto.
Qed.

(** Crediting a user who has exactly one row raises the sum of the balances
    by the amount credited. *)
Lemma total_credit (a : R) (id : string) (us : list UserRow) :
  NoDup (map u_id us) -> In id (map u_id us) ->
  fold_right (fun u total => balance u + total) 0 (map (creditUser a id) us)
  = fold_right (fun u total => balance u + total) 0 us + a.
Proof.
  induction us as [| u us IH]; simpl; intros Hnd Hin; [contradiction |].
  inversion Hnd as [| ? ? Hnotin Hnd']; subst.
  unfold creditUser at 1.
  destruct (String.eqb (u_id u) id) eqn:E.
  - apply String.eqb_eq in E. subst id.
    rewrite totalBalance_untouched by exact Hnotin. simpl. lra.
  - apply String.eqb_neq in E. rewrite IH by tauto. lra.
Qed.

Lemma total_creditAll (ws : list PositionRow) :
  forall us,
  NoDup (map u_id us) ->
  (forall p, In p ws -> In (p_user_id p) (map u_id us)) ->
  fold_right (fun u total => balance u + total) 0 (creditAll ws us)
  = fold_right (fun u total => balance u + total) 0 us + totalShares ws.
Proof.
  induction ws as [| p ws IH]; intros us Hnd Hown; simpl; [lra |].
  rewrite IH.
  - rewrite total_credit; [lra | exact Hnd | apply Hown; now left].
  - rewrite map_ids_update by apply creditUser_id. exact Hnd.
  - intros p' Hin. rewrite map_ids_update by apply creditUser_id.
    apply Hown. now right.
Qed.

Lemma totalPayout_payoutOf (ws : list PositionRow) :
  totalPayout (map payoutOf ws) = totalShares ws.
Proof.
  induction ws as [| p ws IH]; simpl; [reflexivity |]. rewrite IH.
  reflexivity.
Qed.

Lemma debit_is_credit (a : R) (id : string) (us : list UserRow) :
  map (debitUser a id) us = map (creditUser (- a) id) us.
Proof.
  apply map_ext. intros u. unfold debitUser, creditUser.
  destruct (String.eqb _ _); reflexivity.
Qed.

(** X21.  Cash is conserved.  On a store with unique user ids in which
    every position belongs to a user, a returned buy lowers the sum of all
    balances by the [totalCost] of its response, a returned sell raises it
    by the [totalCost] of its response, and a returned resolution raises it
    by the sum of the payouts it reports; the resolution changes no
    position. *)
Theorem cash_is_conserved `{DataFetcher} (s s' : Store) :
  users_unique s -> owners_exist s ->
  (forall req tid pid hid resp,
     executeBuyTrade req tid pid hid s = (s', Returned resp) ->
     totalBalance s' = totalBalance s - totalCost resp) /\
  (forall req tid hid resp,
     executeSellTrade req tid hid s = (s', Returned resp) ->
     totalBalance s' = totalBalance s + totalCost resp) /\
  (forall copy marketId manualOutcome resolvedBy rid now res,
     resolveMarketOf copy marketId manualOutcome resolvedBy rid now s
     = (s', Returned res) ->
     totalBalance s' = totalBalance s + totalPayout (rr_payouts res) /\
     positions s' = positions s).
Proof.
  intros Huniq Hown. unfold users_unique in Huniq. split; [| split].
  - intros req tid pid hid resp Hrun.
    destruct (buy_returned req tid pid hid s s' resp Hrun)
      as (m & u & _ & _ & Hu & _ & Hs & _ & _ & Hto & _).
    rewrite Hs, Hto. unfold boughtStore. cbv zeta.
    unfold totalBalance. cbn [users].
    rewrite debit_is_credit, total_credit; [lra | exact Huniq |].
    apply find_user_in. unfold selectUser in Hu. rewrite Hu. discriminate.
  - intros req tid hid resp Hrun.
    destruct (sell_returned req tid hid s s' resp Hrun)
      as (m & pos & u & _ & _ & _ & _ & Hu & Hs & _ & _ & Hto & _).
    rewrite Hs, Hto. unfold soldStore. cbv zeta.
    unfold totalBalance. cbn [users].
    rewrite total_credit; [reflexivity | exact Huniq |].
    apply find_user_in. unfold selectUser in Hu. rewrite Hu. discriminate.
  - intros copy mid manual by_ rid now res Hrun.
    destruct (resolve_returned _ _ _ _ _ _ _ _ _ Hrun)
      as (m & d & _ & _ & _ & Hs & _ & _ & Hpay & _).
    rewrite Hs, Hpay, totalPayout_payoutOf. unfold settledStore.
    split; [| reflexivity]. unfold totalBalance. cbn [users].
    apply total_creditAll; [exact Huniq |].
    intros p Hin. apply filter_In in Hin. destruct Hin as [Hin _].
    apply find_user_in. exact (Hown p Hin).
Qed.

Lemma payoutStore_users_unique : users_unique payoutStore.
Proof. exact (proj1 (proj1 payoutStore_ok)). Qed.

Lemma cash_is_conserved_witness :
  exists s' res,
    ResolutionService.resolveMarket (H := failingFetcher) "m1" (Some YES)
      None "r1" today payoutStore = (s', Returned res) /\
    totalBalance s' = 1000 + (1000 + 0) + (30 * 1.0 + 0).
Proof.
  destruct (fallback_returns (H := failingFetcher) "m1" (Some YES) None "r1"
              today payoutStore marketM1 eq_refl ltac:(discriminate) eq_refl)
    as (res & Hrun).
  set (s' := settledStore payoutStore marketM1 "m1"
               (ResolutionService.determine marketM1 (Some YES))
               (resolvedByOrAuto None) "r1" today) in Hrun.
  exists s', res. split; [exact Hrun |].
  destruct (cash_is_conserved (H := failingFetcher) payoutStore s'
              payoutStore_users_unique payoutStore_owners)
    as (_ & _ & Hres).
  destruct (Hres WithFallback _ _ _ _ _ _ Hrun) as [Htotal _].
  rewrite Htotal.
  destruct (resolve_returned (H := failingFetcher) WithFallback _ _ _ _ _ _
              _ _ Hrun) as (m & d & _ & _ & _ & _ & _ & _ & Hpay & Hman & _).
  rewrite Hpay, (Hman YES eq_refl). reflexivity.
Defined.

(** X22.  POST /:marketId/resolve answers with the result only for a body
    whose outcome is the text YES or NO, and then the market has been
    resolved with exactly that outcome: the resolution row that
    GET /:marketId reads back carries it, is attributed to the
    [resolved_by] of the body, or to 'manual' when that is absent or empty,
    and records a manual determination. *)
Theorem route_resolution_is_attributed `{DataFetcher} (copy : ResolverCopy)
    (marketId : string) (body : ResolutionsRoute.ResolveBody)
    (rid now : string) (s s' : Store) (res : ResolutionResult) :
  ResolutionsRoute.postResolve (resolveMarketOf copy) marketId body rid now s
  = (s', ResolutionsRoute.Json res) ->
  exists o market row,
    ResolutionsRoute.body_outcome body = string_of_PositionType o /\
    rr_outcome res = o /\
    selectMarket marketId s = Some market /\
    getResolution marketId s'
    = ProofJson (mkResolutionProof row (resolution_criteria market)
                   (closes_at market)) /\
    r_outcome row = o /\
    resolved_by row
    = ResolutionsRoute.resolvedByOrManual
        (ResolutionsRoute.body_resolved_by body) /\
    source_response row = d_sourceResponse (manualDetermination o) /\
    final_value row = [Lit (string_of_PositionType o)].
Proof.
  intros Hpost. unfold ResolutionsRoute.postResolve in Hpost.
  cbv zeta in Hpost.
  assert (Hbody : forall o,
            (if String.eqb (ResolutionsRoute.body_outcome body) "YES"
             then Some YES
             else if String.eqb (ResolutionsRoute.body_outcome body) "NO"
                  then Some NO else None) = Some o ->
            ResolutionsRoute.body_outcome body = string_of_PositionType o).
  { intros o.
    destruct (String.eqb (ResolutionsRoute.body_outcome body) "YES") eqn:Ey.
    - intros [= <-]. apply String.eqb_eq in Ey. exact Ey.
    - destruct (String.eqb (ResolutionsRoute.body_outcome body) "NO") eqn:En;
        [| discriminate].
      intros [= <-]. apply String.eqb_eq in En. exact En. }
  destruct (if String.eqb (ResolutionsRoute.body_outcome body) "YES"
            then Some YES
            else if String.eqb (ResolutionsRoute.body_outcome body) "NO"
                 then Some NO else None) as [o |];
    [| discriminate Hpost].
  specialize (Hbody o eq_refl).
  destruct (selectMarket marketId s) as [m0 |] eqn:Hm0;
    [| discriminate Hpost].
  destruct (MarketStatus_eqb (status m0) resolved); [discriminate Hpost |].
  destruct (resolveMarketOf copy marketId (Some o)
              (Some (ResolutionsRoute.resolvedByOrManual
                       (ResolutionsRoute.body_resolved_by body)))
              rid now s) as [s1 [msg | res1]] eqn:Hrun;
    [discriminate Hpost |].
  apply pair_equal_spec in Hpost. destruct Hpost as [Hs Hr].
  injection Hr as ->. subst s1.
  destruct (resolve_returned _ _ _ _ _ _ _ _ _ Hrun)
    as (m & d & Hm & _ & Hnone & Hs & _ & Ho & _ & Hman & _).
  specialize (Hman o eq_refl). subst d.
  destruct (getResolution_settled s m marketId (manualDetermination o)
              (resolvedByOrAuto
                 (Some (ResolutionsRoute.resolvedByOrManual
                          (ResolutionsRoute.body_resolved_by body))))
              rid now Hm Hnone) as [_ Hafter].
  rewrite <- Hs in Hafter. rewrite Hm0 in Hm. injection Hm as <-.
  exists o, m0. eexists.
  split; [exact Hbody |]. split; [exact Ho |]. split; [reflexivity |].
  split; [exact Hafter |]. repeat split.
Qed.

Lemma route_resolution_is_attributed_witness :
  exists s' res row,
    ResolutionsRoute.postResolve
      (resolveMarketOf (H := failingFetcher) WithoutFallback) "m1"
      (ResolutionsRoute.mkResolveBody "NO" None) "r1" today payoutStore
    = (s', ResolutionsRoute.Json res) /\
    getResolution "m1" s'
    = ProofJson (mkResolutionProof row priceCriteria
                   "2099-01-01T00:00:00.000Z") /\
    r_outcome row = NO /\ resolved_by row = "manual"%string.
Proof.
  destruct (ResolutionsRoute.postResolve
              (resolveMarketOf (H := failingFetcher) WithoutFallback) "m1"
              (ResolutionsRoute.mkResolveBody "NO" None) "r1" today
              payoutStore) as [s' [res | code e msg]] eqn:Hpost.
  - destruct (route_resolution_is_attributed (H := failingFetcher)
                WithoutFallback "m1"
                (ResolutionsRoute.mkResolveBody "NO" None) "r1" today
                payoutStore s' res Hpost)
      as (o & m & row & Hbody & _ & Hm & Hget & Ho & Hby & _).
    injection Hm as <-.
    destruct o; [discriminate Hbody |]. exists s', res, row.
    split; [reflexivity |]. split; [exact Hget |].
    split; [exact Ho | exact Hby].
  - exfalso. unfold ResolutionsRoute.postResolve in Hpost.
    cbn in Hpost. discriminate Hpost.
Defined.

(** X27.  The automated path.  For a market that is in the table, is not
    resolved, has no resolution row and whose source is not 'manual': when
    no manual outcome is given, the fetch succeeds, a value is found at the
    criteria's path and the condition evaluates to a Boolean, both copies of
    [resolveMarket] return; the outcome is YES exactly when the condition
    holds, and the row appended to the resolutions table carries the
    response of the source as proof, the text of the extracted value as
    final value and the four numbered steps of
    [generateCalculationSteps]. *)
Theorem sourced_resolution_follows_the_condition `{DataFetcher}
    (copy : ResolverCopy) (marketId : string) (resolvedBy : option string)
    (rid now : string) (s : Store) (market : MarketRow) (actualValue : json)
    (conditionMet : bool) :
  selectMarket marketId s = Some market -> status market <> resolved ->
  existsb (fun r => String.eqb (r_market_id r) marketId) (resolutions s)
  = false ->
  resolution_source market <> "manual"%string ->
  ds_success (fetchFromSource (resolution_source market)) = true ->
  extractValue (data (fetchFromSource (resolution_source market)))
    (path (resolution_criteria market)) = Some actualValue ->
  evaluateCondition actualValue (operator (resolution_criteria market))
    (value (resolution_criteria market)) = Returned conditionMet ->
  exists s' res row,
    resolveMarketOf copy marketId None resolvedBy rid now s
    = (s', Returned res) /\
    rr_outcome res = (if conditionMet then YES else NO) /\
    resolutions s' = resolutions s ++ [row] /\
    r_market_id row = marketId /\
    r_outcome row = (if conditionMet then YES else NO) /\
    source_url row = resolution_source market /\
    source_response row
    = data (fetchFromSource (resolution_source market)) /\
    final_value row = [StringOf actualValue] /\
    calculation_steps row
    = generateCalculationSteps (resolution_source market)
        (data (fetchFromSource (resolution_source market)))
        (path (resolution_criteria market))
        (operator (resolution_criteria market))
        (value (resolution_criteria market)) actualValue
        (if conditionMet then YES else NO) /\
    map step (calculation_steps row) = [1; 2; 3; 4]%nat.
Proof.
  intros Hm Hst Hnone Hsrc Hok Hval Hcond.
  set (o := if conditionMet then YES else NO).
  set (d0 := mkDetermination o
               (data (fetchFromSource (resolution_source market)))
               (generateCalculationSteps (resolution_source market)
                  (data (fetchFromSource (resolution_source market)))
                  (path (resolution_criteria market))
                  (operator (resolution_criteria market))
                  (value (resolution_criteria market)) actualValue o)
               [StringOf actualValue]).
  assert (Hc : consultSource market = Returned d0).
  { unfold consultSource. cbv zeta. rewrite Hok. cbn [negb].
    rewrite Hval, Hcond. reflexivity. }
  assert (Hrun : resolveMarketOf copy marketId None resolvedBy rid now s
                 = settle market marketId d0 (resolvedByOrAuto resolvedBy) rid
                     now s).
  { destruct (resolveMarket_cases copy marketId None resolvedBy rid now s)
      as [[E _] | [(m & E & Hres & _) | [(m & msg & E & _ & _ & _ & Hc' & _)
         | (m & d & E & _ & _ & Hfb & Hnf & Hrun)]]].
    - congruence.
    - rewrite Hm in E. injection E as <-. contradiction.
    - rewrite Hm in E. injection E as <-. rewrite Hc in Hc'.
      discriminate Hc'.
    - rewrite Hm in E. injection E as <-. rewrite Hrun.
      assert (d = d0); [| subst d; reflexivity].
      destruct copy.
      + rewrite (Hfb eq_refl). unfold ResolutionService.determine.
        apply String.eqb_neq in Hsrc. rewrite Hsrc, Hc. reflexivity.
      + specialize (Hnf eq_refl eq_refl). rewrite Hc in Hnf.
        injection Hnf as <-. reflexivity. }
  destruct (settle_spec market marketId d0 (resolvedByOrAuto resolvedBy) rid
              now s) as [[E _] | (_ & r0 & _ & Hsettle)]; [congruence |].
  rewrite Hsettle in Hrun.
  eexists _, _,
    (resolutionRowOf market marketId d0 (resolvedByOrAuto resolvedBy) rid).
  split; [exact Hrun |]. repeat split.
Qed.

Lemma sourced_resolution_follows_the_condition_witness :
  exists s' res,
    ResolutionServiceNoFallback.resolveMarket
      (H := {| fetchFromSource := fun url =>
                 mkDataSourceResult true (JNum 120000) url today None;
               extractValue := fun response _ => Some response;
               evaluateCondition := fun _ _ _ => Returned true |})
      "m1" None None "r1" today payoutStore = (s', Returned res) /\
    rr_outcome res = YES.
Proof.
  destruct (sourced_resolution_follows_the_condition
              (H := {| fetchFromSource := fun url =>
                         mkDataSourceResult true (JNum 120000) url today None;
                       extractValue := fun response _ => Some response;
                       evaluateCondition := fun _ _ _ => Returned true |})
              WithoutFallback "m1" None "r1" today payoutStore marketM1
              (JNum 120000) true eq_refl ltac:(discriminate) eq_refl
              ltac:(discriminate) eq_refl eq_refl eq_refl)
    as (s' & res & row & Hrun & Ho & _).
  exists s', res. split; [exact Hrun | exact Ho].
Defined.

End ResolverFacts.

(** * Further invariants *)

Section InvariantFacts.
Import AmmEngine Db TradingService DataSourceService ResolutionCommon Invariants
  Scenarios MoreInvariants.



(** What an operation leaves behind: the store as it was, or one of the
    three committed stores. *)
Lemma runOperation_cases `{DataFetcher} (op : Operation) (s : Store) :
  runOperation op s = s \/
  (exists req tid pid hid market user,
     selectMarket (marketId req) s = Some market /\ status market = open /\
     selectUser (userId req) s = Some user /\
     runOperation op s = boughtStore req tid pid hid market s) \/
  (exists req tid hid market position_,
     selectMarket (marketId req) s = Some market /\ status market = open /\
     getPosition (userId req) (marketId req) (positionType req) s
     = Some position_ /\
     runOperation op s = soldStore req tid hid market position_ s) \/
  (exists marketId market d by_ rid now,
     selectMarket marketId s = Some market /\ status market <> resolved /\
     runOperation op s = settledStore s market marketId d by_ rid now).
Proof.
  destruct op as [req tid pid hid | req tid hid
                 | copy mid manual by_ rid now]; cbn [runOperation].
  - destruct (executeBuyTrade_cases req tid pid hid s)
      as [[_ E] | [(m & _ & _ & E) | [(m & _ & _ & _ & E)
         | [(m & u & _ & _ & _ & _ & E)
         | (m & u & pos & Hm & Hst & Hu & _ & E)]]]];
      rewrite E; cbn [fst]; [now left .. |].
    right; left. exists req, tid, pid, hid, m, u. repeat split; assumption.
  - destruct (executeSellTrade_cases req tid hid s)
      as [[_ E] | [(m & _ & _ & E) | [(m & _ & _ & _ & E)
         | (m & pos & Hm & Hst & Hp & _ & E)]]];
      cbv zeta in E; rewrite E; cbn [fst]; [now left .. |].
    right; right; left. exists req, tid, hid, m, pos.
    repeat split; assumption.
  - destruct (resolveMarketOf copy mid manual by_ rid now s)
      as [s1 [e | res]] eqn:Hrun; cbn [fst].
    + left. exact (resolve_threw _ _ _ _ _ _ _ _ _ Hrun).
    + destruct (resolve_returned _ _ _ _ _ _ _ _ _ Hrun)
        as (m & d & Hm & Hst & _ & Hs & _).
      right; right; right.
      exists mid, m, d, (resolvedByOrAuto by_), rid, now.
      repeat split; assumption.
Qed.

Lemma NoDup_snoc {A : Type} (l : list A) (a : A) :
  NoDup l -> ~ In a l -> NoDup (l ++ [a]).
Proof.
  induction l as [| x l IH]; simpl; intros Hnd Hnot.
  - constructor; [tauto | constructor].
  - inversion Hnd as [| ? ? Hx Hnd']; subst. constructor.
    + rewrite in_app_iff. simpl. intros [Hin | [E | []]]; [tauto |].
      subst. tauto.
    + apply IH; tauto.
Qed.

Lemma boughtPositions_keys (req : TradeRequest) (pid : string)
    (result : TradeResult) (s : Store) :
  positions_unique s ->
  NoDup (map positionKey (boughtPositions req pid result s)).
Proof.
  unfold positions_unique, boughtPositions. intros Huniq.
  destruct (getPosition (userId req) (marketId req) (positionType req) s)
    as [existing |] eqn:Hp.
  - rewrite map_map.
    rewrite (map_ext _ positionKey); [exact Huniq |].
    intros p. destruct (String.eqb _ _); reflexivity.
  - rewrite map_app. simpl. apply NoDup_snoc; [exact Huniq |].
    intros Hin. apply in_map_iff in Hin. destruct Hin as (p & Hkey & Hin).
    unfold getPosition in Hp.
    pose proof (find_none _ _ Hp p Hin) as Hno. cbv beta in Hno.
    unfold positionKey in Hkey. cbn in Hkey. injection Hkey as Hu Hm Hs.
    rewrite Hu, Hm, Hs, !String.eqb_refl, PositionType_eqb_refl in Hno.
    discriminate Hno.
Qed.

Lemma boughtPositions_owner (req : TradeRequest) (pid : string)
    (result : TradeResult) (s : Store) (p' : PositionRow) :
  In p' (boughtPositions req pid result s) ->
  (exists p, In p (positions s) /\ p_user_id p = p_user_id p') \/
  p_user_id p' = userId req.
Proof.
  unfold boughtPositions.
  destruct (getPosition (userId req) (marketId req) (positionType req) s)
    as [existing |].
  - intros Hin. apply in_map_iff in Hin. destruct Hin as (p & <- & Hin).
    left. exists p. split; [exact Hin |].
    destruct (String.eqb _ _); reflexivity.
  - intros Hin. apply in_app_or in Hin. destruct Hin as [Hin | [<- | []]].
    + left. now exists p'.
    + right. reflexivity.
Qed.

Lemma soldPositions_keys (req : TradeRequest) (pos : PositionRow)
    (s : Store) :
  positions_unique s -> NoDup (map positionKey (soldPositions req pos s)).
Proof.
  unfold positions_unique, soldPositions. intros Huniq.
  destruct (Rle_dec _ _).
  - apply NoDup_map_filter. exact Huniq.
  - rewrite map_map.
    rewrite (map_ext _ positionKey); [exact Huniq |].
    intros p. destruct (String.eqb _ _); reflexivity.
Qed.

Lemma soldPositions_owner (req : TradeRequest) (pos : PositionRow)
    (s : Store) (p' : PositionRow) :
  In p' (soldPositions req pos s) ->
  exists p, In p (positions s) /\ p_user_id p = p_user_id p'.
Proof.
  unfold soldPositions. destruct (Rle_dec _ _); intros Hin.
  - apply filter_In in Hin. exists p'. tauto.
  - apply in_map_iff in Hin. destruct Hin as (p & <- & Hin).
    exists p. split; [exact Hin |]. destruct (String.eqb _ _); reflexivity.
Qed.

(** The four constraints carry over to a store with the same user ids, the
    same market ids, unique position keys and no position of a new owner. *)
Lemma constraints_transfer (s s' : Store) :
  map u_id (users s') = map u_id (users s) ->
  map m_id (markets s') = map m_id (markets s) ->
  NoDup (map positionKey (positions s')) ->
  (forall p', In p' (positions s') ->
     (exists p, In p (positions s) /\ p_user_id p = p_user_id p') \/
     In (p_user_id p') (map u_id (users s))) ->
  users_unique s /\ markets_unique s /\ positions_unique s /\ owners_exist s ->
  users_unique s' /\ markets_unique s' /\ positions_unique s' /\
  owners_exist s'.
Proof.
  intros Hu Hm Hk Hown (Huu & Hmu & _ & Hoe).
  unfold users_unique, markets_unique, positions_unique, owners_exist in *.
  rewrite Hu, Hm. repeat split; try assumption.
  intros p' Hin. unfold selectUser. apply find_user_in. rewrite Hu.
  destruct (Hown p' Hin) as [(p & Hp & <-) | Hid]; [| exact Hid].
  apply find_user_in. exact (Hoe p Hp).
Qed.

Lemma runOperation_constraints `{DataFetcher} (op : Operation) (s : Store) :
  users_unique s /\ markets_unique s /\ positions_unique s /\ owners_exist s ->
  users_unique (runOperation op s) /\ markets_unique (runOperation op s) /\
  positions_unique (runOperation op s) /\ owners_exist (runOperation op s).
Proof.
  intros Hs. pose proof Hs as (_ & _ & Hpu & _).
  destruct (runOperation_cases op s)
    as [E | [(req & tid & pid & hid & m & u & _ & _ & Hu & E)
       | [(req & tid & hid & m & pos & _ & _ & _ & E)
       | (mid & m & d & by_ & rid & now & _ & _ & E)]]]; rewrite E.
  - exact Hs.
  - apply (constraints_transfer s); [| | | | exact Hs];
      unfold boughtStore; cbv zeta;
      cbn [users markets positions].
    + apply map_ids_update, debitUser_id.
    + rewrite map_map. apply map_ext. intros x. apply withShares_id.
    + apply boughtPositions_keys. exact Hpu.
    + intros p' Hin. apply boughtPositions_owner in Hin.
      destruct Hin as [Hin | ->]; [now left | right].
      apply find_user_in. unfold selectUser in Hu. rewrite Hu. discriminate.
  - apply (constraints_transfer s); [| | | | exact Hs];
      unfold soldStore; cbv zeta;
      cbn [users markets positions].
    + apply map_ids_update, creditUser_id.
    + rewrite map_map. apply map_ext. intros x. apply withShares_id.
    + apply soldPositions_keys. exact Hpu.
    + intros p' Hin. left. exact (soldPositions_owner _ _ _ _ Hin).
  - apply (constraints_transfer s); [| | | | exact Hs];
      unfold settledStore; cbn [users markets positions].
    + apply creditAll_ids.
    + rewrite map_map. apply map_ext. intros x. unfold resolvedMarket.
      destruct (String.eqb _ _); reflexivity.
    + exact Hpu.
    + intros p' Hin. left. now exists p'.
Qed.

(** X24.  The constraints of schema.sql are invariants of the engine:
    unique user ids, unique market ids, at most one position per user,
    market and side, and an owner in the users table for every position all
    survive any sequence of buys, sells and resolutions, whether the calls
    return or throw.  In particular the INSERT into positions never meets
    the UNIQUE constraint. *)
Theorem schema_constraints_preserved `{DataFetcher} (ops : list Operation)
    (s : Store) :
  users_unique s /\ markets_unique s /\ positions_unique s /\ owners_exist s ->
  users_unique (runOperations ops s) /\ markets_unique (runOperations ops s) /\
  positions_unique (runOperations ops s) /\
  owners_exist (runOperations ops s).
Proof.
  revert s. induction ops as [| op ops IH]; intros s Hs; [exact Hs |].
  unfold runOperations. simpl. apply IH, runOperation_constraints, Hs.
Qed.

Lemma schema_constraints_preserved_witness :
  positions_unique
    (runOperations (H := failingFetcher)
       [Buy buyTen "t1" "p1" "h1"; Buy buyNothing "t2" "p2" "h2";
        Sell sellAll "t3" "h3";
        Resolve WithFallback "m1" None None "r1" today] payoutStore).
Proof.
  assert (Hm : markets_unique payoutStore).
  { unfold markets_unique. simpl. constructor; [intros [] | constructor]. }
  apply (schema_constraints_preserved (H := failingFetcher)
           [Buy buyTen "t1" "p1" "h1"; Buy buyNothing "t2" "p2" "h2";
            Sell sellAll "t3" "h3";
            Resolve WithFallback "m1" None None "r1" today] payoutStore).
  split; [exact payoutStore_users_unique |]. split; [exact Hm |].
  split; [exact payoutStore_positions_unique | exact payoutStore_owners].
Defined.

Lemma runOperation_history `{DataFetcher} (op : Operation) (s : Store) :
  exists ts hs rs,
    transactions (runOperation op s) = transactions s ++ ts /\
    price_history (runOperation op s) = price_history s ++ hs /\
    resolutions (runOperation op s) = resolutions s ++ rs /\
    List.length ts = List.length hs /\
    (List.length ts + List.length rs <= 1)%nat.
Proof.
  destruct (runOperation_cases op s)
    as [E | [(req & tid & pid & hid & m & u & _ & _ & _ & E)
       | [(req & tid & hid & m & pos & _ & _ & _ & E)
       | (mid & m & d & by_ & rid & now & _ & _ & E)]]]; rewrite E.
  - exists [], [], []. rewrite !app_nil_r. repeat split. simpl. lia.
  - unfold boughtStore. cbv zeta.
    cbn [transactions price_history resolutions].
    eexists [_], [_], []. rewrite app_nil_r. repeat split.
    cbn [List.length]. lia.
  - unfold soldStore. cbv zeta.
    cbn [transactions price_history resolutions].
    eexists [_], [_], []. rewrite app_nil_r. repeat split.
    cbn [List.length]. lia.
  - unfold settledStore. cbn [transactions price_history resolutions].
    eexists [], [], [_]. rewrite !app_nil_r. repeat split.
    cbn [List.length]. lia.
Qed.

(** X25.  The three logs are append-only.  Whatever the operations and
    whether they return or throw, the transactions, the price history and
    the resolutions after a sequence of buys, sells and resolutions are
    those before it followed by new rows: as many price points as
    transactions, and no more new rows than operations. *)
Theorem history_is_append_only `{DataFetcher} (ops : list Operation)
    (s : Store) :
  exists ts hs rs,
    transactions (runOperations ops s) = transactions s ++ ts /\
    price_history (runOperations ops s) = price_history s ++ hs /\
    resolutions (runOperations ops s) = resolutions s ++ rs /\
    List.length ts = List.length hs /\
    (List.length ts + List.length rs <= List.length ops)%nat.
Proof.
  revert s. induction ops as [| op ops IH]; intros s.
  - exists [], [], []. rewrite !app_nil_r. repeat split. simpl. lia.
  - unfold runOperations. simpl.
    destruct (runOperation_history op s)
      as (ts1 & hs1 & rs1 & Ht1 & Hh1 & Hr1 & Hl1 & Hn1).
    destruct (IH (runOperation op s))
      as (ts & hs & rs & Ht & Hh & Hr & Hl & Hn).
    unfold runOperations in Ht, Hh, Hr.
    exists (ts1 ++ ts), (hs1 ++ hs), (rs1 ++ rs).
    rewrite Ht, Hh, Hr, Ht1, Hh1, Hr1, <- !app_assoc, !length_app.
    repeat split. all: lia.
Qed.

Lemma runOperation_frozen `{DataFetcher} (op : Operation) (s : Store)
    (marketId : string) (m : MarketRow) :
  selectMarket marketId s = Some m -> status m = resolved ->
  selectMarket marketId (runOperation op s) = Some m.
Proof.
  intros Hm Hst.
  assert (Hother : forall id market,
            selectMarket id s = Some market -> status market <> resolved ->
            marketId <> id).
  { intros id market Hid Hno E. subst id. rewrite Hm in Hid.
    injection Hid as <-. contradiction. }
  destruct (runOperation_cases op s)
    as [E | [(req & tid & pid & hid & m0 & u & Hm0 & Hopen & _ & E)
       | [(req & tid & hid & m0 & pos & Hm0 & Hopen & _ & E)
       | (mid & m0 & d & by_ & rid & now & Hm0 & Hno & E)]]]; rewrite E.
  - exact Hm.
  - unfold boughtStore. cbv zeta. unfold selectMarket. cbn [markets].
    rewrite find_withShares_other; [exact Hm |].
    apply (Hother _ m0 Hm0). rewrite Hopen. discriminate.
  - unfold soldStore. cbv zeta. unfold selectMarket. cbn [markets].
    rewrite find_withShares_other; [exact Hm |].
    apply (Hother _ m0 Hm0). rewrite Hopen. discriminate.
  - rewrite selectMarket_settled_other; [exact Hm |].
    exact (Hother _ m0 Hm0 Hno).
Qed.

(** X26.  A resolved market is frozen: no sequence of buys, sells and
    resolutions, on this or on any other market, by either copy of the
    resolver, changes the row that a lookup of its id finds, so its status,
    its outcome, its resolution time and its inventory stay as they are. *)
Theorem resolved_market_is_frozen `{DataFetcher} (ops : list Operation)
    (s : Store) (marketId : string) (m : MarketRow) :
  selectMarket marketId s = Some m -> status m = resolved ->
  selectMarket marketId (runOperations ops s) = Some m.
Proof.
  revert s. induction ops as [| op ops IH]; intros s Hm Hst; [exact Hm |].
  unfold runOperations. simpl. apply IH; [| exact Hst].
  apply runOperation_frozen; assumption.
Qed.

Lemma resolved_market_is_frozen_witness :
  exists m,
    selectMarket "m1" resolvedStore = Some m /\ outcome m = Some YES /\
    selectMarket "m1"
      (runOperations (H := failingFetcher)
         [Buy buyTen "t1" "p1" "h1"; Sell sellTen "t2" "h2";
          Resolve WithoutFallback "m1" (Some NO) None "r2" today]
         resolvedStore) = Some m.
Proof.
  eexists. split; [reflexivity |]. split; [reflexivity |].
  apply (resolved_market_is_frozen (H := failingFetcher)); reflexivity.
Defined.

End InvariantFacts.

(** * A buy for a negative amount *)

Section OverdraftFacts.
Import AmmEngine Db TradingService DataSourceService ResolutionCommon Invariants
  Scenarios MoreInvariants.

Lemma bisect_step (f : R -> R) (t : R) (i : nat) (low high : R) :
  bisect f t (S i) low high
  = if Rlt_dec (Rabs (f ((low + high) / 2) - t)) tolerance
    then (low + high) / 2
    else if Rlt_dec (f ((low + high) / 2)) t
         then bisect f t i ((low + high) / 2) high
         else bisect f t i low ((low + high) / 2).
Proof. reflexivity. Qed.

(** When the upper end starts below the lower one, the loop stays between
    them all the same. *)
Lemma bisect_reversed (f : R -> R) (t : R) (i : nat) :
  forall low high, high <= low ->
  high <= bisect f t i low high <= low.
Proof.
  induction i as [| i IH]; intros low high Hhl.
  - simpl. lra.
  - rewrite bisect_step.
    destruct (Rlt_dec _ _); [lra |].
    destruct (Rlt_dec _ _).
    + specialize (IH ((low + high) / 2) high). lra.
    + specialize (IH low ((low + high) / 2)). lra.
Qed.

(** On the fresh market with b = 100, giving up 25 shares of YES lowers the
    cost by more than 5; so the search for the amount -5, between 0 and -50,
    moves its lower end to -25 at once. *)
Lemma negative_amount_shares :
  calculateSharesForAmount (marketState marketM1) YES (-5) <= -25.
Proof.
  unfold calculateSharesForAmount. cbv zeta.
  rewrite bisect_step.
  replace ((0 + -5 * 10) / 2) with (-25) by lra.
  assert (Hf : newCostAt (marketState marketM1) YES (-25)
               - (lmsrCost (total_yes_shares (marketState marketM1))
                    (total_no_shares (marketState marketM1))
                    (liquidity_pool (marketState marketM1)) + -5)
               < - 0.0001).
  { change (newCostAt (marketState marketM1) YES (-25))
      with (lmsrCost (0 + -25) 0 100).
    change (lmsrCost (total_yes_shares (marketState marketM1))
              (total_no_shares (marketState marketM1))
              (liquidity_pool (marketState marketM1)))
      with (lmsrCost 0 0 100).
    pose proof (lmsrCost_tangent_yes (-25) 0 100 25 ltac:(lra)) as Ht.
    replace (-25 + 25) with 0 in Ht by lra.
    replace (0 + -25) with (-25) by lra.
    rewrite getYesPrice_closed_form in Ht by (simpl; lra).
    cbn [total_yes_shares total_no_shares liquidity_pool] in Ht.
    rewrite exp_0_over in Ht.
    pose proof (exp_ineq1_le (-25 / 100)) as He.
    set (e := exp (-25 / 100)) in *.
    assert (Hp : 2 / 5 <= e / (e + 1)).
    { apply Rmult_le_reg_r with (e + 1); [lra |].
      replace (e / (e + 1) * (e + 1)) with e by (field; lra). lra. }
    lra. }
  destruct (Rlt_dec _ _) as [Habs | _].
  { apply Rabs_def2 in Habs. unfold tolerance in Habs. lra. }
  destruct (Rlt_dec _ _) as [_ | Hn]; [| lra].
  apply bisect_reversed. lra.
Qed.

(** Resolving m1 as YES on a store in which user C, with a balance of 15,
    holds the one position, of [sh] YES shares. *)
Lemma short_position_is_paid (s1 : Store) (m1 : MarketRow) (sh avg : R) :
  users s1 = [mkUser "C" (10 - -5)] ->
  positions s1 = [mkPosition "p1" "C" "m1" YES sh avg] ->
  resolutions s1 = [] ->
  selectMarket "m1" s1 = Some m1 -> status m1 = open ->
  exists s2 res,
    ResolutionService.resolveMarket (H := failingFetcher) "m1" (Some YES)
      None "r1" today s1 = (s2, Returned res) /\
    balanceOf "C" s2 = Some (10 - -5 + sh * 1.0).
Proof.
  intros Hu Hp Hr Hm Hst.
  destruct (fallback_returns (H := failingFetcher) "m1" (Some YES) None "r1"
              today s1 m1 Hm) as (res & Hrun).
  - rewrite Hst. discriminate.
  - rewrite Hr. reflexivity.
  - eexists _, res. split; [exact Hrun |].
    rewrite balanceOf_settled. unfold getWinningPositions.
    rewrite Hp, Hu. reflexivity.
Qed.

(** C5, the code at the failing input.  User C has a balance of 10 and no
    position; no balance is negative and no position short.  A buy of YES
    for the amount -5 passes the balance test (10 is not below -5), returns,
    has raised the balance to 15 and has booked a position of at most -25
    shares; when the market is then resolved as YES the position is paid
    like any other, and the balance of C is 15 plus those shares: below
    zero. *)
Theorem negative_buy_overdraws :
  balances_ok thinStore /\ positions_ok thinStore /\
  exists s1 resp s2 res,
    executeBuyTrade buyNegative "t1" "p1" "h1" thinStore
    = (s1, Returned resp) /\
    totalCost resp = -5 /\ newBalance resp = 10 - -5 /\
    balanceOf "C" s1 = Some (10 - -5) /\
    tr_shares resp <= -25 /\
    positions s1
    = [mkPosition "p1" "C" "m1" YES (tr_shares resp) (pricePerShare resp)] /\
    ResolutionService.resolveMarket (H := failingFetcher) "m1" (Some YES)
      None "r1" today s1 = (s2, Returned res) /\
    balanceOf "C" s2 = Some (10 - -5 + tr_shares resp * 1.0) /\
    10 - -5 + tr_shares resp * 1.0 < 0.
Proof.
  split.
  { split.
    - unfold users_unique. simpl. constructor; [intros [] | constructor].
    - intros u [<- | []]. simpl. lra. }
  split; [intros p [] |].
  pose proof negative_amount_shares as Hs.
  rewrite <- t_shares_executeBuy in Hs.
  destruct (executeBuyTrade_cases buyNegative "t1" "p1" "h1" thinStore)
    as [[E _] | [(m & E & Hn & _) | [(m & _ & _ & E & _)
       | [(m & u & _ & _ & E & Hlt & _)
         | (m & u & pos & Hm & _ & Hu & _ & E)]]]].
  - discriminate.
  - injection E as <-. now contradiction Hn.
  - discriminate.
  - injection E as <-. simpl in Hlt. lra.
  - injection Hm as <-. injection Hu as <-.
    cbn [positionType amount buyNegative userId marketId balance] in E.
    assert (Husers : users (boughtStore buyNegative "t1" "p1" "h1" marketM1
                              thinStore) = [mkUser "C" (10 - -5)]).
    { unfold boughtStore. cbv zeta. cbn [users]. reflexivity. }
    assert (Hpos : positions (boughtStore buyNegative "t1" "p1" "h1" marketM1
                                thinStore)
                   = [mkPosition "p1" "C" "m1" YES
                        (t_shares (executeBuy (marketState marketM1) YES (-5)))
                        (t_avgPricePerShare
                           (executeBuy (marketState marketM1) YES (-5)))]).
    { unfold boughtStore. cbv zeta. cbn [positions]. unfold boughtPositions.
      change (getPosition (userId buyNegative) (marketId buyNegative)
                (positionType buyNegative) thinStore)
        with (@None PositionRow).
      cbn [positionType amount buyNegative userId marketId]. reflexivity. }
    assert (Hres : resolutions (boughtStore buyNegative "t1" "p1" "h1"
                                  marketM1 thinStore) = []).
    { unfold boughtStore. cbv zeta. cbn [resolutions]. reflexivity. }
    assert (Hm1 : exists m1,
              selectMarket "m1" (boughtStore buyNegative "t1" "p1" "h1"
                                   marketM1 thinStore) = Some m1 /\
              status m1 = open).
    { unfold boughtStore. cbv zeta. unfold selectMarket. cbn [markets].
      eexists. split; [apply find_withShares; reflexivity | reflexivity]. }
    destruct Hm1 as (m1 & Hm1 & Hst1).
    destruct (short_position_is_paid _ m1 _ _ Husers Hpos Hres Hm1 Hst1)
      as (s2 & res & Hrun & Hbal).
    eexists _, _, s2, res. split; [exact E |].
    cbn [totalCost newBalance tr_shares pricePerShare].
    split; [reflexivity |]. split; [reflexivity |].
    split; [unfold balanceOf, selectUser; rewrite Husers; reflexivity |].
    split; [exact Hs |]. split; [exact Hpos |]. split; [exact Hrun |].
    split; [exact Hbal | lra].
Qed.

End OverdraftFacts.
